(** * MDR interaction core: a shallow embedding of the TypeScript sources

    The development follows the repository's files:

    - [src/types] : the records [Point], [Rectangle], [NumberEntity],
      [CursorState], [LassoState] and the slices of [GameState] that the
      modelled code reads or writes;
    - [src/stores/gameStore.ts] : the zustand actions, as functions from a
      store state to the next store state;
    - [src/systems/WorldSystem.ts] : viewport clamping and the spatial hash;
    - [src/components/MDRInterface.tsx] : the session clock of the status
      bar (the component builds a pan responder but attaches its handlers
      to no view, so they never run and are not embedded);
    - [App] : the mount, whose effect calls the store's [resetGame];
    - [src/components/MDRTerminalGrid.tsx] : cursor physics, momentum decay,
      lasso trail, the per-cell jitter, the fisheye and the rendered glyph;
    - [src/systems/FeedbackSystem.ts] : the haptic cooldown and the table of
      visual effects;
    - [src/utils/PerformanceMonitor] : the input-latency window and the
      animation counter.

    JavaScript numbers are idealised: rounding, NaN and the infinities of
    IEEE doubles are out of scope.  The carrier of numbers is a parameter
    of the data model.  [WorldSystem] only uses field operations, floor,
    ceiling, min and max, so it is instantiated at [Q], where every
    definition computes.  The components call [Math.sqrt], [Math.sin] and
    [Math.cos], so they are instantiated at [R]. *)

From Stdlib Require Import ZArith QArith Qround Qminmax Reals Psatz List Ascii String.
From stdpp Require Import gmap strings pretty.
Import ListNotations.

(** * Data model ([src/types]) *)

Module Point.
Record t (num : Type) : Type := mk { x : num; y : num }.
Arguments mk {num} _ _.
Arguments x {num} _.
Arguments y {num} _.
End Point.

(** [Vector2] has the same shape as [Point]. *)
Module Vector2 := Point.

Module Rectangle.
Record t (num : Type) : Type := mk { x : num; y : num; width : num; height : num }.
Arguments mk {num} _ _ _ _.
Arguments x {num} _.
Arguments y {num} _.
Arguments width {num} _.
Arguments height {num} _.
End Rectangle.

Inductive TemperType : Type := WO | FC | DR | MA.

Module NumberEntity.
Record t (num : Type) : Type := mk {
  id : string;
  value : num;
  position : Point.t num;
  worldPosition : Point.t num;
  temper : TemperType;
  color : string;
  baseColor : string;
  scale : num;
  isPinned : bool;
  pinStrength : num;
  driftOffset : Point.t num;
  targetColor : string;
  isScary : bool;
  wellupIntensity : num }.
Arguments mk {num} _ _ _ _ _ _ _ _ _ _ _ _ _ _.
Arguments id {num} _.
Arguments value {num} _.
Arguments position {num} _.
Arguments worldPosition {num} _.
Arguments temper {num} _.
Arguments color {num} _.
Arguments baseColor {num} _.
Arguments scale {num} _.
Arguments isPinned {num} _.
Arguments pinStrength {num} _.
Arguments driftOffset {num} _.
Arguments targetColor {num} _.
Arguments isScary {num} _.
Arguments wellupIntensity {num} _.

(** [{ ...number, position: p, worldPosition: p }] *)
Definition movedTo {num} (p : Point.t num) (n : t num) : t num :=
  mk (id n) (value n) p p (temper n) (color n) (baseColor n) (scale n)
     (isPinned n) (pinStrength n) (driftOffset n) (targetColor n) (isScary n)
     (wellupIntensity n).
End NumberEntity.

Inductive CursorMode : Type := exploration | pinpoint.

Module CursorState.
Record t (num : Type) : Type := mk {
  position : Point.t num;
  worldPosition : Point.t num;
  mode : CursorMode;
  velocity : Vector2.t num;
  targetPosition : Point.t num;
  isMoving : bool;
  glowIntensity : num }.
Arguments mk {num} _ _ _ _ _ _ _.
Arguments position {num} _.
Arguments worldPosition {num} _.
Arguments mode {num} _.
Arguments velocity {num} _.
Arguments targetPosition {num} _.
Arguments isMoving {num} _.
Arguments glowIntensity {num} _.
End CursorState.

Module LassoState.
Record t (num : Type) : Type := mk {
  points : list (Point.t num);
  isActive : bool;
  isClosed : bool;
  capturedNumbers : list string;
  centerPoint : Point.t num }.
Arguments mk {num} _ _ _ _ _.
Arguments points {num} _.
Arguments isActive {num} _.
Arguments isClosed {num} _.
Arguments capturedNumbers {num} _.
Arguments centerPoint {num} _.
End LassoState.

(** [GameState.world]; [worldSize] and [gridSize] are never read by the
    modelled code and are left out. *)
Module World.
Record t (num : Type) : Type := mk {
  viewport : Rectangle.t num;
  scale : num;
  numbers : list (NumberEntity.t num) }.
Arguments mk {num} _ _ _.
Arguments viewport {num} _.
Arguments scale {num} _.
Arguments numbers {num} _.
End World.

(** The slices of [GameState] that the interaction core touches:
    [session.capturedNumbers], [world], [cursor] and [lasso]. *)
Module GameState.
Record t (num : Type) : Type := mk {
  capturedNumbers : list string;
  world : World.t num;
  cursor : CursorState.t num;
  lasso : LassoState.t num }.
Arguments mk {num} _ _ _ _.
Arguments capturedNumbers {num} _.
Arguments world {num} _.
Arguments cursor {num} _.
Arguments lasso {num} _.
End GameState.

(** * Constants ([src/utils/constants]) *)

Module GameConfig.
(** [GameConfig.world]  *)
Definition world_gridSize_cols : Q := 50.
Definition world_gridSize_rows : Q := 80.
Definition world_cellSize : Q := 24.
Definition world_cellSpacing : Q := 2.
(** [GameConfig.viewport] *)
Definition viewport_minZoom : Q := 5 # 10.
Definition viewport_maxZoom : Q := 2.
(** [GameConfig.session.targetNumbers] *)
Definition session_targetNumbers : Q := 100.
(** [GameConfig.lasso.segmentLength]: "Pixels between trail points"; a
    screen distance, so a real like the trail points themselves. *)
Definition lasso_segmentLength : R := 3.
End GameConfig.

Module LayoutConstants.
Definition gridMargin : Q := 16.
End LayoutConstants.

(** [FourTempers[temper].color], i.e. the [SeveranceColors] entries. *)
Definition FourTempers_color (temper : TemperType) : string :=
  match temper with
  | WO => "oklch(0.65 0.25 15)"
  | FC => "oklch(0.75 0.20 140)"
  | DR => "oklch(0.75 0.15 60)"
  | MA => "oklch(0.65 0.25 300)"
  end.

(** * The store ([src/stores/gameStore.ts]) *)

Module gameStore.

Section Actions.
Context {num : Type}.
Abbreviation State := (GameState.t num).

Definition with_world (w : World.t num) (s : State) : State :=
  GameState.mk (GameState.capturedNumbers s) w (GameState.cursor s) (GameState.lasso s).

Definition with_cursor (c : CursorState.t num) (s : State) : State :=
  GameState.mk (GameState.capturedNumbers s) (GameState.world s) c (GameState.lasso s).

Definition with_lasso (l : LassoState.t num) (s : State) : State :=
  GameState.mk (GameState.capturedNumbers s) (GameState.world s) (GameState.cursor s) l.

(** [initialGameState], given the literals [0], [1.0] and [0.4] of the carrier. *)
Definition initialGameState (zero one glow : num) : State :=
  let origin := Point.mk zero zero in
  GameState.mk []
    (World.mk (Rectangle.mk zero zero zero zero) one [])
    (CursorState.mk origin origin exploration origin origin false glow)
    (LassoState.mk [] false false [] origin).

Definition addCapturedNumber (numberId : string) (s : State) : State :=
  GameState.mk (GameState.capturedNumbers s ++ [numberId])
    (GameState.world s) (GameState.cursor s) (GameState.lasso s).

Definition updateViewport (viewport : Rectangle.t num) (s : State) : State :=
  let w := GameState.world s in
  with_world (World.mk viewport (World.scale w) (World.numbers w)) s.

Definition addNumber (number : NumberEntity.t num) (s : State) : State :=
  let w := GameState.world s in
  with_world (World.mk (World.viewport w) (World.scale w) (World.numbers w ++ [number])) s.

(** [updates] stands for the spread [{ ...number, ...updates }]. *)
Definition updateNumber (id : string) (updates : NumberEntity.t num -> NumberEntity.t num)
    (s : State) : State :=
  let w := GameState.world s in
  with_world
    (World.mk (World.viewport w) (World.scale w)
       (map (fun number => if String.eqb (NumberEntity.id number) id
                           then updates number else number)
            (World.numbers w))) s.

Definition removeNumber (id : string) (s : State) : State :=
  let w := GameState.world s in
  with_world
    (World.mk (World.viewport w) (World.scale w)
       (List.filter (fun number => negb (String.eqb (NumberEntity.id number) id))
              (World.numbers w))) s.

Definition setCursorMode (mode : CursorMode) (s : State) : State :=
  let c := GameState.cursor s in
  with_cursor
    (CursorState.mk (CursorState.position c) (CursorState.worldPosition c) mode
       (CursorState.velocity c) (CursorState.targetPosition c)
       (CursorState.isMoving c) (CursorState.glowIntensity c)) s.

Definition updateCursorVelocity (velocity : Vector2.t num) (s : State) : State :=
  let c := GameState.cursor s in
  with_cursor
    (CursorState.mk (CursorState.position c) (CursorState.worldPosition c)
       (CursorState.mode c) velocity (CursorState.targetPosition c)
       (CursorState.isMoving c) (CursorState.glowIntensity c)) s.

Definition addLassoPoint (point : Point.t num) (s : State) : State :=
  let l := GameState.lasso s in
  with_lasso
    (LassoState.mk (LassoState.points l ++ [point]) (LassoState.isActive l)
       (LassoState.isClosed l) (LassoState.capturedNumbers l)
       (LassoState.centerPoint l)) s.

Definition startLasso (center : Point.t num) (s : State) : State :=
  with_lasso (LassoState.mk [center] true false [] center) s.

Definition closeLasso (s : State) : State :=
  let l := GameState.lasso s in
  with_lasso
    (LassoState.mk (LassoState.points l) (LassoState.isActive l) true
       (LassoState.capturedNumbers l) (LassoState.centerPoint l)) s.

(** [zero] is the literal [0] of the carrier. *)
Definition resetLasso (zero : num) (s : State) : State :=
  with_lasso (LassoState.mk [] false false [] (Point.mk zero zero)) s.

Definition updateLassoCenter (center : Point.t num) (s : State) : State :=
  let l := GameState.lasso s in
  with_lasso
    (LassoState.mk (LassoState.points l) (LassoState.isActive l) (LassoState.isClosed l)
       (LassoState.capturedNumbers l) center) s.

(** [resetGame] is [set(initialGameState)]: every slice is replaced. *)
Definition resetGame (zero one glow : num) (s : State) : State :=
  initialGameState zero one glow.

Definition updateCursorGlow (intensity : num) (s : State) : State :=
  let c := GameState.cursor s in
  with_cursor
    (CursorState.mk (CursorState.position c) (CursorState.worldPosition c)
       (CursorState.mode c) (CursorState.velocity c) (CursorState.targetPosition c)
       (CursorState.isMoving c) intensity) s.

End Actions.

(** [updateCursorPosition] derives the world position from the viewport
    origin and the scale.  Only the components call it. *)
Definition updateCursorPosition (position : Point.t R) (s : GameState.t R) : GameState.t R :=
  let w := GameState.world s in
  let c := GameState.cursor s in
  let worldPosition :=
    Point.mk ((Point.x position - Rectangle.x (World.viewport w)) / World.scale w)%R
             ((Point.y position - Rectangle.y (World.viewport w)) / World.scale w)%R in
  with_cursor
    (CursorState.mk position worldPosition (CursorState.mode c)
       (CursorState.velocity c) (CursorState.targetPosition c) true
       (CursorState.glowIntensity c)) s.

(** The store's own visibility getter: a filter over [world.numbers]. *)
Definition getVisibleNumbers (s : GameState.t Q) : list (NumberEntity.t Q) :=
  let w := GameState.world s in
  let viewport := World.viewport w in
  let scale := World.scale w in
  List.filter
    (fun number =>
       let sx := (Point.x (NumberEntity.worldPosition number) * scale + Rectangle.x viewport)%Q in
       let sy := (Point.y (NumberEntity.worldPosition number) * scale + Rectangle.y viewport)%Q in
       Qle_bool (-50) sx && Qle_bool sx (Rectangle.width viewport + 50)
       && Qle_bool (-50) sy && Qle_bool sy (Rectangle.height viewport + 50))
    (World.numbers w).

(** [updateWorldScale] keeps the scale between the two zoom limits. *)
Definition updateWorldScale (scale : Q) (s : GameState.t Q) : GameState.t Q :=
  let w := GameState.world s in
  with_world
    (World.mk (World.viewport w)
       (Qmax GameConfig.viewport_minZoom (Qmin GameConfig.viewport_maxZoom scale))
       (World.numbers w)) s.

End gameStore.

(** * The session slice of the store *)

(** [GameState.session] with the fields the scoring actions touch ([id],
    [fileName], [startTime] and [targetTemper] are left out). *)
Module Session.
Record t : Type := mk {
  capturedNumbers : list string;
  progress : Q;
  score : Q;
  combo : Q }.
End Session.

(** The scoring actions of [gameStore.ts] on the session and on
    [ui.statusBar.progress], the two places they write. *)
Module sessionStore.
Local Open Scope Q_scope.

Record t : Type := mk {
  session : Session.t;
  statusBar_progress : Q }.

(** The session of [initialGameState]. *)
Definition initial : t := mk (Session.mk [] 0 0 0) 0.

Definition updateSessionProgress (progress : Q) (s : t) : t :=
  let ss := session s in
  mk (Session.mk (Session.capturedNumbers ss) progress (Session.score ss) (Session.combo ss))
     progress.

(** The quotient and the product are exact in [Q]; the source's doubles
    round both (7 captures give 7.000000000000001), so about [progress]
    only what rounding preserves is stated: the bounds, the cap and the
    order. *)
Definition addCapturedNumber (numberId : string) (s : t) : t :=
  let ss := session s in
  let capturedNumbers := Session.capturedNumbers ss ++ [numberId] in
  let progress :=
    Qmin 100
      (inject_Z (Z.of_nat (length capturedNumbers)) / GameConfig.session_targetNumbers * 100) in
  mk (Session.mk capturedNumbers progress (Session.score ss) (Session.combo ss)) progress.

(** [combo] is the optional second argument; [combo ? combo : ...] takes
    the state's combo when it is absent or [0]. *)
Definition updateScore (points : Q) (combo : option Q) (s : t) : t :=
  let ss := session s in
  let comboMultiplier :=
    match combo with
    | Some c => if Qeq_bool c 0 then Session.combo ss else c
    | None => Session.combo ss
    end in
  let finalPoints := points * comboMultiplier in
  mk (Session.mk (Session.capturedNumbers ss) (Session.progress ss)
        (Session.score ss + finalPoints) comboMultiplier)
     (statusBar_progress s).

End sessionStore.

(** * Loops over integer ranges *)

(** The values taken by [g] in [for (let g = lo; g <= hi; g++)]. *)
Definition upto (lo hi : Z) : list Z :=
  map (fun i => (lo + Z.of_nat i)%Z) (seq 0 (Z.to_nat (hi - lo + 1))).

(** The keys pushed by the nested loops
    [for gx in startX..endX { for gy in startY..endY { push `${gx},${gy}` } }].
    A key [`${gx},${gy}`] is kept as the pair [(gx, gy)]. *)
Definition cellKeys (startX endX startY endY : Z) : list (Z * Z) :=
  flat_map (fun gx => map (fun gy => (gx, gy)) (upto startY endY)) (upto startX endX).

(** [Array.prototype.findIndex]; [None] stands for [-1]. *)
Fixpoint findIndex {A : Type} (p : A -> bool) (l : list A) : option nat :=
  match l with
  | [] => None
  | a :: l' => if p a then Some 0%nat else option_map S (findIndex p l')
  end.

(** * [src/systems/WorldSystem.ts] *)

Module WorldSystem.
Local Open Scope Q_scope.

Record t : Type := mk {
  worldGridSize_cols : Q;
  worldGridSize_rows : Q;
  cellSize : Q;
  cellSpacing : Q;
  viewportMargin : Q;
  spatialGrid : gmap (Z * Z) (list (NumberEntity.t Q));
  spatialGridSize : Q }.

Definition with_spatialGrid (g : gmap (Z * Z) (list (NumberEntity.t Q))) (this : t) : t :=
  mk (worldGridSize_cols this) (worldGridSize_rows this) (cellSize this)
     (cellSpacing this) (viewportMargin this) g (spatialGridSize this).

Definition getWorldWidth (this : t) : Q :=
  worldGridSize_cols this * (cellSize this + cellSpacing this).

Definition getWorldHeight (this : t) : Q :=
  worldGridSize_rows this * (cellSize this + cellSpacing this).

Definition initializeSpatialGrid (this : t) : t :=
  let cols := Qceiling (getWorldWidth this / spatialGridSize this) in
  let rows := Qceiling (getWorldHeight this / spatialGridSize this) in
  with_spatialGrid
    (fold_left (fun grid key => <[key := []]> grid)
       (cellKeys 0 (cols - 1) 0 (rows - 1)) (spatialGrid this))
    this.

(** The field initialisers followed by the constructor body. *)
Definition new : t :=
  initializeSpatialGrid
    (mk GameConfig.world_gridSize_cols GameConfig.world_gridSize_rows
        GameConfig.world_cellSize GameConfig.world_cellSpacing
        LayoutConstants.gridMargin ∅ 100).

(** The division is exact in [Q]; the source's doubles round it, so
    [worldToScreen] undoes [screenToWorld] only up to rounding there. *)
Definition screenToWorld (st : GameState.t Q) (screenPos : Point.t Q) : Point.t Q :=
  let viewport := World.viewport (GameState.world st) in
  let scale := World.scale (GameState.world st) in
  Point.mk ((Point.x screenPos - Rectangle.x viewport) / scale)
           ((Point.y screenPos - Rectangle.y viewport) / scale).

Definition worldToScreen (st : GameState.t Q) (worldPos : Point.t Q) : Point.t Q :=
  let viewport := World.viewport (GameState.world st) in
  let scale := World.scale (GameState.world st) in
  Point.mk (Point.x worldPos * scale + Rectangle.x viewport)
           (Point.y worldPos * scale + Rectangle.y viewport).

Definition constrainToWorldBounds (this : t) (viewport : Rectangle.t Q) : Rectangle.t Q :=
  let worldWidth := getWorldWidth this in
  let worldHeight := getWorldHeight this in
  Rectangle.mk
    (Qmax (- viewportMargin this)
          (Qmin (worldWidth - Rectangle.width viewport + viewportMargin this)
                (Rectangle.x viewport)))
    (Qmax (- viewportMargin this)
          (Qmin (worldHeight - Rectangle.height viewport + viewportMargin this)
                (Rectangle.y viewport)))
    (Rectangle.width viewport)
    (Rectangle.height viewport).

Definition updateViewportCenter (this : t) (center : Point.t Q) (st : GameState.t Q)
    : GameState.t Q :=
  let viewport := World.viewport (GameState.world st) in
  let scale := World.scale (GameState.world st) in
  let viewportWidth := Rectangle.width viewport / scale in
  let viewportHeight := Rectangle.height viewport / scale in
  let newViewport :=
    Rectangle.mk (Point.x center - viewportWidth / 2) (Point.y center - viewportHeight / 2)
                 (Rectangle.width viewport) (Rectangle.height viewport) in
  gameStore.updateViewport (constrainToWorldBounds this newViewport) st.

Definition panViewport (this : t) (deltaX deltaY : Q) (st : GameState.t Q) : GameState.t Q :=
  let viewport := World.viewport (GameState.world st) in
  let newViewport :=
    Rectangle.mk (Rectangle.x viewport + deltaX) (Rectangle.y viewport + deltaY)
                 (Rectangle.width viewport) (Rectangle.height viewport) in
  let boundedViewport := constrainToWorldBounds this newViewport in
  gameStore.updateViewport boundedViewport st.

(** The result [{ col, row }] is kept as the pair [(col, row)]. *)
Definition getGridCellAt (this : t) (worldPos : Point.t Q) : Z * Z :=
  let col := Qfloor (Point.x worldPos / (cellSize this + cellSpacing this)) in
  let row := Qfloor (Point.y worldPos / (cellSize this + cellSpacing this)) in
  (col, row).

Definition getGridCellCenter (this : t) (col row : Q) : Point.t Q :=
  Point.mk (col * (cellSize this + cellSpacing this) + cellSize this / 2)
           (row * (cellSize this + cellSpacing this) + cellSize this / 2).

Definition getSpatialCellsForNumber (this : t) (number : NumberEntity.t Q) : list (Z * Z) :=
  let x := Point.x (NumberEntity.worldPosition number) in
  let y := Point.y (NumberEntity.worldPosition number) in
  let size := spatialGridSize this in
  let startX := Qfloor (x / size) in
  let startY := Qfloor (y / size) in
  let endX := Qfloor ((x + cellSize this) / size) in
  let endY := Qfloor ((y + cellSize this) / size) in
  cellKeys startX endX startY endY.

(** [cell.splice(index, 1)] on the array stored under [cellKey]. *)
Definition removeFromSpatialGrid (this : t) (number : NumberEntity.t Q) : t :=
  with_spatialGrid
    (fold_left
       (fun grid cellKey =>
          match grid !! cellKey with
          | Some cell =>
              match findIndex (fun n => String.eqb (NumberEntity.id n) (NumberEntity.id number)) cell with
              | Some index => <[cellKey := delete index cell]> grid
              | None => grid
              end
          | None => grid
          end)
       (getSpatialCellsForNumber this number) (spatialGrid this))
    this.

(** [cell.push(number)] on every cell of the footprint that exists. *)
Definition updateSpatialGrid (this : t) (number : NumberEntity.t Q) : t :=
  let this1 := removeFromSpatialGrid this number in
  with_spatialGrid
    (fold_left
       (fun grid cellKey =>
          match grid !! cellKey with
          | Some cell => <[cellKey := cell ++ [number]]> grid
          | None => grid
          end)
       (getSpatialCellsForNumber this1 number) (spatialGrid this1))
    this1.

Definition addNumber (this : t) (number : NumberEntity.t Q) (st : GameState.t Q)
    : t * GameState.t Q :=
  let st1 := gameStore.addNumber number st in
  (updateSpatialGrid this number, st1).

(** The grid is re-bucketed with the object that was passed in. *)
Definition updateNumberPosition (this : t) (number : NumberEntity.t Q) (newPosition : Point.t Q)
    (st : GameState.t Q) : t * GameState.t Q :=
  let st1 := gameStore.updateNumber (NumberEntity.id number)
               (NumberEntity.movedTo newPosition) st in
  (updateSpatialGrid this number, st1).

Definition removeNumber (this : t) (numberId : string) (st : GameState.t Q)
    : t * GameState.t Q :=
  match List.find (fun n => String.eqb (NumberEntity.id n) numberId)
                  (World.numbers (GameState.world st)) with
  | Some number => (removeFromSpatialGrid this number, gameStore.removeNumber numberId st)
  | None => (this, st)
  end.

Definition getSpatialCellsInViewport (this : t) (viewport : Rectangle.t Q) : list (Z * Z) :=
  let size := spatialGridSize this in
  let startX := Qfloor (Rectangle.x viewport / size) in
  let startY := Qfloor (Rectangle.y viewport / size) in
  let endX := Qfloor ((Rectangle.x viewport + Rectangle.width viewport) / size) in
  let endY := Qfloor ((Rectangle.y viewport + Rectangle.height viewport) / size) in
  cellKeys startX endX startY endY.

Definition isPointInViewport (point : Point.t Q) (viewport : Rectangle.t Q) : bool :=
  Qle_bool (Rectangle.x viewport) (Point.x point)
  && Qle_bool (Point.x point) (Rectangle.x viewport + Rectangle.width viewport)
  && Qle_bool (Rectangle.y viewport) (Point.y point)
  && Qle_bool (Point.y point) (Rectangle.y viewport + Rectangle.height viewport).

Definition getVisibleNumbers (this : t) (st : GameState.t Q) : list (NumberEntity.t Q) :=
  let viewport := World.viewport (GameState.world st) in
  let expandedViewport :=
    Rectangle.mk (Rectangle.x viewport - 100) (Rectangle.y viewport - 100)
                 (Rectangle.width viewport + 200) (Rectangle.height viewport + 200) in
  let spatialCells := getSpatialCellsInViewport this expandedViewport in
  fold_left
    (fun visibleNumbers cellKey =>
       match spatialGrid this !! cellKey with
       | Some cell =>
           fold_left
             (fun visible number =>
                let screenPos := worldToScreen st (NumberEntity.worldPosition number) in
                if isPointInViewport screenPos expandedViewport
                then visible ++ [number] else visible)
             cell visibleNumbers
       | None => visibleNumbers
       end)
    spatialCells [].

(** [createNumberAtGridCell]; the results of [Math.random] and [Date.now]
    (the drawn temper and value, the scary flag, the id) are arguments. *)
Definition createNumberAtGridCell (this : t) (col row : Q)
    (id : string) (temper : TemperType) (value : Q) (scary : bool) : NumberEntity.t Q :=
  let center := getGridCellCenter this col row in
  NumberEntity.mk id value center center temper
    (FourTempers_color temper) (FourTempers_color temper) 1 false 0
    (Point.mk 0 0) (FourTempers_color temper)
    (match temper with WO => scary | _ => false end) 0.

(** The clamp invariant of the specification, for a viewport rectangle. *)
Definition withinMargin (this : t) (v : Rectangle.t Q) : Prop :=
  - viewportMargin this <= Rectangle.x v
  /\ Rectangle.x v + Rectangle.width v <= getWorldWidth this + viewportMargin this
  /\ - viewportMargin this <= Rectangle.y v
  /\ Rectangle.y v + Rectangle.height v <= getWorldHeight this + viewportMargin this.

End WorldSystem.

(** What [removeFromSpatialGrid] does to one bucket: the first entity with
    the given id is spliced out. *)
Definition dropId (id : string) (cell : list (NumberEntity.t Q)) : list (NumberEntity.t Q) :=
  match findIndex (fun n => String.eqb (NumberEntity.id n) id) cell with
  | Some index => delete index cell
  | None => cell
  end.

(** * Tuning store configuration ([src/stores/tuningStore]) *)

Module TuningConfig.

Inductive JitterIntensity : Type := subtle | moderate | dramatic | extreme.

Module Jitter.
Record t : Type := mk {
  intensity : JitterIntensity;
  enableJitter : bool;
  staticPercentage : R;
  moderatePercentage : R;
  strongPercentage : R;
  extremePercentage : R }.
End Jitter.

Module Cursor.
Record t : Type := mk {
  sensitivity : R;
  momentum : R;
  friction : R;
  velocityThreshold : R }.
End Cursor.

Module Grid.
Record t : Type := mk {
  cellSize : R;
  cellHeight : R;
  digitColor : string;
  backgroundColor : string }.
End Grid.

(** The sections [performance], [fisheye] and [feedback] are not read by
    the modelled code. *)
Record t : Type := mk {
  jitter : Jitter.t;
  cursor : Cursor.t;
  grid : Grid.t }.

Definition defaultConfig : t :=
  mk (Jitter.mk dramatic true 5 50 30 15)
     (Cursor.mk 8.0 0.15 0.88 800)
     (Grid.mk 42 42 "#00FFCC" "#0D1216").

End TuningConfig.

(** * JavaScript operators on idealised numbers *)

Definition Rltb (a b : R) : bool := if Rlt_dec a b then true else false.

(** [a > b] *)
Definition Rgtb (a b : R) : bool := Rltb b a.

(** [a !== b] *)
Definition Rneqb (a b : R) : bool := if Req_dec_T a b then false else true.

(** [ToInt32]: the operands of a bitwise operator wrap to signed 32 bits. *)
Definition ToInt32 (z : Z) : Z := ((z + 2147483648) mod 4294967296 - 2147483648)%Z.

(** [a ^ b] on integer-valued numbers. *)
Definition bitxor (a b : Z) : Z := Z.lxor (ToInt32 a) (ToInt32 b).

(** [a % b] on numbers: the remainder takes the sign of the dividend. *)
Definition jsRem (a b : R) : R :=
  let q := (a / b)%R in
  (a - b * IZR (if Rle_dec 0 q then Zfloor q else Zceil q))%R.

(** * [src/components/MDRTerminalGrid.tsx] *)

Module MDRTerminalGrid.
Local Open Scope R_scope.

(** The fields of PanResponder's [gestureState] that the handlers read. *)
Module Gesture.
Record t : Type := mk {
  moveX : R; moveY : R;
  x0 : R; y0 : R;
  dx : R; dy : R;
  vx : R; vy : R }.
End Gesture.

(** The component: the two stores it subscribes to, the window size, its
    [useState] cells, its refs, and the timers it has running.
    An interval is kept with the [cursor.position] its [applyMomentum]
    closure captured when the release handler created it. *)
Record t : Type := mk {
  store : GameState.t R;
  config : TuningConfig.t;
  screenWidth : R;
  screenHeight : R;
  globalTime : R;
  worldScale : R;
  isLassoMode : bool;
  lassoPoints : list (Point.t R);
  cursorVelocity : Vector2.t R;
  lastPanTime : Z;
  velocityTracker : Vector2.t R;
  momentumAnimationRef : option nat;
  intervals : list (nat * Point.t R);
  timeouts : list Z;
  nextHandle : nat;
  modeSwitchFeedback : nat }.

Definition with_store (v : GameState.t R) (s : t) : t :=
  mk v (config s) (screenWidth s) (screenHeight s) (globalTime s) (worldScale s)
     (isLassoMode s) (lassoPoints s) (cursorVelocity s) (lastPanTime s)
     (velocityTracker s) (momentumAnimationRef s) (intervals s) (timeouts s)
     (nextHandle s) (modeSwitchFeedback s).

Definition setWorldScale (v : R) (s : t) : t :=
  mk (store s) (config s) (screenWidth s) (screenHeight s) (globalTime s) v
     (isLassoMode s) (lassoPoints s) (cursorVelocity s) (lastPanTime s)
     (velocityTracker s) (momentumAnimationRef s) (intervals s) (timeouts s)
     (nextHandle s) (modeSwitchFeedback s).

Definition setIsLassoMode (v : bool) (s : t) : t :=
  mk (store s) (config s) (screenWidth s) (screenHeight s) (globalTime s) (worldScale s)
     v (lassoPoints s) (cursorVelocity s) (lastPanTime s)
     (velocityTracker s) (momentumAnimationRef s) (intervals s) (timeouts s)
     (nextHandle s) (modeSwitchFeedback s).

Definition setLassoPoints (v : list (Point.t R)) (s : t) : t :=
  mk (store s) (config s) (screenWidth s) (screenHeight s) (globalTime s) (worldScale s)
     (isLassoMode s) v (cursorVelocity s) (lastPanTime s)
     (velocityTracker s) (momentumAnimationRef s) (intervals s) (timeouts s)
     (nextHandle s) (modeSwitchFeedback s).

Definition setCursorVelocity (v : Vector2.t R) (s : t) : t :=
  mk (store s) (config s) (screenWidth s) (screenHeight s) (globalTime s) (worldScale s)
     (isLassoMode s) (lassoPoints s) v (lastPanTime s)
     (velocityTracker s) (momentumAnimationRef s) (intervals s) (timeouts s)
     (nextHandle s) (modeSwitchFeedback s).

Definition with_lastPanTime (v : Z) (s : t) : t :=
  mk (store s) (config s) (screenWidth s) (screenHeight s) (globalTime s) (worldScale s)
     (isLassoMode s) (lassoPoints s) (cursorVelocity s) v
     (velocityTracker s) (momentumAnimationRef s) (intervals s) (timeouts s)
     (nextHandle s) (modeSwitchFeedback s).

Definition with_velocityTracker (v : Vector2.t R) (s : t) : t :=
  mk (store s) (config s) (screenWidth s) (screenHeight s) (globalTime s) (worldScale s)
     (isLassoMode s) (lassoPoints s) (cursorVelocity s) (lastPanTime s)
     v (momentumAnimationRef s) (intervals s) (timeouts s)
     (nextHandle s) (modeSwitchFeedback s).

(** [setTimeout(() => setWorldScale(1.0), delay)] called at time [now]. *)
Definition setTimeout_resetScale (now delay : Z) (s : t) : t :=
  mk (store s) (config s) (screenWidth s) (screenHeight s) (globalTime s) (worldScale s)
     (isLassoMode s) (lassoPoints s) (cursorVelocity s) (lastPanTime s)
     (velocityTracker s) (momentumAnimationRef s) (intervals s)
     (timeouts s ++ [(now + delay)%Z])
     (nextHandle s) (modeSwitchFeedback s).

(** The event loop reaching time [now]: each due callback runs
    [setWorldScale(1.0)] and leaves the queue. *)
Definition runTimeouts (now : Z) (s : t) : t :=
  mk (store s) (config s) (screenWidth s) (screenHeight s) (globalTime s)
     (if existsb (fun due => (due <=? now)%Z) (timeouts s) then 1.0 else worldScale s)
     (isLassoMode s) (lassoPoints s) (cursorVelocity s) (lastPanTime s)
     (velocityTracker s) (momentumAnimationRef s) (intervals s)
     (List.filter (fun due => negb (due <=? now)%Z) (timeouts s))
     (nextHandle s) (modeSwitchFeedback s).

(** [momentumAnimationRef.current = setInterval(applyMomentum, 6)], where
    [applyMomentum] closes over the cursor position [captured]. *)
Definition setInterval_applyMomentum (captured : Point.t R) (s : t) : t :=
  mk (store s) (config s) (screenWidth s) (screenHeight s) (globalTime s) (worldScale s)
     (isLassoMode s) (lassoPoints s) (cursorVelocity s) (lastPanTime s)
     (velocityTracker s) (Some (nextHandle s))
     (intervals s ++ [(nextHandle s, captured)]) (timeouts s)
     (S (nextHandle s)) (modeSwitchFeedback s).

(** [if (ref.current) { clearInterval(ref.current); ref.current = null }] *)
Definition clearMomentumInterval (s : t) : t :=
  match momentumAnimationRef s with
  | Some handle =>
      mk (store s) (config s) (screenWidth s) (screenHeight s) (globalTime s) (worldScale s)
         (isLassoMode s) (lassoPoints s) (cursorVelocity s) (lastPanTime s)
         (velocityTracker s) None
         (List.filter (fun i => negb (Nat.eqb (fst i) handle)) (intervals s)) (timeouts s)
         (nextHandle s) (modeSwitchFeedback s)
  | None => s
  end.

(** One frame of the animation loop, [frameTime] ms after the previous one:
    [setGlobalTime(prev => prev + frameTime * 0.001)]. *)
Definition animate (frameTime : R) (s : t) : t :=
  mk (store s) (config s) (screenWidth s) (screenHeight s)
     (globalTime s + frameTime * 0.001) (worldScale s)
     (isLassoMode s) (lassoPoints s) (cursorVelocity s) (lastPanTime s)
     (velocityTracker s) (momentumAnimationRef s) (intervals s) (timeouts s)
     (nextHandle s) (modeSwitchFeedback s).

(** [feedbackSystem.current.triggerModeSwitch()], counted. *)
Definition triggerModeSwitch (s : t) : t :=
  mk (store s) (config s) (screenWidth s) (screenHeight s) (globalTime s) (worldScale s)
     (isLassoMode s) (lassoPoints s) (cursorVelocity s) (lastPanTime s)
     (velocityTracker s) (momentumAnimationRef s) (intervals s) (timeouts s)
     (nextHandle s) (S (modeSwitchFeedback s)).

Definition updateCursorPosition (p : Point.t R) (s : t) : t :=
  with_store (gameStore.updateCursorPosition p (store s)) s.

Definition setCursorMode (mode : CursorMode) (s : t) : t :=
  with_store (gameStore.setCursorMode mode (store s)) s.

Definition updateCursorVelocity (v : Vector2.t R) (s : t) : t :=
  with_store (gameStore.updateCursorVelocity v (store s)) s.

(** [cursor.position] as the handlers read it. *)
Definition cursorPosition (s : t) : Point.t R :=
  CursorState.position (GameState.cursor (store s)).

(** The mount effect that centres the cursor. *)
Definition initializeCursor (s : t) : t :=
  updateCursorPosition (Point.mk (screenWidth s / 2) ((screenHeight s - 120) / 2)) s.

Definition onPanResponderGrant (now : Z) (s : t) : t :=
  with_lastPanTime now s.

(** The first block of [onPanResponderMove]: "Track velocity for zoom effect". *)
Definition trackVelocity (now deltaTime : Z) (g : Gesture.t) (s : t) : t :=
  if (0 <? deltaTime)%Z then
    let speed := sqrt (Gesture.vx g * Gesture.vx g + Gesture.vy g * Gesture.vy g) in
    let s1 := with_velocityTracker (Point.mk (Gesture.vx g) (Gesture.vy g)) s in
    if Rgtb speed 800 then
      let zoomFactor := Rmax 0.92 (1 - (speed - 800) / 5000) in
      setTimeout_resetScale now 200 (setWorldScale zoomFactor s1)
    else s1
  else s.

(** The [isLassoMode] branch of [onPanResponderMove]: joystick steering. *)
Definition steerLasso (g : Gesture.t) (s : t) : t :=
  let joystickCenterX := Gesture.x0 g in
  let joystickCenterY := Gesture.y0 g in
  let offsetX := Gesture.moveX g - joystickCenterX in
  let offsetY := Gesture.moveY g - joystickCenterY in
  let distance := sqrt (offsetX * offsetX + offsetY * offsetY) in
  let maxRadius := 60 in
  let deadZone := 8 in
  let normalizedDistance := Rmin (distance / maxRadius) 1 in
  let speed := normalizedDistance * normalizedDistance * 3 in
  if Rgtb distance deadZone then
    let directionX := offsetX / distance in
    let directionY := offsetY / distance in
    let newCursorX :=
      Rmax 10 (Rmin (screenWidth s - 10) (Point.x (cursorPosition s) + directionX * speed)) in
    let newCursorY :=
      Rmax 10 (Rmin (screenHeight s - 130) (Point.y (cursorPosition s) + directionY * speed)) in
    let s1 := updateCursorPosition (Point.mk newCursorX newCursorY) s in
    setLassoPoints (lassoPoints s1 ++ [Point.mk newCursorX newCursorY]) s1
  else s.

(** The other branch of [onPanResponderMove]: exploration. *)
Definition moveExploration (currentTime : Z) (g : Gesture.t) (s : t) : t :=
  let baseSensitivity := TuningConfig.Cursor.sensitivity (TuningConfig.cursor (config s)) in
  let gestureSpeed := sqrt (Gesture.vx g * Gesture.vx g + Gesture.vy g * Gesture.vy g) in
  let velocityBoost := Rmin (gestureSpeed / 500) 3 in
  let dynamicSensitivity := baseSensitivity * (1 + velocityBoost * 0.8) in
  let directMultiplier := 0.2 + velocityBoost * 0.15 in
  let deltaX := Gesture.dx g * dynamicSensitivity * directMultiplier in
  let deltaY := Gesture.dy g * dynamicSensitivity * directMultiplier in
  let newCursorX :=
    Rmax 20 (Rmin (screenWidth s - 20) (Point.x (cursorPosition s) + deltaX)) in
  let newCursorY :=
    Rmax 20 (Rmin (screenHeight s - 130) (Point.y (cursorPosition s) + deltaY)) in
  let s1 := updateCursorPosition (Point.mk newCursorX newCursorY) s in
  let momentumMultiplier :=
    TuningConfig.Cursor.momentum (TuningConfig.cursor (config s)) * (1 + velocityBoost * 1.5) in
  let newVelX := Gesture.vx g * momentumMultiplier in
  let newVelY := Gesture.vy g * momentumMultiplier in
  let s2 := updateCursorVelocity (Point.mk newVelX newVelY)
              (setCursorVelocity (Point.mk newVelX newVelY) s1) in
  if (300 <? currentTime - lastPanTime s2)%Z then triggerModeSwitch s2 else s2.

(** [now] and [currentTime] are the two readings of [Date.now()]. *)
Definition onPanResponderMove (now currentTime : Z) (g : Gesture.t) (s : t) : t :=
  let deltaTime := (now - lastPanTime s)%Z in
  let s1 := with_lastPanTime now s in
  let s2 := trackVelocity now deltaTime g s1 in
  if isLassoMode s2 then steerLasso g s2 else moveExploration currentTime g s2.

(** One call of the interval callback [applyMomentum]; [captured] is the
    [cursor.position] its closure holds. *)
Definition applyMomentum (captured : Point.t R) (s : t) : t :=
  let prev := cursorVelocity s in
  let currentSpeed := sqrt (Point.x prev * Point.x prev + Point.y prev * Point.y prev) in
  let friction :=
    if Rgtb currentSpeed 300 then 0.985
    else if Rgtb currentSpeed 150 then 0.975
    else if Rgtb currentSpeed 75 then 0.965
    else 0.93 in
  let newVelX := Point.x prev * friction in
  let newVelY := Point.y prev * friction in
  if Rltb (Rabs newVelX) 0.02 && Rltb (Rabs newVelY) 0.02 then
    let s1 := clearMomentumInterval s in
    let s2 := updateCursorVelocity (Point.mk 0 0) s1 in
    setCursorVelocity (Point.mk 0 0) s2
  else
    let newCursorX := Rmax 20 (Rmin (screenWidth s - 20) (Point.x captured + newVelX)) in
    let newCursorY := Rmax 20 (Rmin (screenHeight s - 130) (Point.y captured + newVelY)) in
    let s1 := updateCursorPosition (Point.mk newCursorX newCursorY) s in
    let s2 := updateCursorVelocity (Point.mk newVelX newVelY) s1 in
    setCursorVelocity (Point.mk newVelX newVelY) s2.

(** The timer of interval [handle] firing once. *)
Definition intervalTick (handle : nat) (s : t) : t :=
  match List.find (fun i => Nat.eqb (fst i) handle) (intervals s) with
  | Some i => applyMomentum (snd i) s
  | None => s
  end.

Definition onPanResponderRelease (g : Gesture.t) (s : t) : t :=
  if isLassoMode s then
    (* Process lasso capture *)
    let s1 := setIsLassoMode false s in
    let s2 := setCursorMode exploration s1 in
    setLassoPoints [] s2
    (* TODO: Validate capture *)
  else
    let releaseVelX := Gesture.vx g in
    let releaseVelY := Gesture.vy g in
    let releaseSpeed := sqrt (releaseVelX * releaseVelX + releaseVelY * releaseVelY) in
    let trackballMultiplier := TuningConfig.Cursor.momentum (TuningConfig.cursor (config s)) in
    let trackballMultiplier :=
      if Rgtb releaseSpeed 1000 then trackballMultiplier * 4.0
      else if Rgtb releaseSpeed 500 then trackballMultiplier * 2.5
      else if Rgtb releaseSpeed 200 then trackballMultiplier * 1.8
      else trackballMultiplier in
    let initialVelX := releaseVelX * trackballMultiplier in
    let initialVelY := releaseVelY * trackballMultiplier in
    let s1 := setCursorVelocity (Point.mk initialVelX initialVelY) s in
    let s2 := updateCursorVelocity (Point.mk initialVelX initialVelY) s1 in
    setInterval_applyMomentum (cursorPosition s) s2.

(** The effect "Edge drag prevention".  It runs after a render whose
    [cursor.position] differs from that of the previous render, and it
    reads that render's value: [rendered] is the [cursor.position] the
    effect's closure holds, which is not the store's position when the
    store was written between the render and the effect. *)
Definition edgeDragPrevention (rendered : Point.t R) (s : t) : t :=
  let x := Rmax 20 (Rmin (screenWidth s - 20) (Point.x rendered)) in
  let y := Rmax 20 (Rmin (screenHeight s - 130) (Point.y rendered)) in
  if Rneqb x (Point.x rendered) || Rneqb y (Point.y rendered)
  then updateCursorPosition (Point.mk x y) s
  else s.

(** ** The jittery grid *)

Module Cell.
Record t : Type := mk {
  digit : Z;
  baseX : R;
  baseY : R;
  jitterType : Z;
  jitterPhase : R }.
End Cell.

Module JitterOffset.
Record t : Type := mk { x : R; y : R; opacity : R }.
End JitterOffset.

Definition CELL_SIZE (s : t) : R := TuningConfig.Grid.cellSize (TuningConfig.grid (config s)).
Definition CELL_HEIGHT (s : t) : R := TuningConfig.Grid.cellHeight (TuningConfig.grid (config s)).
Definition cols (s : t) : Z := Zfloor (screenWidth s / CELL_SIZE s).
Definition rows (s : t) : Z := Zfloor ((screenHeight s - 120) / CELL_HEIGHT s).

Definition JITTER_PRESETS_multiplier (intensity : TuningConfig.JitterIntensity) : R :=
  match intensity with
  | TuningConfig.subtle => 0.55
  | TuningConfig.moderate => 0.63
  | TuningConfig.dramatic => 0.75
  | TuningConfig.extreme => 1
  end.

(** The body of the inner loop of [generateJitteryGrid]. *)
Definition makeCell (s : t) (row col : Z) : Cell.t :=
  let worldX := col in
  let worldY := row in
  let digitSeed := bitxor (worldX * 73856093) (worldY * 19349663) in
  let digit := Z.rem (Z.abs digitSeed) 10 in
  let baseX := IZR col * CELL_SIZE s + CELL_SIZE s / 2 in
  let baseY := IZR row * CELL_HEIGHT s + CELL_HEIGHT s / 2 in
  let jitterSeed := bitxor (worldX * 12345) (worldY * 67890) in
  let jitterType := Z.rem (Z.abs jitterSeed) 100 in
  let jitterPhase := jsRem (IZR (Z.abs jitterSeed) * 0.01) (PI * 2) in
  Cell.mk digit baseX baseY jitterType jitterPhase.

Definition generateJitteryGrid (s : t) : list (list Cell.t) :=
  map (fun row => map (fun col => makeCell s row col) (upto 0 (cols s - 1)))
      (upto 0 (rows s - 1)).

Definition getJitterOffset (s : t) (jitterType : Z) (jitterPhase : R) : JitterOffset.t :=
  let jitter := TuningConfig.jitter (config s) in
  if negb (TuningConfig.Jitter.enableJitter jitter) then JitterOffset.mk 0 0 1
  else
    let time := globalTime s * 0.1 in
    let intensityMultiplier := JITTER_PRESETS_multiplier (TuningConfig.Jitter.intensity jitter) in
    let staticThreshold := TuningConfig.Jitter.staticPercentage jitter in
    let extremeThreshold := staticThreshold + TuningConfig.Jitter.extremePercentage jitter in
    let strongThreshold := extremeThreshold + TuningConfig.Jitter.strongPercentage jitter in
    if Rltb (IZR jitterType) staticThreshold then JitterOffset.mk 0 0 1
    else if Rltb (IZR jitterType) extremeThreshold then
      let x := sin (time * 4 + jitterPhase) * (15 * intensityMultiplier) in
      let y := cos (time * 3.5 + jitterPhase) * (12 * intensityMultiplier) in
      JitterOffset.mk x y 1
    else if Rltb (IZR jitterType) strongThreshold then
      let direction := Z.rem jitterType 3 in
      if (direction =? 0)%Z then
        let x := sin (time * 2.5 + jitterPhase) * (8 * intensityMultiplier) in
        JitterOffset.mk x 0 1
      else if (direction =? 1)%Z then
        let y := sin (time * 2.2 + jitterPhase) * (6 * intensityMultiplier) in
        JitterOffset.mk 0 y 1
      else
        let x := sin (time * 2 + jitterPhase) * (5 * intensityMultiplier) in
        let y := cos (time * 1.8 + jitterPhase) * (4 * intensityMultiplier) in
        JitterOffset.mk x y 1
    else
      let x := sin (time * 1.5 + jitterPhase) * (3 * intensityMultiplier) in
      let y := cos (time * 1.2 + jitterPhase) * (2.5 * intensityMultiplier) in
      JitterOffset.mk x y 1.

(** What the render loop draws for the cell at [(row, col)]: its digit
    and the offset [getJitterOffset(cell.jitterType, cell.jitterPhase)]. *)
Definition renderedDigit (s : t) (row col : Z) : Z := Cell.digit (makeCell s row col).

Definition renderedJitter (s : t) (row col : Z) : JitterOffset.t :=
  getJitterOffset s (Cell.jitterType (makeCell s row col)) (Cell.jitterPhase (makeCell s row col)).

(** ** Fisheye magnification and the rendered glyph *)

Module FisheyeTransform.
Record t : Type := mk { scale : R; nudgeX : R; nudgeY : R }.
End FisheyeTransform.

Definition getFisheyeTransform (cellX cellY cursorX cursorY : R) : FisheyeTransform.t :=
  let dx := cellX - cursorX in
  let dy := cellY - cursorY in
  let distance := sqrt (dx * dx + dy * dy) in
  let radius := 80 in
  if Rgtb distance radius then FisheyeTransform.mk 1 0 0
  else
    let falloff := 1 - distance / radius in
    let scale := 1 + falloff * 0.2 in
    let nudge := falloff * 3 in
    let nudgeX := if Rgtb distance 0 then dx / distance * nudge else 0 in
    let nudgeY := if Rgtb distance 0 then dy / distance * nudge else 0 in
    FisheyeTransform.mk scale nudgeX nudgeY.

(** The numeric entries of the style of the [<Text>] drawn for a cell. *)
Module TextStyle.
Record t : Type := mk {
  left : R; top : R; fontSize : R; width : R; height : R; opacity : R }.
End TextStyle.

(** The body of the render loop over [jitteryGrid] for one cell. *)
Definition cellStyle (s : t) (cell : Cell.t) : TextStyle.t :=
  let fisheyeTransform :=
    getFisheyeTransform (Cell.baseX cell) (Cell.baseY cell)
      (Point.x (cursorPosition s)) (Point.y (cursorPosition s)) in
  let jitterOffset := getJitterOffset s (Cell.jitterType cell) (Cell.jitterPhase cell) in
  TextStyle.mk
    (Cell.baseX cell - 8 * FisheyeTransform.scale fisheyeTransform
     + FisheyeTransform.nudgeX fisheyeTransform + JitterOffset.x jitterOffset)
    (Cell.baseY cell - 10 * FisheyeTransform.scale fisheyeTransform
     + FisheyeTransform.nudgeY fisheyeTransform + JitterOffset.y jitterOffset)
    (16 * FisheyeTransform.scale fisheyeTransform)
    (16 * FisheyeTransform.scale fisheyeTransform)
    (20 * FisheyeTransform.scale fisheyeTransform)
    (JitterOffset.opacity jitterOffset).

(** The component as first rendered on a [screenWidth] x [screenHeight]
    window over the store [st]. *)
Definition mount (st : GameState.t R) (config : TuningConfig.t) (screenWidth screenHeight : R)
    (now : Z) : t :=
  mk st config screenWidth screenHeight 0 1.0 false [] (Point.mk 0 0) now (Point.mk 0 0)
     None [] [] 1%nat 0%nat.

(** ** The component driven by its environment *)

(** What can happen to the mounted component: the three responder
    callbacks, the firing of a momentum interval, a frame of the animation
    loop, the event loop reaching a time at which [setTimeout] callbacks
    are due, and the edge-drag effect with the cursor position of the
    render that scheduled it.  The root view of this component is the only
    view of the application that receives [panHandlers]: [MDRInterface]
    creates a responder of its own but never spreads its handlers on a
    view, so every touch is handled here.  The rehydration of the
    persisted store, a single asynchronous write of the persist middleware
    that stores the cursor position (0, 0), is not among these events. *)
Inductive Action : Type :=
| Grant (now : Z)
| Move (now currentTime : Z) (g : Gesture.t)
| Release (g : Gesture.t)
| Tick (handle : nat)
| Frame (frameTime : R)
| Timeouts (now : Z)
| EdgeEffect (rendered : Point.t R).

Definition perform (s : t) (a : Action) : t :=
  match a with
  | Grant now => onPanResponderGrant now s
  | Move now currentTime g => onPanResponderMove now currentTime g s
  | Release g => onPanResponderRelease g s
  | Tick handle => intervalTick handle s
  | Frame frameTime => animate frameTime s
  | Timeouts now => runTimeouts now s
  | EdgeEffect rendered => edgeDragPrevention rendered s
  end.

Definition performAll (actions : list Action) (s : t) : t := fold_left perform actions s.

(** ** The mount of the application *)

(** The effect of [App]: [useGameStore.getState().resetGame()]. *)
Definition resetGame (s : t) : t :=
  with_store (gameStore.resetGame 0 1 0.4 (store s)) s.

(** The commit of the first render, over the store [st] that this render
    read.  Effects run child first and in the order they are declared: the
    centring of the cursor, then the edge-drag effect, whose closure still
    holds the cursor position of the first render, then the effect of
    [App].  The next render shows the position that [resetGame] left,
    which is the one the first render showed for the initial store, so the
    edge-drag effect is not run again. *)
Definition mountCommit (st : GameState.t R) (config : TuningConfig.t)
    (screenWidth screenHeight : R) (now : Z) : t :=
  let s0 := mount st config screenWidth screenHeight now in
  resetGame (edgeDragPrevention (cursorPosition s0) (initializeCursor s0)).

End MDRTerminalGrid.

(** * Geometry kernel *)

Module Geometry.
Local Open Scope R_scope.





End Geometry.


(** Euclidean distance between two trail points. *)
Definition distance (p q : Point.t R) : R :=
  sqrt ((Point.x p - Point.x q) * (Point.x p - Point.x q)
        + (Point.y p - Point.y q) * (Point.y p - Point.y q))%R.

(** No two consecutive points of [trail] are closer than [spacing]. *)
Fixpoint spacedAtLeast (spacing : R) (trail : list (Point.t R)) : Prop :=
  match trail with
  | p :: (q :: _) as rest => (spacing <= distance p q)%R /\ spacedAtLeast spacing rest
  | _ => True
  end.

(** The magnitude of a velocity. *)
Definition magnitude (v : Vector2.t R) : R :=
  sqrt (Point.x v * Point.x v + Point.y v * Point.y v)%R.

(** * Recurrences read off the handlers *)

(** The velocity that the state updater inside [applyMomentum] returns
    for the previous velocity [prev] (lemma [applyMomentum_velocity]). *)
Definition decay (prev : Vector2.t R) : Vector2.t R :=
  let currentSpeed := magnitude prev in
  let friction :=
    if Rgtb currentSpeed 300 then 0.985%R
    else if Rgtb currentSpeed 150 then 0.975%R
    else if Rgtb currentSpeed 75 then 0.965%R
    else 0.93%R in
  let newVelX := (Point.x prev * friction)%R in
  let newVelY := (Point.y prev * friction)%R in
  if Rltb (Rabs newVelX) 0.02 && Rltb (Rabs newVelY) 0.02
  then Point.mk 0%R 0%R
  else Point.mk newVelX newVelY.

(** The state after [n] firings of the interval whose closure holds [captured]. *)
Definition momentumTicks (n : nat) (captured : Point.t R) (s : MDRTerminalGrid.t)
    : MDRTerminalGrid.t :=
  Nat.iter n (MDRTerminalGrid.applyMomentum captured) s.

(** The multiplier as the specification words it: 4x above the high
    threshold, 2.5x above the medium one, 1.8x above the low one, else 1x. *)
Definition boostOfSpec (releaseSpeed : R) : R :=
  if Rgtb releaseSpeed 1000 then 4%R
  else if Rgtb releaseSpeed 500 then 2.5%R
  else if Rgtb releaseSpeed 200 then 1.8%R
  else 1%R.

(** * The session clock of [MDRInterface.tsx] *)

Module SessionClock.
Local Open Scope Z_scope.

(** [s.padStart(targetLength, padString)] for a one-character [padString]. *)
Definition padStart (targetLength : nat) (padString : Ascii.ascii) (s : string) : string :=
  Nat.iter (targetLength - String.length s) (String padString) s.

(** The three numbers the interval callback computes from
    [elapsed = Date.now() - startTime]; [%] is the remainder that takes
    the sign of the dividend. *)
Definition hours (elapsed : Z) : Z := elapsed / 3600000.
Definition minutes (elapsed : Z) : Z := Z.rem elapsed 3600000 / 60000.
Definition seconds (elapsed : Z) : Z := Z.rem elapsed 60000 / 1000.

(** The string handed to [setSessionTime]. *)
Definition sessionTime (elapsed : Z) : string :=
  padStart 2 "0"%char (pretty (hours elapsed)) +:+ ":"
  +:+ padStart 2 "0"%char (pretty (minutes elapsed)) +:+ ":"
  +:+ padStart 2 "0"%char (pretty (seconds elapsed)).

End SessionClock.

(** * [src/systems/FeedbackSystem.ts] *)

Module FeedbackSystem.

(** [FeedbackOptions['haptic'].pattern] *)
Inductive HapticPattern : Type := success | failure | light | sharp.

(** The first argument of [HapticFeedback.trigger]. *)
Inductive HapticKind : Type :=
  notificationSuccess | notificationError | impactLight | impactHeavy.

Module Effect.
Record t : Type := mk { startTime : Z; duration : Q; intensity : Q }.
End Effect.

(** The singleton's haptic and visual state.  An effect id
    [`${type}_${Date.now()}`] is kept as the pair of the type and the
    time; [triggered] lists the calls of [HapticFeedback.trigger] with the
    time of each, oldest first. *)
Record t : Type := mk {
  hapticEnabled : bool;
  lastHapticTime : Z;
  visualEffects : gmap (string * Z) Effect.t;
  triggered : list (Z * HapticKind) }.

Definition new : t := mk true 0 ∅ [].

(** The [switch] of [triggerHapticFeedback] followed by the callee's
    [HapticFeedback.trigger(...)]. *)
Definition kindOf (pattern : HapticPattern) : HapticKind :=
  match pattern with
  | success => notificationSuccess
  | failure => notificationError
  | light => impactLight
  | sharp => impactHeavy
  end.

(** [now] is the reading of [Date.now()]; [configHapticEnabled] is
    [config.feedback.hapticEnabled] of the tuning store, which the four
    [trigger...Haptic] methods test after the cooldown was restarted. *)
Definition triggerHapticFeedback (now : Z) (pattern : HapticPattern)
    (configHapticEnabled : bool) (this : t) : t :=
  if negb (hapticEnabled this) then this
  else if (now - lastHapticTime this <? 100)%Z then this
  else
    mk (hapticEnabled this) now (visualEffects this)
       (if configHapticEnabled then triggered this ++ [(now, kindOf pattern)]
        else triggered this).

Definition setHapticEnabled (enabled : bool) (this : t) : t :=
  mk enabled (lastHapticTime this) (visualEffects this) (triggered this).

(** [idTime] and [startTime] are the two readings of [Date.now()]. *)
Definition addVisualEffect (idTime startTime : Z) (type : string) (duration intensity : Q)
    (this : t) : t :=
  mk (hapticEnabled this) (lastHapticTime this)
     (<[(type, idTime) := Effect.mk startTime duration intensity]> (visualEffects this))
     (triggered this).

Definition removeVisualEffect (now : Z) (type : string) (this : t) : t :=
  mk (hapticEnabled this) (lastHapticTime this)
     (delete (type, now) (visualEffects this)) (triggered this).

(** The ids [updateVisualEffects] collects in [expiredEffects]. *)
Definition expiredEffects (now : Z) (this : t) : list (string * Z) :=
  map fst
    (List.filter
       (fun entry =>
          negb (Qle_bool (inject_Z (now - Effect.startTime (snd entry)))
                         (Effect.duration (snd entry))))
       (map_to_list (visualEffects this))).

Definition updateVisualEffects (now : Z) (this : t) : t :=
  mk (hapticEnabled this) (lastHapticTime this)
     (fold_left (fun effects effectId => delete effectId effects)
        (expiredEffects now this) (visualEffects this))
     (triggered this).

(** The calls a client can make on the haptic side. *)
Inductive Call : Type :=
| TriggerHaptic (now : Z) (pattern : HapticPattern) (configHapticEnabled : bool)
| SetHapticEnabled (enabled : bool).

Definition call (this : t) (c : Call) : t :=
  match c with
  | TriggerHaptic now pattern configHapticEnabled =>
      triggerHapticFeedback now pattern configHapticEnabled this
  | SetHapticEnabled enabled => setHapticEnabled enabled this
  end.

End FeedbackSystem.

(** * [src/utils/PerformanceMonitor] *)

Module PerformanceMonitor.
Local Open Scope Q_scope.

(** The input-latency samples and the animation counter of the monitor. *)
Record t : Type := mk {
  inputTimestamps : list Q;
  animationCount : Z }.

Definition new : t := mk [] 0.

(** [performanceNow] is the reading of [getPerformanceNow()]. *)
Definition recordInputLatency (performanceNow inputTimestamp : Q) (this : t) : t :=
  let processingTime := performanceNow - inputTimestamp in
  let pushed := inputTimestamps this ++ [processingTime] in
  mk (if (30 <? length pushed)%nat then tl pushed else pushed) (animationCount this).

Definition incrementAnimationCount (this : t) : t :=
  mk (inputTimestamps this) (animationCount this + 1)%Z.

Definition decrementAnimationCount (this : t) : t :=
  mk (inputTimestamps this) (Z.max 0 (animationCount this - 1)).

End PerformanceMonitor.

(** * Sample inputs *)

Module Samples.

(** The store as [resetGame] leaves it ([initialGameState]). *)
Definition freshStore : GameState.t Q := gameStore.initialGameState 0%Q 1%Q (4 # 10)%Q.

(** The same store with a viewport wider than the world plus both margins
    (the world is 1300 wide, the margin is 16). *)
Definition wideViewportStore : GameState.t Q :=
  gameStore.updateViewport (Rectangle.mk 0 0 2000 650)%Q freshStore.

(** A phone-sized viewport somewhere inside the world. *)
Definition phoneViewportStore : GameState.t Q :=
  gameStore.updateViewport (Rectangle.mk 100 200 390 650)%Q freshStore.

(** The entity [generateGrid] creates for column 3 of row 0: its centre is
    [(3 * 26 + 12, 12) = (90, 12)], so its 24-wide footprint ends at
    [x = 114] and overlaps the spatial cells [0,0] and [1,0]. *)
Definition numberAtCol3 : NumberEntity.t Q :=
  WorldSystem.createNumberAtGridCell WorldSystem.new 3 0 "number_3_0_1700000000000_0.25" FC 8 false.

(** A phone-sized viewport at the world origin. *)
Definition originViewportStore : GameState.t Q :=
  gameStore.updateViewport (Rectangle.mk 0 0 390 650)%Q freshStore.

(** [worldSystem.addNumber(numberAtCol3)] on a fresh world system. *)
Definition afterAddNumber : WorldSystem.t * GameState.t Q :=
  WorldSystem.addNumber WorldSystem.new numberAtCol3 originViewportStore.

(** The same entity placed at (-200, -200), outside the world. *)
Definition numberOffGrid : NumberEntity.t Q :=
  NumberEntity.movedTo (Point.mk (-200) (-200))%Q numberAtCol3.

(** A 390 x 844 window over the freshly reset store, default tuning,
    right after the effect that centres the cursor (the rest of the mount
    is in [mountedOnPhone]). *)
Definition gridOnPhone : MDRTerminalGrid.t :=
  MDRTerminalGrid.initializeCursor
    (MDRTerminalGrid.mount (gameStore.initialGameState 0%R 1%R 0.4%R)
       TuningConfig.defaultConfig 390 844 0).



(** A second state of the component, for comparisons between two
    states: it differs from [gridOnPhone] in the store (viewport origin
    (100, 200)), the cursor (at (200, 300)), the lasso flag and the trail.
    The flag and the trail are set by hand here: no handler of the
    component sets the flag. *)
Definition lassoStarted : MDRTerminalGrid.t :=
  MDRTerminalGrid.setLassoPoints [Point.mk 200 300]%R
    (MDRTerminalGrid.setIsLassoMode true
       (MDRTerminalGrid.updateCursorPosition (Point.mk 200 300)%R
          (MDRTerminalGrid.with_store
             (gameStore.updateViewport (Rectangle.mk 100 200 390 650)%R
                (MDRTerminalGrid.store gridOnPhone))
             gridOnPhone))).

(** The application as mounted on a 390 x 844 window, default tuning. *)
Definition mountedOnPhone : MDRTerminalGrid.t :=
  MDRTerminalGrid.mountCommit (gameStore.initialGameState 0%R 1%R 0.4%R)
    TuningConfig.defaultConfig 390 844 0.

(** A release at 600 px/s to the right. *)
Definition flingRight : MDRTerminalGrid.Gesture.t :=
  MDRTerminalGrid.Gesture.mk 300 400 200 400 100 0 600 0.

(** A fling on the mounted application, sixteen firings of the momentum
    interval it starts (96 ms), and the next touch-down. *)
Definition flingThenTouch : list MDRTerminalGrid.Action :=
  [MDRTerminalGrid.Grant 10; MDRTerminalGrid.Move 26 26 flingRight;
   MDRTerminalGrid.Release flingRight]
  ++ repeat (MDRTerminalGrid.Tick 1) 16 ++ [MDRTerminalGrid.Grant 140].

Definition flungOnPhone : MDRTerminalGrid.t :=
  MDRTerminalGrid.performAll flingThenTouch mountedOnPhone.



(** A lasso started at (200, 300) and fed a point three quarters of a
    pixel to the left. *)
Definition lassoWithClosePoints : GameState.t R :=
  gameStore.addLassoPoint (Point.mk 199.25 300)%R
    (gameStore.startLasso (Point.mk 200 300)%R (gameStore.initialGameState 0%R 1%R 0.4%R)).

End Samples.

(** * Properties *)

(** ** Comparisons, [Math.max] and [Math.min] on reals *)

Section RealComparisons.
Local Open Scope R_scope.

Lemma Rltb_true (a b : R) : a < b -> Rltb a b = true.
Proof. intros H. unfold Rltb. destruct (Rlt_dec a b); [reflexivity | contradiction]. Qed.

Lemma Rltb_false (a b : R) : b <= a -> Rltb a b = false.
Proof. intros H. unfold Rltb. destruct (Rlt_dec a b); [lra | reflexivity]. Qed.

Lemma Rgtb_true (a b : R) : b < a -> Rgtb a b = true.
Proof. apply Rltb_true. Qed.

Lemma Rgtb_false (a b : R) : a <= b -> Rgtb a b = false.
Proof. apply Rltb_false. Qed.

Lemma Rgtb_spec (a b : R) : (b < a /\ Rgtb a b = true) \/ (a <= b /\ Rgtb a b = false).
Proof.
  destruct (Rlt_le_dec b a); [left | right]; split; auto using Rgtb_true, Rgtb_false.
Qed.

Lemma Rneqb_true (a b : R) : a <> b -> Rneqb a b = true.
Proof. intros H. unfold Rneqb. destruct (Req_dec_T a b); [contradiction | reflexivity]. Qed.

Lemma clamp_between (lo hi v : R) : lo <= hi -> lo <= Rmax lo (Rmin hi v) <= hi.
Proof. intros H. unfold Rmax, Rmin. repeat destruct Rle_dec; lra. Qed.

End RealComparisons.

(** Decides a goal about [Rmax] and [Rmin] of concrete numbers. *)
Ltac minmax := unfold Rmax, Rmin; repeat destruct Rle_dec; lra.

(** ** WorldSystem: viewport clamping *)

Section ViewportClamp.
Local Open Scope Q_scope.
Variable this : WorldSystem.t.

Lemma constrain_lower_x (v : Rectangle.t Q) :
  - WorldSystem.viewportMargin this <= Rectangle.x (WorldSystem.constrainToWorldBounds this v).
Proof. cbn. apply Q.le_max_l. Qed.

Lemma constrain_lower_y (v : Rectangle.t Q) :
  - WorldSystem.viewportMargin this <= Rectangle.y (WorldSystem.constrainToWorldBounds this v).
Proof. cbn. apply Q.le_max_l. Qed.

Lemma clamp_upper (lo hi v size bound : Q) :
  lo <= hi -> hi + size <= bound -> Qmax lo (Qmin hi v) + size <= bound.
Proof.
  intros Hlo Hhi.
  assert (Qmax lo (Qmin hi v) <= hi) as H.
  { apply Q.max_lub; [exact Hlo | apply Q.le_min_l]. }
  lra.
Qed.

Lemma constrain_upper_x (v : Rectangle.t Q) :
  let v' := WorldSystem.constrainToWorldBounds this v in
  Rectangle.width v' <= WorldSystem.getWorldWidth this + 2 * WorldSystem.viewportMargin this ->
  Rectangle.x v' + Rectangle.width v'
    <= WorldSystem.getWorldWidth this + WorldSystem.viewportMargin this.
Proof. cbn. intros H. apply clamp_upper; lra. Qed.

Lemma constrain_upper_y (v : Rectangle.t Q) :
  let v' := WorldSystem.constrainToWorldBounds this v in
  Rectangle.height v' <= WorldSystem.getWorldHeight this + 2 * WorldSystem.viewportMargin this ->
  Rectangle.y v' + Rectangle.height v'
    <= WorldSystem.getWorldHeight this + WorldSystem.viewportMargin this.
Proof. cbn. intros H. apply clamp_upper; lra. Qed.

End ViewportClamp.

(** C3, as stated, fails: a viewport 2000 wide over the 1300-wide world is
    clamped to the origin [-16] and so reaches [1984 > 1300 + 16]. *)
Lemma panViewport_wide_viewport_escapes :
  ~ WorldSystem.withinMargin WorldSystem.new
      (World.viewport (GameState.world
         (WorldSystem.panViewport WorldSystem.new 0 0 Samples.wideViewportStore))).
Proof.
  unfold WorldSystem.withinMargin. intros (_ & H & _).
  vm_compute in H. apply H. reflexivity.
Qed.

(** C3, amended: after [panViewport] the origin is at least [-margin] on
    both axes for every viewport and every delta; and on each axis where
    the viewport is no larger than the world plus twice the margin,
    origin + size is at most worldSize + margin. *)
Theorem panViewport_clamped (this : WorldSystem.t) (st : GameState.t Q) (deltaX deltaY : Q) :
  let v := World.viewport (GameState.world (WorldSystem.panViewport this deltaX deltaY st)) in
  let margin := WorldSystem.viewportMargin this in
  (- margin <= Rectangle.x v)%Q
  /\ (- margin <= Rectangle.y v)%Q
  /\ ((Rectangle.width v <= WorldSystem.getWorldWidth this + 2 * margin)%Q ->
      (Rectangle.x v + Rectangle.width v <= WorldSystem.getWorldWidth this + margin)%Q)
  /\ ((Rectangle.height v <= WorldSystem.getWorldHeight this + 2 * margin)%Q ->
      (Rectangle.y v + Rectangle.height v <= WorldSystem.getWorldHeight this + margin)%Q).
Proof.
  cbv zeta. unfold WorldSystem.panViewport. cbn [gameStore.updateViewport gameStore.with_world
    GameState.world World.viewport].
  repeat split.
  - apply constrain_lower_x.
  - apply constrain_lower_y.
  - apply constrain_upper_x.
  - apply constrain_upper_y.
Qed.

(** The conditional half is not vacuous: a 390 x 650 viewport panned far
    to the bottom right stops at the margin. *)
Lemma panViewport_clamped_witness :
  let v := World.viewport (GameState.world
             (WorldSystem.panViewport WorldSystem.new 5000 5000 Samples.phoneViewportStore)) in
  (Rectangle.x v + Rectangle.width v <= 1300 + 16)%Q
  /\ (Rectangle.y v + Rectangle.height v <= 2080 + 16)%Q.
Proof.
  pose proof (panViewport_clamped WorldSystem.new Samples.phoneViewportStore 5000 5000)
    as (_ & _ & Hx & Hy).
  split.
  - apply Hx. vm_compute. discriminate.
  - apply Hy. vm_compute. discriminate.
Defined.

(** C10: [panViewport] leaves the viewport's width and height as they
    were, clamped or not; it also leaves the scale, the entities and the
    other slices of the store untouched. *)
Theorem panViewport_preserves_size (this : WorldSystem.t) (st : GameState.t Q) (deltaX deltaY : Q) :
  let st' := WorldSystem.panViewport this deltaX deltaY st in
  Rectangle.width (World.viewport (GameState.world st'))
    = Rectangle.width (World.viewport (GameState.world st))
  /\ Rectangle.height (World.viewport (GameState.world st'))
    = Rectangle.height (World.viewport (GameState.world st))
  /\ World.scale (GameState.world st') = World.scale (GameState.world st)
  /\ World.numbers (GameState.world st') = World.numbers (GameState.world st)
  /\ GameState.cursor st' = GameState.cursor st
  /\ GameState.lasso st' = GameState.lasso st
  /\ GameState.capturedNumbers st' = GameState.capturedNumbers st.
Proof. cbv zeta. repeat split. Qed.

(** ** WorldSystem: spatial index *)

Example numberAtCol3_position :
  NumberEntity.worldPosition Samples.numberAtCol3 = Point.mk (3 * (24 + 2) + 24 / 2)%Q (0 * (24 + 2) + 24 / 2)%Q.
Proof. reflexivity. Qed.

Example numberAtCol3_cells :
  WorldSystem.getSpatialCellsForNumber WorldSystem.new Samples.numberAtCol3
  = [(0, 0); (1, 0)]%Z.
Proof. vm_compute. reflexivity. Qed.

Example numberAtCol3_bucketed :
  let grid := WorldSystem.spatialGrid (fst Samples.afterAddNumber) in
  (map NumberEntity.id <$> grid !! (0, 0)%Z) = Some ["number_3_0_1700000000000_0.25"]
  /\ (map NumberEntity.id <$> grid !! (1, 0)%Z) = Some ["number_3_0_1700000000000_0.25"].
Proof. split; vm_compute; reflexivity. Qed.

(** The store's own getter lists the entity once. *)
Example store_getVisibleNumbers_once :
  map NumberEntity.id (gameStore.getVisibleNumbers (snd Samples.afterAddNumber))
  = ["number_3_0_1700000000000_0.25"].
Proof. vm_compute. reflexivity. Qed.

(** C6 fails on the code: after the single insert
    [addNumber(numberAtCol3)] the store holds one entity, and
    [WorldSystem.getVisibleNumbers] returns it twice, once for each of the
    two spatial cells its footprint overlaps. *)
Theorem getVisibleNumbers_lists_entity_twice :
  let ws := fst Samples.afterAddNumber in
  let st := snd Samples.afterAddNumber in
  map NumberEntity.id (World.numbers (GameState.world st))
    = ["number_3_0_1700000000000_0.25"]
  /\ map NumberEntity.id (WorldSystem.getVisibleNumbers ws st)
    = ["number_3_0_1700000000000_0.25"; "number_3_0_1700000000000_0.25"]
  /\ ~ List.NoDup (map NumberEntity.id (WorldSystem.getVisibleNumbers ws st)).
Proof.
  cbv zeta.
  assert (map NumberEntity.id
            (WorldSystem.getVisibleNumbers (fst Samples.afterAddNumber)
               (snd Samples.afterAddNumber))
          = ["number_3_0_1700000000000_0.25"; "number_3_0_1700000000000_0.25"]) as E
    by (vm_compute; reflexivity).
  split; [vm_compute; reflexivity | split; [exact E |]].
  rewrite E. intros H. inversion H as [| ? ? Hnotin _]; subst.
  apply Hnotin. left. reflexivity.
Qed.

(** ** Cursor bounds *)

Section CursorBounds.
Local Open Scope R_scope.
Import MDRTerminalGrid.

Lemma trackVelocity_frame (now deltaTime : Z) (g : Gesture.t) (s : t) :
  let s' := trackVelocity now deltaTime g s in
  store s' = store s /\ screenWidth s' = screenWidth s /\ screenHeight s' = screenHeight s
  /\ isLassoMode s' = isLassoMode s /\ lassoPoints s' = lassoPoints s
  /\ config s' = config s /\ lastPanTime s' = lastPanTime s.
Proof.
  cbv zeta. unfold trackVelocity.
  destruct (0 <? deltaTime)%Z; [destruct (Rgtb _ 800) |]; cbn; repeat split.
Qed.

Variable s : t.
Hypothesis wide : 40 <= screenWidth s.
Hypothesis tall : 150 <= screenHeight s.






End CursorBounds.


(** The state the mount of the application leaves: the store is the
    initial one, so the cursor is at (0, 0) and in exploration mode, the
    centring and the clamp of the edge-drag effect being overwritten by
    [resetGame]; nothing else of the component has changed. *)
Lemma mountCommit_state (st : GameState.t R) (config : TuningConfig.t)
    (screenWidth screenHeight : R) (now : Z) :
  let m := MDRTerminalGrid.mountCommit st config screenWidth screenHeight now in
  MDRTerminalGrid.store m = gameStore.initialGameState 0%R 1%R 0.4%R
  /\ MDRTerminalGrid.isLassoMode m = false
  /\ MDRTerminalGrid.lassoPoints m = []
  /\ MDRTerminalGrid.screenWidth m = screenWidth
  /\ MDRTerminalGrid.screenHeight m = screenHeight
  /\ MDRTerminalGrid.config m = config
  /\ MDRTerminalGrid.intervals m = []
  /\ MDRTerminalGrid.momentumAnimationRef m = None
  /\ MDRTerminalGrid.nextHandle m = 1%nat.
Proof.
  cbv zeta. unfold MDRTerminalGrid.mountCommit, MDRTerminalGrid.edgeDragPrevention.
  destruct (Rneqb _ _ || Rneqb _ _); cbn; repeat split.
Qed.



(** ** Release: momentum boost *)

Section ReleaseBoost.
Local Open Scope R_scope.
Import MDRTerminalGrid.

(** The four cases of [boostOfSpec], by the range of the release speed. *)
Lemma boostOfSpec_cases (v : R) :
  (1000 < v /\ boostOfSpec v = 4)
  \/ (500 < v <= 1000 /\ boostOfSpec v = 2.5)
  \/ (200 < v <= 500 /\ boostOfSpec v = 1.8)
  \/ (v <= 200 /\ boostOfSpec v = 1).
Proof.
  unfold boostOfSpec.
  destruct (Rgtb_spec v 1000) as [[H1 ->] | [H1 ->]]; [left; split; [lra | reflexivity] |].
  destruct (Rgtb_spec v 500) as [[H2 ->] | [H2 ->]]; [right; left; split; [lra | reflexivity] |].
  destruct (Rgtb_spec v 200) as [[H3 ->] | [H3 ->]].
  - right; right; left; split; [lra | reflexivity].
  - right; right; right; split; [lra | reflexivity].
Qed.

(** What the exploration branch of the release handler leaves as velocity. *)
Lemma release_sets_velocity (g : Gesture.t) (s : t) :
  isLassoMode s = false ->
  let boost := boostOfSpec (sqrt (Gesture.vx g * Gesture.vx g + Gesture.vy g * Gesture.vy g)) in
  let momentum := TuningConfig.Cursor.momentum (TuningConfig.cursor (config s)) in
  let initial := Point.mk (Gesture.vx g * (momentum * boost)) (Gesture.vy g * (momentum * boost)) in
  cursorVelocity (onPanResponderRelease g s) = initial
  /\ CursorState.velocity (GameState.cursor (store (onPanResponderRelease g s))) = initial.
Proof.
  intros Hmode. cbv zeta. unfold onPanResponderRelease. rewrite Hmode.
  set (v := sqrt _).
  cbn [cursorVelocity store setInterval_applyMomentum updateCursorVelocity
       setCursorVelocity with_store gameStore.updateCursorVelocity gameStore.with_cursor
       GameState.cursor CursorState.velocity].
  unfold boostOfSpec.
  destruct (Rgtb v 1000); [| destruct (Rgtb v 500); [| destruct (Rgtb v 200)]];
    split; f_equal; lra.
Qed.

End ReleaseBoost.

(** C5: on a release outside lasso mode, the velocity handed to the
    momentum loop (both the component's [cursorVelocity] and the store's
    [cursor.velocity]) is the release velocity times the configured
    momentum times the boost, and the boost is 4 above 1000, 2.5 above 500,
    1.8 above 200 and 1 otherwise. *)
Theorem release_velocity_boosted (g : MDRTerminalGrid.Gesture.t) (s : MDRTerminalGrid.t) :
  MDRTerminalGrid.isLassoMode s = false ->
  let vx := MDRTerminalGrid.Gesture.vx g in
  let vy := MDRTerminalGrid.Gesture.vy g in
  let releaseSpeed := sqrt (vx * vx + vy * vy) in
  let momentum := TuningConfig.Cursor.momentum (TuningConfig.cursor (MDRTerminalGrid.config s)) in
  let s' := MDRTerminalGrid.onPanResponderRelease g s in
  exists boost : R,
    ((1000 < releaseSpeed /\ boost = 4)
     \/ (500 < releaseSpeed <= 1000 /\ boost = 2.5)
     \/ (200 < releaseSpeed <= 500 /\ boost = 1.8)
     \/ (releaseSpeed <= 200 /\ boost = 1))%R
    /\ boost = boostOfSpec releaseSpeed
    /\ MDRTerminalGrid.cursorVelocity s'
       = Point.mk (vx * (momentum * boost))%R (vy * (momentum * boost))%R
    /\ CursorState.velocity (GameState.cursor (MDRTerminalGrid.store s'))
       = Point.mk (vx * (momentum * boost))%R (vy * (momentum * boost))%R.
Proof.
  intros Hmode. cbv zeta.
  set (v := sqrt _).
  exists (boostOfSpec v).
  split; [| split; [reflexivity |]].
  - destruct (boostOfSpec_cases v) as [[H ->] | [[H ->] | [[H ->] | [H ->]]]]; tauto.
  - exact (release_sets_velocity g s Hmode).
Qed.

Lemma release_velocity_boosted_witness :
  exists boost : R,
    ((1000 < sqrt (600 * 600 + 0 * 0) /\ boost = 4)
     \/ (500 < sqrt (600 * 600 + 0 * 0) <= 1000 /\ boost = 2.5)
     \/ (200 < sqrt (600 * 600 + 0 * 0) <= 500 /\ boost = 1.8)
     \/ (sqrt (600 * 600 + 0 * 0) <= 200 /\ boost = 1))%R
    /\ boost = boostOfSpec (sqrt (600 * 600 + 0 * 0))
    /\ MDRTerminalGrid.cursorVelocity
         (MDRTerminalGrid.onPanResponderRelease Samples.flingRight Samples.gridOnPhone)
       = Point.mk (600 * (0.15 * boost))%R (0 * (0.15 * boost))%R
    /\ CursorState.velocity (GameState.cursor (MDRTerminalGrid.store
         (MDRTerminalGrid.onPanResponderRelease Samples.flingRight Samples.gridOnPhone)))
       = Point.mk (600 * (0.15 * boost))%R (0 * (0.15 * boost))%R.
Proof.
  exact (release_velocity_boosted Samples.flingRight Samples.gridOnPhone eq_refl).
Defined.

(** At 600 px/s the boost is the medium one: the loop starts at
    [600 * (0.15 * 2.5) = 225] px per tick. *)
Example fling_600_boost :
  MDRTerminalGrid.cursorVelocity
    (MDRTerminalGrid.onPanResponderRelease Samples.flingRight Samples.gridOnPhone)
  = Point.mk 225%R 0%R.
Proof.
  destruct (release_sets_velocity Samples.flingRight Samples.gridOnPhone eq_refl) as [Hv _].
  cbv zeta in Hv. rewrite Hv. cbn [MDRTerminalGrid.Gesture.vx MDRTerminalGrid.Gesture.vy
    Samples.flingRight].
  assert (sqrt (600 * 600 + 0 * 0) = 600)%R as ->.
  { replace (600 * 600 + 0 * 0)%R with (600 * 600)%R by lra. apply sqrt_square. lra. }
  unfold boostOfSpec.
  rewrite (Rgtb_false 600 1000), (Rgtb_true 600 500) by lra.
  f_equal; cbn; lra.
Qed.

(** ** Momentum decay *)

Section MomentumDecay.
Local Open Scope R_scope.
Import MDRTerminalGrid.

(** The velocity component of one tick is [decay]. *)
Lemma applyMomentum_velocity (captured : Point.t R) (s : t) :
  cursorVelocity (applyMomentum captured s) = decay (cursorVelocity s).
Proof.
  unfold applyMomentum, decay, magnitude.
  destruct (Rltb _ 0.02 && Rltb _ 0.02); reflexivity.
Qed.

(** In the branch that keeps moving, the store is given the same velocity;
    in the branch that stops, it is given zero. *)
Lemma applyMomentum_store_velocity (captured : Point.t R) (s : t) :
  CursorState.velocity (GameState.cursor (store (applyMomentum captured s)))
  = decay (cursorVelocity s).
Proof.
  unfold applyMomentum, decay, magnitude.
  destruct (Rltb _ 0.02 && Rltb _ 0.02); [| reflexivity].
  unfold clearMomentumInterval. destruct (momentumAnimationRef s); reflexivity.
Qed.

Lemma momentumTicks_velocity (n : nat) (captured : Point.t R) (s : t) :
  cursorVelocity (momentumTicks n captured s) = Nat.iter n decay (cursorVelocity s).
Proof.
  induction n as [| n IH]; [reflexivity |].
  unfold momentumTicks in *. rewrite Nat.iter_succ, applyMomentum_velocity, IH. reflexivity.
Qed.

(** One step either stops, or scales both components by a friction
    between 0.93 and 0.985. *)
(** Whatever the speed, the friction chosen lies between 0.93 and 0.985. *)
Lemma friction_range (currentSpeed : R) :
  0.93 <= (if Rgtb currentSpeed 300 then 0.985
           else if Rgtb currentSpeed 150 then 0.975
           else if Rgtb currentSpeed 75 then 0.965
           else 0.93) <= 0.985.
Proof.
  destruct (Rgtb _ 300); [lra |]. destruct (Rgtb _ 150); [lra |].
  destruct (Rgtb _ 75); lra.
Qed.

Lemma decay_cases (v : Vector2.t R) :
  decay v = Point.mk 0 0
  \/ exists friction, 0.93 <= friction <= 0.985
       /\ decay v = Point.mk (Point.x v * friction) (Point.y v * friction).
Proof.
  unfold decay.
  set (friction := if Rgtb (magnitude v) 300 then _ else _).
  assert (0.93 <= friction <= 0.985) as Hf by apply friction_range.
  destruct (Rltb _ 0.02 && Rltb _ 0.02); [left; reflexivity | right].
  exists friction. split; [exact Hf | reflexivity].
Qed.

Lemma decay_zero : decay (Point.mk 0 0) = Point.mk 0 0.
Proof.
  destruct (decay_cases (Point.mk 0 0)) as [E | (f & _ & E)]; [exact E |].
  rewrite E. cbn. f_equal; lra.
Qed.

(** Below the stopping threshold on both axes, the step snaps to zero. *)
Lemma decay_small (v : Vector2.t R) :
  Rabs (Point.x v) < 0.02 -> Rabs (Point.y v) < 0.02 -> decay v = Point.mk 0 0.
Proof.
  intros Hx Hy. unfold decay.
  set (friction := if Rgtb (magnitude v) 300 then _ else _).
  assert (0.93 <= friction <= 0.985) as Hf by apply friction_range.
  assert (forall c, Rabs c < 0.02 -> Rabs (c * friction) < 0.02) as Hsmall.
  { intros c Hc. rewrite Rabs_mult, (Rabs_right friction) by lra.
    pose proof (Rabs_pos c). nra. }
  rewrite (Rltb_true _ _ (Hsmall _ Hx)), (Rltb_true _ _ (Hsmall _ Hy)). reflexivity.
Qed.

(** The magnitude never grows. *)
Lemma decay_magnitude (v : Vector2.t R) : magnitude (decay v) <= magnitude v.
Proof.
  destruct (decay_cases v) as [E | (f & Hf & E)]; rewrite E; unfold magnitude; cbn.
  - replace (0 * 0 + 0 * 0) with 0 by lra. rewrite sqrt_0. apply sqrt_pos.
  - assert (0 <= f * f <= 1) as Hff by nra.
    pose proof (Rle_0_sqr (Point.x v)) as Hx. pose proof (Rle_0_sqr (Point.y v)) as Hy.
    unfold Rsqr in Hx, Hy.
    replace (Point.x v * f * (Point.x v * f) + Point.y v * f * (Point.y v * f))
      with ((Point.x v * Point.x v + Point.y v * Point.y v) * (f * f)) by ring.
    apply sqrt_le_1; nra.
Qed.

(** After [n] steps the velocity is zero, or both components have shrunk
    by at least [0.985 ^ n]. *)
Lemma decay_iter_bound (v : Vector2.t R) (n : nat) :
  Nat.iter n decay v = Point.mk 0 0
  \/ (Rabs (Point.x (Nat.iter n decay v)) <= 0.985 ^ n * Rabs (Point.x v)
      /\ Rabs (Point.y (Nat.iter n decay v)) <= 0.985 ^ n * Rabs (Point.y v)).
Proof.
  induction n as [| n IH].
  - right. cbn. lra.
  - rewrite Nat.iter_succ. destruct IH as [E | [Hx Hy]].
    + left. rewrite E. apply decay_zero.
    + destruct (decay_cases (Nat.iter n decay v)) as [E | (f & Hf & E)]; [left; exact E |].
      right. rewrite E. cbn [Point.x Point.y].
      rewrite !Rabs_mult, (Rabs_right f) by lra.
      assert (0 <= 0.985 ^ n) by (apply pow_le; lra).
      pose proof (Rabs_pos (Point.x v)). pose proof (Rabs_pos (Point.y v)).
      pose proof (Rabs_pos (Point.x (Nat.iter n decay v))).
      pose proof (Rabs_pos (Point.y (Nat.iter n decay v))).
      change (0.985 ^ S n) with (0.985 * 0.985 ^ n).
      split; nra.
Qed.

Lemma decay_iter_stays_zero (v : Vector2.t R) (n m : nat) :
  Nat.iter n decay v = Point.mk 0 0 -> (n <= m)%nat -> Nat.iter m decay v = Point.mk 0 0.
Proof.
  intros E Hle. induction Hle as [| m Hle IH]; [exact E |].
  rewrite Nat.iter_succ, IH. apply decay_zero.
Qed.

(** Every velocity comes to rest after finitely many steps. *)
Lemma decay_reaches_zero (v : Vector2.t R) :
  exists n, Nat.iter n decay v = Point.mk 0 0.
Proof.
  set (bound := Rabs (Point.x v) + Rabs (Point.y v) + 1).
  pose proof (Rabs_pos (Point.x v)) as Hx0. pose proof (Rabs_pos (Point.y v)) as Hy0.
  assert (0 < bound) as Hb by (unfold bound; lra).
  destruct (pow_lt_1_zero 0.985) with (y := 0.02 / bound) as [N HN].
  { rewrite Rabs_right; lra. }
  { apply Rdiv_lt_0_compat; lra. }
  specialize (HN N (Nat.le_refl N)).
  rewrite Rabs_right in HN by (apply Rle_ge, pow_le; lra).
  assert (0.985 ^ N * bound < 0.02) as Hsmall.
  { apply (Rmult_lt_compat_r bound) in HN; [| exact Hb].
    replace (0.02 / bound * bound) with 0.02 in HN by (field; lra). exact HN. }
  assert (0 <= 0.985 ^ N) as Hp by (apply pow_le; lra).
  exists (S N).
  destruct (decay_iter_bound v N) as [E | [Hx Hy]].
  - apply (decay_iter_stays_zero v N); [exact E | lia].
  - rewrite Nat.iter_succ. apply decay_small; unfold bound in Hsmall; nra.
Qed.

End MomentumDecay.

(** C4: whatever velocity the release leaves, over successive ticks of the
    momentum interval the velocity magnitude never increases, and from
    some tick on the component's velocity is exactly [{x: 0, y: 0}], as is
    the velocity written to the store by each later tick. *)
Theorem momentum_decays_to_rest (captured : Point.t R) (s : MDRTerminalGrid.t) :
  (forall n : nat,
     (magnitude (MDRTerminalGrid.cursorVelocity (momentumTicks (S n) captured s))
      <= magnitude (MDRTerminalGrid.cursorVelocity (momentumTicks n captured s)))%R)
  /\ exists n : nat, forall m : nat, (n <= m)%nat ->
       MDRTerminalGrid.cursorVelocity (momentumTicks m captured s) = Point.mk 0%R 0%R
       /\ CursorState.velocity (GameState.cursor (MDRTerminalGrid.store
            (momentumTicks (S m) captured s))) = Point.mk 0%R 0%R.
Proof.
  split.
  - intros n. rewrite !momentumTicks_velocity, Nat.iter_succ. apply decay_magnitude.
  - destruct (decay_reaches_zero (MDRTerminalGrid.cursorVelocity s)) as [n Hn].
    exists n. intros m Hm.
    assert (MDRTerminalGrid.cursorVelocity (momentumTicks m captured s) = Point.mk 0%R 0%R) as E.
    { rewrite momentumTicks_velocity. apply (decay_iter_stays_zero _ n); assumption. }
    split; [exact E |].
    unfold momentumTicks in *.
    rewrite Nat.iter_succ, applyMomentum_store_velocity, E. apply decay_zero.
Qed.

(** ** Jitter *)

Section Jitter.
Import MDRTerminalGrid.

Lemma upto_nth_error (n i : Z) :
  (0 <= i < n)%Z -> nth_error (upto 0 (n - 1)) (Z.to_nat i) = Some i.
Proof.
  intros Hi. unfold upto. rewrite nth_error_map, nth_error_seq.
  assert ((Z.to_nat i <? Z.to_nat (n - 1 - 0 + 1))%nat = true) as ->
    by (apply Nat.ltb_lt; lia).
  cbn. f_equal. lia.
Qed.

(** The cell stored at [grid[row][col]] is the loop body run at [(row, col)]. *)
Lemma generateJitteryGrid_cell (s : t) (row col : Z) :
  (0 <= row < rows s)%Z -> (0 <= col < cols s)%Z ->
  match nth_error (generateJitteryGrid s) (Z.to_nat row) with
  | Some cells => nth_error cells (Z.to_nat col)
  | None => None
  end = Some (makeCell s row col).
Proof.
  intros Hrow Hcol. unfold generateJitteryGrid.
  rewrite nth_error_map, (upto_nth_error _ _ Hrow). cbn [option_map].
  rewrite nth_error_map, (upto_nth_error _ _ Hcol). reflexivity.
Qed.

(** The digit and the jitter class and phase of a cell are functions of
    [(row, col)] alone. *)
Lemma makeCell_seed (s1 s2 : t) (row col : Z) :
  Cell.digit (makeCell s1 row col) = Cell.digit (makeCell s2 row col)
  /\ Cell.jitterType (makeCell s1 row col) = Cell.jitterType (makeCell s2 row col)
  /\ Cell.jitterPhase (makeCell s1 row col) = Cell.jitterPhase (makeCell s2 row col).
Proof. repeat split. Qed.

(** [getJitterOffset] reads the state only through [globalTime] and
    [config.jitter]. *)
Lemma getJitterOffset_reads (s1 s2 : t) (jitterType : Z) (jitterPhase : R) :
  globalTime s1 = globalTime s2 ->
  TuningConfig.jitter (config s1) = TuningConfig.jitter (config s2) ->
  getJitterOffset s1 jitterType jitterPhase = getJitterOffset s2 jitterType jitterPhase.
Proof. intros Ht Hc. unfold getJitterOffset. rewrite Ht, Hc. reflexivity. Qed.

End Jitter.

(** C9: two evaluations at the same cell [(row, col)], with the same
    global time and the same jitter configuration, give the same digit and
    the same jitter offset, whatever else differs between the two states
    of the component (cursor, velocity, store, window size, the rest of
    the configuration, timers). *)
Theorem jitter_is_deterministic (s1 s2 : MDRTerminalGrid.t) (row col : Z) :
  MDRTerminalGrid.globalTime s1 = MDRTerminalGrid.globalTime s2 ->
  TuningConfig.jitter (MDRTerminalGrid.config s1) = TuningConfig.jitter (MDRTerminalGrid.config s2) ->
  MDRTerminalGrid.renderedDigit s1 row col = MDRTerminalGrid.renderedDigit s2 row col
  /\ MDRTerminalGrid.renderedJitter s1 row col = MDRTerminalGrid.renderedJitter s2 row col.
Proof.
  intros Ht Hc. unfold MDRTerminalGrid.renderedDigit, MDRTerminalGrid.renderedJitter.
  destruct (makeCell_seed s1 s2 row col) as (Hd & Hty & Hph).
  split; [exact Hd |].
  rewrite Hty, Hph. apply getJitterOffset_reads; assumption.
Qed.

Lemma jitter_is_deterministic_witness :
  MDRTerminalGrid.renderedDigit Samples.gridOnPhone 3 4
  = MDRTerminalGrid.renderedDigit Samples.lassoStarted 3 4
  /\ MDRTerminalGrid.renderedJitter Samples.gridOnPhone 3 4
     = MDRTerminalGrid.renderedJitter Samples.lassoStarted 3 4.
Proof.
  apply (jitter_is_deterministic Samples.gridOnPhone Samples.lassoStarted 3 4);
    reflexivity.
Defined.

(** The digit drawn at row 3, column 4: [(4 * 73856093) ^ (3 * 19349663)]
    is [295424372 ^ 58048989 = 317591721], so the digit is 1.  At row 30,
    column 40 the first product exceeds 31 bits and wraps. *)
Example digit_row3_col4 : MDRTerminalGrid.renderedDigit Samples.gridOnPhone 3 4 = 1%Z.
Proof. reflexivity. Qed.

Example digit_row30_col40 : MDRTerminalGrid.renderedDigit Samples.gridOnPhone 30 40 = 2%Z.
Proof. reflexivity. Qed.

(** * Further properties *)

(** ** Coordinates and zoom *)

Section Coordinates.
Local Open Scope Q_scope.

Lemma Qfloor_unique (z : Z) (q : Q) :
  inject_Z z <= q -> q < inject_Z (z + 1) -> Qfloor q = z.
Proof.
  intros Hlo Hhi.
  assert (z <= Qfloor q)%Z as H1.
  { rewrite <- (Qfloor_Z z). apply Qfloor_resp_le, Hlo. }
  assert (Qfloor q < z + 1)%Z as H2.
  { rewrite Zlt_Qlt. apply Qle_lt_trans with q; [apply Qfloor_le | exact Hhi]. }
  lia.
Qed.

Lemma Qclamp_between (lo hi v : Q) : lo <= hi -> lo <= Qmax lo (Qmin hi v) <= hi.
Proof.
  intros H. split; [apply Q.le_max_l |].
  apply Q.max_lub; [exact H | apply Q.le_min_l].
Qed.

(** A value already between the bounds is left where it is. *)
Lemma Qclamp_inside (lo hi v : Q) : lo <= v <= hi -> Qmax lo (Qmin hi v) == v.
Proof.
  intros [Hlo Hhi]. rewrite (Q.min_r hi v Hhi). apply Q.max_r, Hlo.
Qed.

(** Clamping twice is clamping once, whatever the order of the bounds. *)
Lemma Qclamp_idempotent (lo hi v : Q) :
  Qmax lo (Qmin hi (Qmax lo (Qmin hi v))) == Qmax lo (Qmin hi v).
Proof.
  destruct (Qlt_le_dec hi lo) as [Hlt | Hle].
  - assert (forall w, Qmax lo (Qmin hi w) == lo) as Hlow.
    { intros w. apply Q.max_l. apply Qle_trans with hi; [apply Q.le_min_l | lra]. }
    rewrite !Hlow. reflexivity.
  - apply Qclamp_inside, Qclamp_between, Hle.
Qed.

End Coordinates.

(** X2: [updateWorldScale] leaves the scale between the zoom limits 0.5
    and 2 whatever number is asked for: a request below 0.5 stores 0.5,
    one above 2 stores 2, one in between is stored as it is; asking again
    for the stored scale changes nothing; the viewport and the numbers
    are kept. *)
Theorem updateWorldScale_keeps_zoom_limits (scale : Q) (st : GameState.t Q) :
  let st' := gameStore.updateWorldScale scale st in
  let stored := World.scale (GameState.world st') in
  (5 # 10 <= stored <= 2)%Q
  /\ ((scale <= 5 # 10 /\ stored == 5 # 10)
      \/ (5 # 10 <= scale <= 2 /\ stored == scale)
      \/ (2 <= scale /\ stored == 2))%Q
  /\ (World.scale (GameState.world (gameStore.updateWorldScale stored st')) == stored)%Q
  /\ World.viewport (GameState.world st') = World.viewport (GameState.world st)
  /\ World.numbers (GameState.world st') = World.numbers (GameState.world st).
Proof.
  cbv zeta.
  cbn [gameStore.updateWorldScale gameStore.with_world GameState.world World.scale
       World.viewport World.numbers].
  unfold GameConfig.viewport_minZoom, GameConfig.viewport_maxZoom.
  split; [apply Qclamp_between; lra |].
  split; [| split; [apply Qclamp_idempotent | split; reflexivity]].
  destruct (Qlt_le_dec scale (5 # 10)) as [Hlow | Hlow].
  - left. split; [lra |]. apply Q.max_l.
    apply Qle_trans with scale; [apply Q.le_min_r | lra].
  - destruct (Qlt_le_dec 2 scale) as [Hhigh | Hhigh].
    + right. right. split; [lra |]. rewrite (Q.min_l 2 scale) by lra. apply Q.max_r. lra.
    + right. left. split; [lra |]. apply Qclamp_inside. lra.
Qed.

(** ** Grid cells *)

(** X3: for non-negative cell size and spacing, not both zero, the centre
    of the grid cell [(col, row)] is located back in the cell [(col, row)]
    by [getGridCellAt]. *)
Theorem grid_cell_center_round_trip (this : WorldSystem.t) (col row : Z) :
  (0 <= WorldSystem.cellSize this)%Q ->
  (0 <= WorldSystem.cellSpacing this)%Q ->
  (0 < WorldSystem.cellSize this + WorldSystem.cellSpacing this)%Q ->
  WorldSystem.getGridCellAt this
    (WorldSystem.getGridCellCenter this (inject_Z col) (inject_Z row))
  = (col, row).
Proof.
  intros Hsize Hspacing Hpitch.
  unfold WorldSystem.getGridCellAt, WorldSystem.getGridCellCenter. cbn [Point.x Point.y].
  set (c := WorldSystem.cellSize this) in *. set (sp := WorldSystem.cellSpacing this) in *.
  assert (0 <= c / 2 <= c)%Q as Hhalf.
  { split; [apply Qle_shift_div_l | apply Qle_shift_div_r]; lra. }
  set (h := (c / 2)%Q) in *.
  assert (forall k : Z, Qfloor ((inject_Z k * (c + sp) + h) / (c + sp))%Q = k) as Hfloor.
  { intros k. apply Qfloor_unique.
    - apply Qle_shift_div_l; [exact Hpitch |].
      set (m := (inject_Z k * (c + sp))%Q). lra.
    - apply Qlt_shift_div_r; [exact Hpitch |].
      rewrite inject_Z_plus. change (inject_Z 1) with 1%Q.
      assert ((inject_Z k + 1) * (c + sp) == inject_Z k * (c + sp) + (c + sp))%Q
        as Hexpand by ring.
      rewrite Hexpand. set (m := (inject_Z k * (c + sp))%Q).
      destruct (Qlt_le_dec 0 c) as [Hpos | Hzero].
      + assert (h < c)%Q by (apply Qlt_shift_div_r; lra). lra.
      + lra. }
  rewrite !Hfloor. reflexivity.
Qed.

Lemma grid_cell_center_round_trip_witness :
  WorldSystem.getGridCellAt WorldSystem.new
    (WorldSystem.getGridCellCenter WorldSystem.new (inject_Z 3) (inject_Z 0))
  = (3, 0)%Z.
Proof.
  apply (grid_cell_center_round_trip WorldSystem.new 3 0); vm_compute; congruence.
Defined.

(** ** Viewport clamping, continued *)

(** X4: clamping a viewport twice is clamping it once: a pan by (0, 0)
    after any pan leaves the viewport origin where the first pan put it,
    the size is kept, and [constrainToWorldBounds] itself is idempotent. *)
Theorem constrainToWorldBounds_idempotent (this : WorldSystem.t) (v : Rectangle.t Q)
    (deltaX deltaY : Q) (st : GameState.t Q) :
  let once := WorldSystem.constrainToWorldBounds this v in
  let twice := WorldSystem.constrainToWorldBounds this once in
  let panned := World.viewport (GameState.world (WorldSystem.panViewport this deltaX deltaY st)) in
  let settled :=
    World.viewport (GameState.world
      (WorldSystem.panViewport this 0 0 (WorldSystem.panViewport this deltaX deltaY st))) in
  ((Rectangle.x twice == Rectangle.x once)%Q
   /\ (Rectangle.y twice == Rectangle.y once)%Q
   /\ Rectangle.width twice = Rectangle.width v
   /\ Rectangle.height twice = Rectangle.height v)
  /\ ((Rectangle.x settled == Rectangle.x panned)%Q
      /\ (Rectangle.y settled == Rectangle.y panned)%Q
      /\ Rectangle.width settled = Rectangle.width panned
      /\ Rectangle.height settled = Rectangle.height panned).
Proof.
  cbv zeta. unfold WorldSystem.panViewport, WorldSystem.constrainToWorldBounds.
  cbn [Rectangle.x Rectangle.y Rectangle.width Rectangle.height gameStore.updateViewport
       gameStore.with_world GameState.world World.viewport].
  split.
  - split; [apply Qclamp_idempotent |]. split; [apply Qclamp_idempotent |].
    split; reflexivity.
  - split; [rewrite Qplus_0_r; apply Qclamp_idempotent |].
    split; [rewrite Qplus_0_r; apply Qclamp_idempotent |].
    split; reflexivity.
Qed.

(** ** The spatial hash *)

Section IntegerRanges.

Lemma In_upto (lo hi z : Z) : In z (upto lo hi) <-> (lo <= z <= hi)%Z.
Proof.
  unfold upto. rewrite in_map_iff. split.
  - intros [i [<- Hi]]. apply in_seq in Hi. lia.
  - intros H. exists (Z.to_nat (z - lo)). split; [lia |]. apply in_seq. lia.
Qed.

Lemma NoDup_map_inj {A B : Type} (f : A -> B) (l : list A) :
  (forall a b, f a = f b -> a = b) -> NoDup l -> NoDup (map f l).
Proof.
  intros Hinj Hl. induction Hl as [| x l Hx Hl IH]; [constructor |].
  cbn [map]. constructor; [| exact IH].
  rewrite list_elem_of_In, in_map_iff. intros [y [Heq Hy]].
  apply Hinj in Heq. subst y. apply Hx, list_elem_of_In, Hy.
Qed.

Lemma NoDup_upto (lo hi : Z) : NoDup (upto lo hi).
Proof.
  unfold upto. apply NoDup_map_inj; [| apply NoDup_seq].
  intros i j H. lia.
Qed.

Lemma In_cellKeys (startX endX startY endY gx gy : Z) :
  In (gx, gy) (cellKeys startX endX startY endY)
  <-> (startX <= gx <= endX)%Z /\ (startY <= gy <= endY)%Z.
Proof.
  unfold cellKeys. rewrite in_flat_map. split.
  - intros [x [Hx Hy]]. apply in_map_iff in Hy as [y [Heq Hy]].
    inversion Heq; subst. apply In_upto in Hx. apply In_upto in Hy. split; assumption.
  - intros [Hx Hy]. exists gx. split; [apply In_upto, Hx |].
    apply in_map_iff. exists gy. split; [reflexivity | apply In_upto, Hy].
Qed.

Lemma NoDup_pairs {A B : Type} (xs : list A) (ys : list B) :
  NoDup xs -> NoDup ys -> NoDup (flat_map (fun x => map (fun y => (x, y)) ys) xs).
Proof.
  intros Hxs Hys. induction Hxs as [| x xs Hx Hxs IH]; [constructor |].
  cbn [flat_map]. apply NoDup_app. split; [| split].
  - apply NoDup_map_inj; [| exact Hys]. intros a b H. congruence.
  - intros [a b] Hin Hin'. apply list_elem_of_In in Hin, Hin'.
    apply in_map_iff in Hin as [y [Heq _]].
    apply in_flat_map in Hin' as [x' [Hx' Hy']].
    apply in_map_iff in Hy' as [y' [Heq' _]].
    assert (x' = x) as -> by congruence. apply Hx, list_elem_of_In, Hx'.
  - exact IH.
Qed.

Lemma NoDup_cellKeys (startX endX startY endY : Z) :
  NoDup (cellKeys startX endX startY endY).
Proof. apply NoDup_pairs; apply NoDup_upto. Qed.

End IntegerRanges.

(** A loop [keys.forEach(key => { const cell = grid.get(key); if (cell) ... })]
    that rewrites the bucket under [key] to [g cell] and touches nothing
    else, read bucket by bucket. *)
Section Buckets.
Context {V : Type}.
Variable step : gmap (Z * Z) V -> Z * Z -> gmap (Z * Z) V.
Variable g : V -> V.
Hypothesis step_same : forall grid key, step grid key !! key = g <$> grid !! key.
Hypothesis step_other : forall grid key k, k <> key -> step grid key !! k = grid !! k.

Lemma fold_buckets_notin (keys : list (Z * Z)) (grid : gmap (Z * Z) V) (k : Z * Z) :
  ~ In k keys -> fold_left step keys grid !! k = grid !! k.
Proof.
  revert grid. induction keys as [| key keys IH]; intros grid Hk; [reflexivity |].
  cbn [fold_left]. rewrite IH by (intros H; apply Hk; right; exact H).
  apply step_other. intros ->. apply Hk. left. reflexivity.
Qed.

Lemma fold_buckets_in (keys : list (Z * Z)) (grid : gmap (Z * Z) V) (k : Z * Z) :
  NoDup keys -> In k keys -> fold_left step keys grid !! k = g <$> grid !! k.
Proof.
  revert grid. induction keys as [| key keys IH]; intros grid Hnd Hk; [destruct Hk |].
  apply NoDup_cons in Hnd as [Hfresh Hnd]. cbn [fold_left].
  destruct Hk as [-> | Hk].
  - rewrite fold_buckets_notin by (rewrite <- list_elem_of_In; exact Hfresh).
    apply step_same.
  - rewrite IH by assumption. rewrite step_other; [reflexivity |].
    intros ->. apply Hfresh, list_elem_of_In, Hk.
Qed.

End Buckets.

Section SpatialHash.

Lemma findIndex_none {A : Type} (p : A -> bool) (l : list A) :
  (forall a, In a l -> p a = false) -> findIndex p l = None.
Proof.
  induction l as [| a l IH]; intros H; [reflexivity |].
  cbn [findIndex]. rewrite (H a) by (left; reflexivity).
  rewrite IH by (intros b Hb; apply H; right; exact Hb). reflexivity.
Qed.

Lemma findIndex_last {A : Type} (p : A -> bool) (l : list A) (a : A) :
  (forall b, In b l -> p b = false) -> p a = true ->
  findIndex p (l ++ [a]) = Some (length l).
Proof.
  induction l as [| b l IH]; intros H Ha; cbn [findIndex app length].
  - rewrite Ha. reflexivity.
  - rewrite (H b) by (left; reflexivity).
    rewrite IH by (try assumption; intros c Hc; apply H; right; exact Hc). reflexivity.
Qed.

Lemma dropId_absent (id : string) (cell : list (NumberEntity.t Q)) :
  (forall n, In n cell -> NumberEntity.id n <> id) -> dropId id cell = cell.
Proof.
  intros H. unfold dropId. rewrite findIndex_none; [reflexivity |].
  intros n Hn. apply String.eqb_neq, H, Hn.
Qed.

Lemma dropId_pushed (number : NumberEntity.t Q) (cell : list (NumberEntity.t Q)) :
  (forall n, In n cell -> NumberEntity.id n <> NumberEntity.id number) ->
  dropId (NumberEntity.id number) (cell ++ [number]) = cell.
Proof.
  intros H. unfold dropId. rewrite findIndex_last.
  - rewrite (delete_middle cell [] number). apply app_nil_r.
  - intros n Hn. apply String.eqb_neq, H, Hn.
  - apply String.eqb_refl.
Qed.

Lemma footprint_ignores_grid (g : gmap (Z * Z) (list (NumberEntity.t Q)))
    (this : WorldSystem.t) (number : NumberEntity.t Q) :
  WorldSystem.getSpatialCellsForNumber (WorldSystem.with_spatialGrid g this) number
  = WorldSystem.getSpatialCellsForNumber this number.
Proof. reflexivity. Qed.

Lemma NoDup_footprint (this : WorldSystem.t) (number : NumberEntity.t Q) :
  NoDup (WorldSystem.getSpatialCellsForNumber this number).
Proof. apply NoDup_cellKeys. Qed.

(** The grid after [removeFromSpatialGrid], bucket by bucket. *)
Lemma removeFromSpatialGrid_lookup (this : WorldSystem.t) (number : NumberEntity.t Q)
    (k : Z * Z) :
  WorldSystem.spatialGrid (WorldSystem.removeFromSpatialGrid this number) !! k
  = if decide (k ∈ WorldSystem.getSpatialCellsForNumber this number)
    then dropId (NumberEntity.id number) <$> WorldSystem.spatialGrid this !! k
    else WorldSystem.spatialGrid this !! k.
Proof.
  unfold WorldSystem.removeFromSpatialGrid.
  cbn [WorldSystem.spatialGrid WorldSystem.with_spatialGrid].
  destruct (decide _) as [Hin | Hout].
  - apply fold_buckets_in; [| | apply NoDup_footprint | apply list_elem_of_In, Hin].
    + intros grid key. unfold dropId. destruct (grid !! key) as [cell |] eqn:Hcell.
      * cbn [fmap option_fmap option_map].
        destruct (findIndex _ cell); [apply lookup_insert_eq | exact Hcell].
      * exact Hcell.
    + intros grid key k' Hne. destruct (grid !! key) as [cell |]; [| reflexivity].
      destruct (findIndex _ cell); [| reflexivity].
      apply lookup_insert_ne. congruence.
  - apply fold_buckets_notin; [| rewrite <- list_elem_of_In; exact Hout].
    intros grid key k' Hne. destruct (grid !! key) as [cell |]; [| reflexivity].
    destruct (findIndex _ cell); [| reflexivity].
    apply lookup_insert_ne. congruence.
Qed.

(** The grid after [updateSpatialGrid], bucket by bucket. *)
Lemma updateSpatialGrid_lookup (this : WorldSystem.t) (number : NumberEntity.t Q)
    (k : Z * Z) :
  WorldSystem.spatialGrid (WorldSystem.updateSpatialGrid this number) !! k
  = if decide (k ∈ WorldSystem.getSpatialCellsForNumber this number)
    then (fun cell => dropId (NumberEntity.id number) cell ++ [number])
           <$> WorldSystem.spatialGrid this !! k
    else WorldSystem.spatialGrid this !! k.
Proof.
  unfold WorldSystem.updateSpatialGrid.
  cbn [WorldSystem.spatialGrid WorldSystem.with_spatialGrid].
  change (WorldSystem.getSpatialCellsForNumber
            (WorldSystem.removeFromSpatialGrid this number) number)
    with (WorldSystem.getSpatialCellsForNumber this number).
  pose proof (removeFromSpatialGrid_lookup this number k) as Hrm.
  destruct (decide _) as [Hin | Hout].
  - rewrite (fold_buckets_in _ (fun cell => cell ++ [number]));
      [| | | apply NoDup_footprint | apply list_elem_of_In, Hin].
    + rewrite Hrm. destruct (WorldSystem.spatialGrid this !! k); reflexivity.
    + intros grid key. destruct (grid !! key) as [cell |] eqn:Hcell.
      * rewrite lookup_insert_eq. reflexivity.
      * rewrite Hcell. reflexivity.
    + intros grid key k' Hne. destruct (grid !! key) as [cell |]; [| reflexivity].
      apply lookup_insert_ne. congruence.
  - rewrite fold_buckets_notin; [exact Hrm | | rewrite <- list_elem_of_In; exact Hout].
    intros grid key k' Hne. destruct (grid !! key) as [cell |]; [| reflexivity].
    apply lookup_insert_ne. congruence.
Qed.

End SpatialHash.

Section SpatialHashFacts.
Local Open Scope Q_scope.

Lemma Qdiv_le_compat (a b size : Q) : 0 < size -> a <= b -> a / size <= b / size.
Proof.
  intros Hsize Hab. unfold Qdiv. apply Qmult_le_compat_r; [exact Hab |].
  apply Qinv_le_0_compat, Qlt_le_weak, Hsize.
Qed.

Lemma fold_insert_lookup {V : Type} (v : V) (keys : list (Z * Z)) (grid : gmap (Z * Z) V)
    (k : Z * Z) :
  fold_left (fun grid key => <[key := v]> grid) keys grid !! k
  = if decide (k ∈ keys) then Some v else grid !! k.
Proof.
  revert grid. induction keys as [| key keys IH]; intros grid; [reflexivity |].
  cbn [fold_left]. rewrite IH. destruct (decide (k ∈ keys)) as [Hin | Hout].
  - rewrite decide_True by (right; exact Hin). reflexivity.
  - destruct (decide (k = key)) as [-> | Hne].
    + rewrite decide_True by left. apply lookup_insert_eq.
    + rewrite decide_False by (intros H; apply list_elem_of_In in H as [H | H];
        [congruence | apply Hout, list_elem_of_In, H]).
      apply lookup_insert_ne. congruence.
Qed.

(** The buckets [initializeSpatialGrid] creates. *)
Lemma initializeSpatialGrid_lookup (this : WorldSystem.t) (gx gy : Z) :
  let cols := Qceiling (WorldSystem.getWorldWidth this / WorldSystem.spatialGridSize this) in
  let rows := Qceiling (WorldSystem.getWorldHeight this / WorldSystem.spatialGridSize this) in
  WorldSystem.spatialGrid (WorldSystem.initializeSpatialGrid this) !! (gx, gy)
  = if decide ((0 <= gx < cols)%Z /\ (0 <= gy < rows)%Z)
    then Some [] else WorldSystem.spatialGrid this !! (gx, gy).
Proof.
  cbv zeta. unfold WorldSystem.initializeSpatialGrid.
  cbn [WorldSystem.spatialGrid WorldSystem.with_spatialGrid].
  rewrite fold_insert_lookup.
  destruct (decide ((gx, gy) ∈ _)) as [Hin | Hout].
  - apply list_elem_of_In, In_cellKeys in Hin. rewrite decide_True by lia. reflexivity.
  - rewrite decide_False; [reflexivity |]. intros H. apply Hout, list_elem_of_In, In_cellKeys.
    lia.
Qed.

Lemma new_buckets_empty (k : Z * Z) (cell : list (NumberEntity.t Q)) :
  WorldSystem.spatialGrid WorldSystem.new !! k = Some cell -> cell = [].
Proof.
  destruct k as [gx gy]. unfold WorldSystem.new. rewrite initializeSpatialGrid_lookup.
  destruct (decide _); [congruence |].
  cbn [WorldSystem.spatialGrid]. rewrite lookup_empty. discriminate.
Qed.

Lemma find_last {A : Type} (p : A -> bool) (l : list A) (a : A) :
  (forall b, In b l -> p b = false) -> p a = true -> List.find p (l ++ [a]) = Some a.
Proof.
  induction l as [| b l IH]; intros H Ha; cbn [List.find app].
  - rewrite Ha. reflexivity.
  - rewrite (H b) by (left; reflexivity).
    apply IH; [intros c Hc; apply H; right; exact Hc | exact Ha].
Qed.

Lemma filter_all {A : Type} (p : A -> bool) (l : list A) :
  (forall b, In b l -> p b = true) -> List.filter p l = l.
Proof.
  induction l as [| b l IH]; intros H; [reflexivity |].
  cbn [List.filter]. rewrite (H b) by (left; reflexivity).
  rewrite IH by (intros c Hc; apply H; right; exact Hc). reflexivity.
Qed.

End SpatialHashFacts.

(** X5: with a positive spatial cell size, the footprint computed by
    [getSpatialCellsForNumber] contains the spatial cell of every point of
    the square [[x, x + cellSize] x [y, y + cellSize]] that starts at the
    entity's world position. *)
Theorem footprint_covers_entity (this : WorldSystem.t) (number : NumberEntity.t Q)
    (px py : Q) :
  (0 < WorldSystem.spatialGridSize this)%Q ->
  (Point.x (NumberEntity.worldPosition number) <= px
     <= Point.x (NumberEntity.worldPosition number) + WorldSystem.cellSize this)%Q ->
  (Point.y (NumberEntity.worldPosition number) <= py
     <= Point.y (NumberEntity.worldPosition number) + WorldSystem.cellSize this)%Q ->
  In (Qfloor (px / WorldSystem.spatialGridSize this),
      Qfloor (py / WorldSystem.spatialGridSize this))
     (WorldSystem.getSpatialCellsForNumber this number).
Proof.
  intros Hsize [Hx1 Hx2] [Hy1 Hy2]. unfold WorldSystem.getSpatialCellsForNumber.
  apply In_cellKeys. repeat split; apply Qfloor_resp_le, Qdiv_le_compat; assumption.
Qed.

Lemma footprint_covers_entity_witness :
  In (Qfloor (100 / WorldSystem.spatialGridSize WorldSystem.new),
      Qfloor (20 / WorldSystem.spatialGridSize WorldSystem.new))
     (WorldSystem.getSpatialCellsForNumber WorldSystem.new Samples.numberAtCol3).
Proof.
  apply (footprint_covers_entity WorldSystem.new Samples.numberAtCol3 100 20);
    vm_compute; intuition congruence.
Defined.

(** X6: the spatial index of a new [WorldSystem] has exactly the buckets
    [(gx, gy)] with [0 <= gx <= 12] and [0 <= gy <= 20] (the world is
    1300 x 2080 and a bucket is 100 wide), and each of them is empty. *)
Theorem new_index_buckets (gx gy : Z) :
  WorldSystem.spatialGrid WorldSystem.new !! (gx, gy)
  = if decide ((0 <= gx <= 12)%Z /\ (0 <= gy <= 20)%Z) then Some [] else None.
Proof.
  unfold WorldSystem.new. rewrite initializeSpatialGrid_lookup.
  cbn [WorldSystem.spatialGrid]. rewrite lookup_empty.
  replace (Qceiling _) with 13%Z by (vm_compute; reflexivity).
  replace (Qceiling _) with 21%Z by (vm_compute; reflexivity).
  destruct (decide ((0 <= gx <= 12)%Z /\ (0 <= gy <= 20)%Z)) as [H | H].
  - rewrite decide_True by lia. reflexivity.
  - rewrite decide_False by lia. reflexivity.
Qed.

(** X7: an entity whose footprint has no bucket in the index (it lies
    outside the world) is added to the store by [addNumber] but not to the
    spatial index: the index is unchanged, so [getVisibleNumbers] answers
    as before for every store state, while the store's own list holds the
    entity. *)
Theorem addNumber_off_grid_not_indexed (this : WorldSystem.t) (number : NumberEntity.t Q)
    (st st' : GameState.t Q) :
  (forall key, In key (WorldSystem.getSpatialCellsForNumber this number) ->
               WorldSystem.spatialGrid this !! key = None) ->
  WorldSystem.spatialGrid (fst (WorldSystem.addNumber this number st))
  = WorldSystem.spatialGrid this
  /\ WorldSystem.getVisibleNumbers (fst (WorldSystem.addNumber this number st)) st'
     = WorldSystem.getVisibleNumbers this st'
  /\ In number (World.numbers (GameState.world (snd (WorldSystem.addNumber this number st)))).
Proof.
  intros Hoff. cbn [WorldSystem.addNumber fst snd].
  assert (WorldSystem.spatialGrid (WorldSystem.updateSpatialGrid this number)
          = WorldSystem.spatialGrid this) as Hgrid.
  { apply map_eq. intros k. rewrite updateSpatialGrid_lookup.
    destruct (decide _) as [Hin | Hout]; [| reflexivity].
    rewrite (Hoff k) by (apply list_elem_of_In, Hin). reflexivity. }
  split; [exact Hgrid |]. split.
  - unfold WorldSystem.getVisibleNumbers. rewrite Hgrid. reflexivity.
  - cbn [gameStore.addNumber gameStore.with_world GameState.world World.numbers].
    apply in_or_app. right. left. reflexivity.
Qed.

Lemma addNumber_off_grid_not_indexed_witness :
  WorldSystem.spatialGrid
    (fst (WorldSystem.addNumber WorldSystem.new Samples.numberOffGrid
            Samples.originViewportStore))
  = WorldSystem.spatialGrid WorldSystem.new
  /\ WorldSystem.getVisibleNumbers
       (fst (WorldSystem.addNumber WorldSystem.new Samples.numberOffGrid
               Samples.originViewportStore))
       Samples.originViewportStore
     = WorldSystem.getVisibleNumbers WorldSystem.new Samples.originViewportStore
  /\ In Samples.numberOffGrid
       (World.numbers (GameState.world
          (snd (WorldSystem.addNumber WorldSystem.new Samples.numberOffGrid
                  Samples.originViewportStore)))).
Proof.
  apply (addNumber_off_grid_not_indexed WorldSystem.new Samples.numberOffGrid
           Samples.originViewportStore Samples.originViewportStore).
  intros key Hkey. vm_compute in Hkey. destruct Hkey as [<- | []].
  vm_compute. reflexivity.
Defined.

Section VisibleNumbers.
Local Open Scope Q_scope.

Lemma fold_push_filter {A : Type} (p : A -> bool) (cell acc : list A) :
  fold_left (fun visible a => if p a then visible ++ [a] else visible) cell acc
  = acc ++ List.filter p cell.
Proof.
  revert acc. induction cell as [| a cell IH]; intros acc; cbn [fold_left List.filter].
  - symmetry. apply app_nil_r.
  - rewrite IH. destruct (p a); [rewrite <- app_assoc |]; reflexivity.
Qed.

Lemma fold_cells_flat_map {A : Type} (p : A -> bool) (grid : gmap (Z * Z) (list A))
    (keys : list (Z * Z)) (acc : list A) :
  fold_left
    (fun visibleNumbers cellKey =>
       match grid !! cellKey with
       | Some cell =>
           fold_left (fun visible a => if p a then visible ++ [a] else visible)
                     cell visibleNumbers
       | None => visibleNumbers
       end) keys acc
  = acc ++ flat_map (fun key => match grid !! key with
                                | Some cell => List.filter p cell
                                | None => []
                                end) keys.
Proof.
  revert acc. induction keys as [| key keys IH]; intros acc; cbn [fold_left flat_map].
  - symmetry. apply app_nil_r.
  - rewrite IH. destruct (grid !! key) as [cell |].
    + rewrite fold_push_filter, <- app_assoc. reflexivity.
    + reflexivity.
Qed.

End VisibleNumbers.

(** X8: [getVisibleNumbers] returns exactly the entities that sit in a
    bucket of the index met by the viewport widened by 100 on each side and
    whose world position times the scale lies between [-100] and the
    viewport size plus [100]; the viewport origin drops out of that second
    test. *)
Theorem getVisibleNumbers_characterised (this : WorldSystem.t) (st : GameState.t Q)
    (n : NumberEntity.t Q) :
  let viewport := World.viewport (GameState.world st) in
  let scale := World.scale (GameState.world st) in
  let expanded :=
    Rectangle.mk (Rectangle.x viewport - 100)%Q (Rectangle.y viewport - 100)%Q
                 (Rectangle.width viewport + 200)%Q (Rectangle.height viewport + 200)%Q in
  In n (WorldSystem.getVisibleNumbers this st)
  <-> (exists key cell,
          In key (WorldSystem.getSpatialCellsInViewport this expanded)
          /\ WorldSystem.spatialGrid this !! key = Some cell /\ In n cell)
      /\ (-100 <= Point.x (NumberEntity.worldPosition n) * scale
            <= Rectangle.width viewport + 100)%Q
      /\ (-100 <= Point.y (NumberEntity.worldPosition n) * scale
            <= Rectangle.height viewport + 100)%Q.
Proof.
  cbv zeta. unfold WorldSystem.getVisibleNumbers.
  rewrite (fold_cells_flat_map
             (fun number => WorldSystem.isPointInViewport
                              (WorldSystem.worldToScreen st (NumberEntity.worldPosition number))
                              _)).
  cbn [app]. rewrite in_flat_map.
  assert (forall m : NumberEntity.t Q,
            WorldSystem.isPointInViewport
              (WorldSystem.worldToScreen st (NumberEntity.worldPosition m))
              (Rectangle.mk (Rectangle.x (World.viewport (GameState.world st)) - 100)%Q
                 (Rectangle.y (World.viewport (GameState.world st)) - 100)%Q
                 (Rectangle.width (World.viewport (GameState.world st)) + 200)%Q
                 (Rectangle.height (World.viewport (GameState.world st)) + 200)%Q) = true
            <-> (-100 <= Point.x (NumberEntity.worldPosition m)
                          * World.scale (GameState.world st)
                   <= Rectangle.width (World.viewport (GameState.world st)) + 100)%Q
                /\ (-100 <= Point.y (NumberEntity.worldPosition m)
                            * World.scale (GameState.world st)
                     <= Rectangle.height (World.viewport (GameState.world st)) + 100)%Q)
    as Htest.
  { intros m. unfold WorldSystem.isPointInViewport, WorldSystem.worldToScreen.
    cbn [Point.x Point.y Rectangle.x Rectangle.y Rectangle.width Rectangle.height].
    rewrite !andb_true_iff, !Qle_bool_iff.
    set (wx := (Point.x (NumberEntity.worldPosition m) * World.scale (GameState.world st))%Q).
    set (wy := (Point.y (NumberEntity.worldPosition m) * World.scale (GameState.world st))%Q).
    split; intros H; repeat split; lra. }
  split.
  - intros [key [Hkey Hn]]. destruct (WorldSystem.spatialGrid this !! key) as [cell |] eqn:Hcell;
      [| destruct Hn].
    apply filter_In in Hn as [Hn Hp]. split; [exists key, cell; auto |].
    apply Htest, Hp.
  - intros [[key [cell [Hkey [Hcell Hn]]]] Hbounds]. exists key. split; [exact Hkey |].
    rewrite Hcell. apply filter_In. split; [exact Hn | apply Htest, Hbounds].
Qed.

(** X9: adding an entity whose id is new (no entity of the store and no
    entity in any bucket has it) and then removing it by id gives back the
    spatial index and the store's list of numbers as they were. *)
Theorem addNumber_then_removeNumber (this : WorldSystem.t) (number : NumberEntity.t Q)
    (st : GameState.t Q) :
  (forall key cell n, WorldSystem.spatialGrid this !! key = Some cell -> In n cell ->
                      NumberEntity.id n <> NumberEntity.id number) ->
  (forall n, In n (World.numbers (GameState.world st)) ->
             NumberEntity.id n <> NumberEntity.id number) ->
  let added := WorldSystem.addNumber this number st in
  let removed := WorldSystem.removeNumber (fst added) (NumberEntity.id number) (snd added) in
  WorldSystem.spatialGrid (fst removed) = WorldSystem.spatialGrid this
  /\ World.numbers (GameState.world (snd removed)) = World.numbers (GameState.world st).
Proof.
  intros Hgrid Hstore. cbv zeta. cbn [WorldSystem.addNumber fst snd].
  unfold WorldSystem.removeNumber.
  cbn [gameStore.addNumber gameStore.with_world GameState.world World.numbers].
  rewrite (find_last _ _ number);
    [| intros n Hn; apply String.eqb_neq, Hstore, Hn | apply String.eqb_refl].
  cbn [fst snd]. split.
  - apply map_eq. intros k. rewrite removeFromSpatialGrid_lookup.
    change (WorldSystem.getSpatialCellsForNumber (WorldSystem.updateSpatialGrid this number)
              number)
      with (WorldSystem.getSpatialCellsForNumber this number).
    rewrite updateSpatialGrid_lookup.
    destruct (decide _) as [Hin | Hout]; [| reflexivity].
    destruct (WorldSystem.spatialGrid this !! k) as [cell |] eqn:Hcell; [| reflexivity].
    cbn [fmap option_fmap option_map]. f_equal.
    rewrite (dropId_absent _ cell) by (intros n Hn; exact (Hgrid k cell n Hcell Hn)).
    apply dropId_pushed. intros n Hn. exact (Hgrid k cell n Hcell Hn).
  - cbn [gameStore.removeNumber gameStore.addNumber gameStore.with_world GameState.world
         World.numbers World.viewport World.scale].
    rewrite List.filter_app. cbn [List.filter]. rewrite String.eqb_refl. cbn [negb].
    rewrite app_nil_r. apply filter_all. intros n Hn.
    apply negb_true_iff, String.eqb_neq, Hstore, Hn.
Qed.

Lemma addNumber_then_removeNumber_witness :
  WorldSystem.spatialGrid
    (fst (WorldSystem.removeNumber (fst Samples.afterAddNumber)
            (NumberEntity.id Samples.numberAtCol3) (snd Samples.afterAddNumber)))
  = WorldSystem.spatialGrid WorldSystem.new
  /\ World.numbers (GameState.world
       (snd (WorldSystem.removeNumber (fst Samples.afterAddNumber)
               (NumberEntity.id Samples.numberAtCol3) (snd Samples.afterAddNumber))))
     = World.numbers (GameState.world Samples.originViewportStore).
Proof.
  apply (addNumber_then_removeNumber WorldSystem.new Samples.numberAtCol3
           Samples.originViewportStore).
  - intros key cell n Hcell Hn. apply new_buckets_empty in Hcell. subst cell. destruct Hn.
  - intros n Hn. vm_compute in Hn. destruct Hn.
Defined.

(** X10: [updateNumberPosition] moves the entity in the store but not in
    the spatial index.  After an entity with a new id was added, moving it
    to any position leaves every bucket as it was (the entity stays listed
    under its old footprint, with its old position), while the store's
    list holds the entity at the new position. *)
Theorem updateNumberPosition_keeps_index (this : WorldSystem.t) (number : NumberEntity.t Q)
    (newPosition : Point.t Q) (st : GameState.t Q) :
  (forall key cell n, WorldSystem.spatialGrid this !! key = Some cell -> In n cell ->
                      NumberEntity.id n <> NumberEntity.id number) ->
  let added := WorldSystem.addNumber this number st in
  let moved := WorldSystem.updateNumberPosition (fst added) number newPosition (snd added) in
  WorldSystem.spatialGrid (fst moved) = WorldSystem.spatialGrid (fst added)
  /\ In (NumberEntity.movedTo newPosition number)
        (World.numbers (GameState.world (snd moved))).
Proof.
  intros Hgrid. cbv zeta. cbn [WorldSystem.addNumber WorldSystem.updateNumberPosition fst snd].
  split.
  - apply map_eq. intros k. rewrite (updateSpatialGrid_lookup (WorldSystem.updateSpatialGrid _ _)).
    change (WorldSystem.getSpatialCellsForNumber (WorldSystem.updateSpatialGrid this number)
              number)
      with (WorldSystem.getSpatialCellsForNumber this number).
    rewrite updateSpatialGrid_lookup.
    destruct (decide _) as [Hin | Hout]; [| reflexivity].
    destruct (WorldSystem.spatialGrid this !! k) as [cell |] eqn:Hcell; [| reflexivity].
    cbn [fmap option_fmap option_map]. f_equal.
    rewrite (dropId_absent _ cell) by (intros n Hn; exact (Hgrid k cell n Hcell Hn)).
    rewrite dropId_pushed by (intros n Hn; exact (Hgrid k cell n Hcell Hn)).
    reflexivity.
  - cbn [gameStore.updateNumber gameStore.addNumber gameStore.with_world GameState.world
         World.numbers World.viewport World.scale].
    rewrite map_app. apply in_or_app. right. cbn [map].
    rewrite String.eqb_refl. left. reflexivity.
Qed.

Lemma updateNumberPosition_keeps_index_witness :
  WorldSystem.spatialGrid
    (fst (WorldSystem.updateNumberPosition (fst Samples.afterAddNumber) Samples.numberAtCol3
            (Point.mk 1000 1500)%Q (snd Samples.afterAddNumber)))
  = WorldSystem.spatialGrid (fst Samples.afterAddNumber)
  /\ In (NumberEntity.movedTo (Point.mk 1000 1500)%Q Samples.numberAtCol3)
        (World.numbers (GameState.world
           (snd (WorldSystem.updateNumberPosition (fst Samples.afterAddNumber)
                   Samples.numberAtCol3 (Point.mk 1000 1500)%Q (snd Samples.afterAddNumber))))).
Proof.
  apply (updateNumberPosition_keeps_index WorldSystem.new Samples.numberAtCol3
           (Point.mk 1000 1500)%Q Samples.originViewportStore).
  intros key cell n Hcell Hn. apply new_buckets_empty in Hcell. subst cell. destruct Hn.
Defined.

(** X11: when the origin [updateViewportCenter] aims at,
    [center - (size / scale) / 2], is inside the clamp range on both axes,
    that is the origin it sets; the viewport's size, the scale and the
    numbers are kept. *)
Theorem updateViewportCenter_centres (this : WorldSystem.t) (center : Point.t Q)
    (st : GameState.t Q) :
  let v := World.viewport (GameState.world st) in
  let scale := World.scale (GameState.world st) in
  let margin := WorldSystem.viewportMargin this in
  let targetX := (Point.x center - Rectangle.width v / scale / 2)%Q in
  let targetY := (Point.y center - Rectangle.height v / scale / 2)%Q in
  let st' := WorldSystem.updateViewportCenter this center st in
  let v' := World.viewport (GameState.world st') in
  (- margin <= targetX <= WorldSystem.getWorldWidth this - Rectangle.width v + margin)%Q ->
  (- margin <= targetY <= WorldSystem.getWorldHeight this - Rectangle.height v + margin)%Q ->
  (Rectangle.x v' == targetX)%Q /\ (Rectangle.y v' == targetY)%Q
  /\ Rectangle.width v' = Rectangle.width v /\ Rectangle.height v' = Rectangle.height v
  /\ World.scale (GameState.world st') = scale
  /\ World.numbers (GameState.world st') = World.numbers (GameState.world st).
Proof.
  cbv zeta. intros Hx Hy. unfold WorldSystem.updateViewportCenter.
  cbn [gameStore.updateViewport gameStore.with_world GameState.world World.viewport
       World.scale World.numbers].
  unfold WorldSystem.constrainToWorldBounds.
  cbn [Rectangle.x Rectangle.y Rectangle.width Rectangle.height].
  split; [apply Qclamp_inside, Hx |]. split; [apply Qclamp_inside, Hy |].
  repeat split.
Qed.

Lemma updateViewportCenter_centres_witness :
  (Rectangle.x (World.viewport (GameState.world
      (WorldSystem.updateViewportCenter WorldSystem.new (Point.mk 650 1040)
         Samples.phoneViewportStore))) == 650 - 390 / 1 / 2)%Q
  /\ (Rectangle.y (World.viewport (GameState.world
      (WorldSystem.updateViewportCenter WorldSystem.new (Point.mk 650 1040)
         Samples.phoneViewportStore))) == 1040 - 650 / 1 / 2)%Q.
Proof.
  pose proof (updateViewportCenter_centres WorldSystem.new (Point.mk 650 1040)%Q
                Samples.phoneViewportStore) as H.
  cbv zeta in H. destruct H as [Hx [Hy _]].
  - vm_compute. split; discriminate.
  - vm_compute. split; discriminate.
  - split; [exact Hx | exact Hy].
Defined.

(** ** The store's actions *)

Section StoreLists.
Context {num : Type}.

Lemma map_unless_id {A : Type} (p : A -> bool) (f : A -> A) (l : list A) :
  (forall a, In a l -> p a = false) -> map (fun a => if p a then f a else a) l = l.
Proof.
  induction l as [| a l IH]; intros H; [reflexivity |].
  cbn [map]. rewrite (H a) by (left; reflexivity).
  rewrite IH by (intros b Hb; apply H; right; exact Hb). reflexivity.
Qed.

Lemma addLassoPoint_fold (ps : list (Point.t num)) (s : GameState.t num) :
  let s' := fold_left (fun s p => gameStore.addLassoPoint p s) ps s in
  LassoState.points (GameState.lasso s') = LassoState.points (GameState.lasso s) ++ ps
  /\ LassoState.isActive (GameState.lasso s') = LassoState.isActive (GameState.lasso s)
  /\ LassoState.isClosed (GameState.lasso s') = LassoState.isClosed (GameState.lasso s)
  /\ LassoState.capturedNumbers (GameState.lasso s')
     = LassoState.capturedNumbers (GameState.lasso s)
  /\ LassoState.centerPoint (GameState.lasso s') = LassoState.centerPoint (GameState.lasso s)
  /\ GameState.cursor s' = GameState.cursor s
  /\ GameState.world s' = GameState.world s
  /\ GameState.capturedNumbers s' = GameState.capturedNumbers s.
Proof.
  cbv zeta. revert s. induction ps as [| p ps IH]; intros s; cbn [fold_left].
  - rewrite app_nil_r. repeat split.
  - destruct (IH (gameStore.addLassoPoint p s)) as (H1 & H2 & H3 & H4 & H5 & H6 & H7 & H8).
    rewrite H1, H2, H3, H4, H5, H6, H7, H8.
    cbn [gameStore.addLassoPoint gameStore.with_lasso GameState.lasso GameState.cursor
         GameState.world GameState.capturedNumbers LassoState.points LassoState.isActive
         LassoState.isClosed LassoState.capturedNumbers LassoState.centerPoint].
    rewrite <- app_assoc. repeat split.
Qed.

End StoreLists.

(** X12: [updateNumber] and [removeNumber] called with an id that no
    entity of the store has leave the list of numbers as it is. *)
Theorem unknown_id_leaves_numbers {num : Type} (id : string)
    (updates : NumberEntity.t num -> NumberEntity.t num) (s : GameState.t num) :
  (forall n, In n (World.numbers (GameState.world s)) -> NumberEntity.id n <> id) ->
  World.numbers (GameState.world (gameStore.updateNumber id updates s))
  = World.numbers (GameState.world s)
  /\ World.numbers (GameState.world (gameStore.removeNumber id s))
     = World.numbers (GameState.world s).
Proof.
  intros Hfresh.
  cbn [gameStore.updateNumber gameStore.removeNumber gameStore.with_world GameState.world
       World.numbers].
  split.
  - apply map_unless_id. intros n Hn. apply String.eqb_neq, Hfresh, Hn.
  - apply filter_all. intros n Hn. apply negb_true_iff, String.eqb_neq, Hfresh, Hn.
Qed.

Lemma unknown_id_leaves_numbers_witness :
  World.numbers (GameState.world
    (gameStore.updateNumber "number_9_9_0_0.5" (NumberEntity.movedTo (Point.mk 0 0)%Q)
       (snd Samples.afterAddNumber)))
  = World.numbers (GameState.world (snd Samples.afterAddNumber))
  /\ World.numbers (GameState.world
       (gameStore.removeNumber "number_9_9_0_0.5" (snd Samples.afterAddNumber)))
     = World.numbers (GameState.world (snd Samples.afterAddNumber)).
Proof.
  apply (unknown_id_leaves_numbers "number_9_9_0_0.5" (NumberEntity.movedTo (Point.mk 0 0)%Q)
           (snd Samples.afterAddNumber)).
  intros n Hn. vm_compute in Hn. destruct Hn as [<- | []]. vm_compute. discriminate.
Defined.

(** X13: a lasso that is started at [center], fed the points [ps] and
    closed holds the trail [center :: ps], is active and closed, has
    [center] as its centre point and an empty list of captured numbers
    (none of these actions computes a capture); cursor, world and captured
    numbers of the store are untouched; [resetLasso] then gives the
    lasso of the initial state. *)
Theorem lasso_life_cycle {num : Type} (zero one glow : num) (center : Point.t num)
    (ps : list (Point.t num)) (s : GameState.t num) :
  let drawn :=
    gameStore.closeLasso
      (fold_left (fun s p => gameStore.addLassoPoint p s) ps (gameStore.startLasso center s)) in
  GameState.lasso drawn = LassoState.mk (center :: ps) true true [] center
  /\ GameState.cursor drawn = GameState.cursor s
  /\ GameState.world drawn = GameState.world s
  /\ GameState.capturedNumbers drawn = GameState.capturedNumbers s
  /\ GameState.lasso (gameStore.resetLasso zero drawn)
     = GameState.lasso (gameStore.initialGameState zero one glow).
Proof.
  cbv zeta.
  destruct (addLassoPoint_fold ps (gameStore.startLasso center s))
    as (H1 & H2 & H3 & H4 & H5 & H6 & H7 & H8).
  cbn [gameStore.closeLasso gameStore.with_lasso GameState.lasso GameState.cursor
       GameState.world GameState.capturedNumbers].
  rewrite H1, H2, H4, H5, H6, H7, H8. repeat split.
Qed.

(** ** Closing a lasso: capture and trail spacing *)

Section LassoFacts.
Local Open Scope R_scope.



Lemma distance_three_quarters :
  distance (Point.mk 200 300) (Point.mk 199.25 300) = 0.75.
Proof.
  unfold distance. cbn [Point.x Point.y].
  replace ((200 - 199.25) * (200 - 199.25) + (300 - 300) * (300 - 300))
    with (0.75 * 0.75) by lra.
  apply sqrt_square. lra.
Qed.


End LassoFacts.



(** C7 fails on the code: the store appends every point it is handed;
    the spacing constant [GameConfig.lasso.segmentLength] (3 pixels
    between trail points) is not consulted.  A lasso started at (200, 300)
    and handed (199.25, 300) holds both points, 0.75 apart. *)
Theorem addLassoPoint_ignores_segmentLength :
  LassoState.points (GameState.lasso Samples.lassoWithClosePoints)
  = [Point.mk 200 300; Point.mk 199.25 300]%R
  /\ distance (Point.mk 200 300)%R (Point.mk 199.25 300)%R = 0.75%R
  /\ (0.75 < GameConfig.lasso_segmentLength)%R
  /\ ~ spacedAtLeast GameConfig.lasso_segmentLength
         (LassoState.points (GameState.lasso Samples.lassoWithClosePoints)).
Proof.
  assert (LassoState.points (GameState.lasso Samples.lassoWithClosePoints)
          = [Point.mk 200 300; Point.mk 199.25 300]%R) as Hpoints by reflexivity.
  rewrite Hpoints. split; [reflexivity |]. split; [exact distance_three_quarters |].
  unfold GameConfig.lasso_segmentLength. split; [lra |].
  cbn [spacedAtLeast]. rewrite distance_three_quarters. intros [H _]. lra.
Qed.

(** ** Session progress and score *)

Section SessionFacts.
Local Open Scope Q_scope.

Lemma Qmin_100_percent (n : Q) : Qmin 100 (n / GameConfig.session_targetNumbers * 100) == Qmin 100 n.
Proof.
  assert (n / GameConfig.session_targetNumbers * 100 == n) as H
    by (unfold GameConfig.session_targetNumbers; field).
  rewrite H. reflexivity.
Qed.

Lemma addCapturedNumber_fold (ids : list string) (s : sessionStore.t) :
  Session.capturedNumbers
    (sessionStore.session (fold_left (fun s id => sessionStore.addCapturedNumber id s) ids s))
  = Session.capturedNumbers (sessionStore.session s) ++ ids.
Proof.
  revert s. induction ids as [| id ids IH]; intros s; cbn [fold_left].
  - symmetry. apply app_nil_r.
  - rewrite IH. cbn [sessionStore.addCapturedNumber sessionStore.session
                     Session.capturedNumbers].
    rewrite <- app_assoc. reflexivity.
Qed.

Lemma updateScore_keeps_zero (points : Q) (combo : option Q) (s : sessionStore.t) :
  match combo with Some c => c == 0 | None => True end ->
  Session.combo (sessionStore.session s) == 0 ->
  Session.score (sessionStore.session (sessionStore.updateScore points combo s))
    == Session.score (sessionStore.session s)
  /\ Session.combo (sessionStore.session (sessionStore.updateScore points combo s)) == 0.
Proof.
  intros Hcombo Hzero.
  cbn [sessionStore.updateScore sessionStore.session Session.score Session.combo].
  destruct combo as [c |].
  - apply Qeq_bool_iff in Hcombo. rewrite Hcombo. rewrite Hzero. split; [ring | reflexivity].
  - rewrite Hzero. split; [ring | reflexivity].
Qed.

(** In the exact arithmetic of the model the progress is the number of
    captures capped at 100. *)
Lemma progress_of_captures (ids : list string) :
  Session.progress
    (sessionStore.session
       (fold_left (fun s id => sessionStore.addCapturedNumber id s) ids sessionStore.initial))
  == Qmin 100 (inject_Z (Z.of_nat (length ids)))
  /\ sessionStore.statusBar_progress
       (fold_left (fun s id => sessionStore.addCapturedNumber id s) ids sessionStore.initial)
     = Session.progress
         (sessionStore.session
            (fold_left (fun s id => sessionStore.addCapturedNumber id s) ids
               sessionStore.initial)).
Proof.
  destruct ids as [| id ids] using rev_ind.
  - cbn. split; reflexivity.
  - rewrite fold_left_app. cbn [fold_left].
    cbn [sessionStore.addCapturedNumber sessionStore.session sessionStore.statusBar_progress
         Session.progress].
    split; [| reflexivity].
    rewrite addCapturedNumber_fold. cbn [sessionStore.initial sessionStore.session
                                        Session.capturedNumbers app].
    apply Qmin_100_percent.
Qed.

End SessionFacts.

(** X14: after the ids [ids] were captured one by one from the initial
    session, the session lists them in order (repeated ids included); the
    progress is the same in the session and in the status bar, lies
    between 0 and 100, is below 100 while fewer than 100 numbers were
    captured and is 100 from the hundredth capture on; and one more
    capture never lowers it. *)
Theorem capture_progress (ids : list string) (id : string) :
  let run := fun l =>
    fold_left (fun s id => sessionStore.addCapturedNumber id s) l sessionStore.initial in
  let progress := Session.progress (sessionStore.session (run ids)) in
  Session.capturedNumbers (sessionStore.session (run ids)) = ids
  /\ sessionStore.statusBar_progress (run ids) = progress
  /\ (0 <= progress <= 100)%Q
  /\ (((length ids < 100)%nat /\ progress < 100)
      \/ ((100 <= length ids)%nat /\ progress == 100))%Q
  /\ (progress <= Session.progress (sessionStore.session (run (ids ++ [id]))))%Q.
Proof.
  cbv zeta. split; [apply (addCapturedNumber_fold ids sessionStore.initial) |].
  destruct (progress_of_captures ids) as [Hp Hbar].
  destruct (progress_of_captures (ids ++ [id])) as [Hp' _].
  split; [exact Hbar |].
  rewrite Hp, Hp'. rewrite length_app. cbn [length].
  assert (0 <= inject_Z (Z.of_nat (length ids)))%Q as Hn
    by (change 0%Q with (inject_Z 0); rewrite <- Zle_Qle; lia).
  split; [split; [apply Q.min_glb; lra | apply Q.le_min_l] |].
  split.
  - destruct (Nat.lt_ge_cases (length ids) 100) as [Hlt | Hge].
    + left. split; [exact Hlt |].
      apply Qle_lt_trans with (inject_Z (Z.of_nat (length ids))); [apply Q.le_min_r |].
      change 100%Q with (inject_Z 100). rewrite <- Zlt_Qlt. lia.
    + right. split; [exact Hge |]. apply Q.min_l.
      change 100%Q with (inject_Z 100). rewrite <- Zle_Qle. lia.
  - apply Q.min_glb; [apply Q.le_min_l |].
    apply Qle_trans with (inject_Z (Z.of_nat (length ids))); [apply Q.le_min_r |].
    rewrite <- Zle_Qle. lia.
Qed.

(** X15: from the initial session, whose combo is [0], calls of
    [updateScore] that pass no combo, or the combo [0], never change the
    score: it stays [0] whatever the points are. *)
Theorem score_stuck_without_combo (calls : list (Q * option Q)) :
  Forall (fun call => match snd call with Some c => (c == 0)%Q | None => True end) calls ->
  let s := fold_left (fun s call => sessionStore.updateScore (fst call) (snd call) s)
             calls sessionStore.initial in
  (Session.score (sessionStore.session s) == 0)%Q
  /\ (Session.combo (sessionStore.session s) == 0)%Q.
Proof.
  intros Hcalls. cbv zeta.
  assert (forall s0,
            (Session.score (sessionStore.session s0) == 0)%Q ->
            (Session.combo (sessionStore.session s0) == 0)%Q ->
            (Session.score (sessionStore.session
               (fold_left (fun s call => sessionStore.updateScore (fst call) (snd call) s)
                  calls s0)) == 0)%Q
            /\ (Session.combo (sessionStore.session
                  (fold_left (fun s call => sessionStore.updateScore (fst call) (snd call) s)
                     calls s0)) == 0)%Q) as Hgen.
  { induction Hcalls as [| call calls Hcall _ IH]; intros s0 Hscore Hcombo; cbn [fold_left].
    - split; assumption.
    - destruct (updateScore_keeps_zero (fst call) (snd call) s0 Hcall Hcombo) as [H1 H2].
      apply IH; [rewrite H1; exact Hscore | exact H2]. }
  apply Hgen; reflexivity.
Qed.

Lemma score_stuck_without_combo_witness :
  (Session.score (sessionStore.session
     (fold_left (fun s call => sessionStore.updateScore (fst call) (snd call) s)
        [(10, None); (25, Some 0); (5, None)]%Q sessionStore.initial)) == 0)%Q
  /\ (Session.combo (sessionStore.session
     (fold_left (fun s call => sessionStore.updateScore (fst call) (snd call) s)
        [(10, None); (25, Some 0); (5, None)]%Q sessionStore.initial)) == 0)%Q.
Proof.
  apply (score_stuck_without_combo [(10, None); (25, Some 0); (5, None)]%Q).
  repeat constructor.
Defined.

(** ** Rendering: fisheye and jitter *)

Section Rendering.
Local Open Scope R_scope.
Import MDRTerminalGrid.

Lemma fisheye_ranges (cellX cellY cursorX cursorY : R) :
  let f := getFisheyeTransform cellX cellY cursorX cursorY in
  1 <= FisheyeTransform.scale f <= 1.2
  /\ FisheyeTransform.nudgeX f * FisheyeTransform.nudgeX f
     + FisheyeTransform.nudgeY f * FisheyeTransform.nudgeY f <= 9
  /\ 0 <= FisheyeTransform.nudgeX f * (cellX - cursorX)
  /\ 0 <= FisheyeTransform.nudgeY f * (cellY - cursorY).
Proof.
  cbv zeta. unfold getFisheyeTransform.
  set (dx := cellX - cursorX). set (dy := cellY - cursorY).
  assert (0 <= dx * dx + dy * dy) as Hsum by nra.
  pose proof (sqrt_pos (dx * dx + dy * dy)) as Hpos.
  pose proof (sqrt_sqrt _ Hsum) as Hsq.
  set (d := sqrt (dx * dx + dy * dy)) in *.
  destruct (Rgtb_spec d 80) as [[Hfar ->] | [Hnear ->]].
  - cbn. lra.
  - cbn [FisheyeTransform.scale FisheyeTransform.nudgeX FisheyeTransform.nudgeY].
    set (falloff := 1 - d / 80).
    assert (0 <= falloff <= 1) as Hfall by (unfold falloff; lra).
    split; [lra |].
    destruct (Rgtb_spec d 0) as [[Hd ->] | [Hd ->]]; [| nra].
    set (ux := dx / d). set (uy := dy / d).
    assert (dx = ux * d) as Hux by (unfold ux; field; lra).
    assert (dy = uy * d) as Huy by (unfold uy; field; lra).
    assert (ux * ux + uy * uy = 1) as Hunit.
    { assert ((ux * ux + uy * uy) * (d * d) = d * d) as H.
      { replace ((ux * ux + uy * uy) * (d * d)) with (ux * d * (ux * d) + uy * d * (uy * d))
          by ring.
        rewrite <- Hux, <- Huy. symmetry. exact Hsq. }
      apply (Rmult_eq_reg_r (d * d)); [rewrite H; ring | nra]. }
    split; [| split].
    + replace (ux * (falloff * 3) * (ux * (falloff * 3)) + uy * (falloff * 3) * (uy * (falloff * 3)))
        with ((ux * ux + uy * uy) * (falloff * falloff) * 9) by ring.
      rewrite Hunit. nra.
    + rewrite Hux. replace (ux * (falloff * 3) * (ux * d)) with ((ux * ux) * (falloff * 3 * d))
        by ring.
      apply Rmult_le_pos; nra.
    + rewrite Huy. replace (uy * (falloff * 3) * (uy * d)) with ((uy * uy) * (falloff * 3 * d))
        by ring.
      apply Rmult_le_pos; nra.
Qed.

Lemma square_sum_bound (a b : R) : a * a + b * b <= 9 -> -3 <= a <= 3 /\ -3 <= b <= 3.
Proof. intros H. split; split; nra. Qed.

Lemma multiplier_range (intensity : TuningConfig.JitterIntensity) :
  0 < JITTER_PRESETS_multiplier intensity <= 1.
Proof. destruct intensity; cbn; lra. Qed.

Lemma scaled_wave (w amplitude m : R) :
  -1 <= w <= 1 -> 0 <= amplitude -> 0 < m <= 1 ->
  - amplitude <= w * (amplitude * m) <= amplitude.
Proof. intros Hw Ha Hm. assert (0 <= amplitude * m <= amplitude) by nra. nra. Qed.

Lemma jitter_ranges (s : t) (jitterType : Z) (jitterPhase : R) :
  let offset := getJitterOffset s jitterType jitterPhase in
  -15 <= JitterOffset.x offset <= 15
  /\ -12 <= JitterOffset.y offset <= 12
  /\ JitterOffset.opacity offset = 1.
Proof.
  cbv zeta. unfold getJitterOffset.
  pose proof (multiplier_range (TuningConfig.Jitter.intensity (TuningConfig.jitter (config s))))
    as Hm.
  set (m := JITTER_PRESETS_multiplier _) in *.
  assert (forall w amplitude, -1 <= w <= 1 -> 0 <= amplitude ->
                              - amplitude <= w * (amplitude * m) <= amplitude) as Hwave
    by (intros; apply scaled_wave; assumption).
  repeat match goal with
         | |- context [if ?c then _ else _] => destruct c
         end;
    cbn [JitterOffset.x JitterOffset.y JitterOffset.opacity];
    repeat match goal with
           | |- context [sin ?a * (?k * m)] =>
               let H := fresh in
               pose proof (Hwave (sin a) k (SIN_bound a) ltac:(lra)) as H;
               generalize dependent (sin a * (k * m)); intros
           | |- context [cos ?a * (?k * m)] =>
               let H := fresh in
               pose proof (Hwave (cos a) k (COS_bound a) ltac:(lra)) as H;
               generalize dependent (cos a * (k * m)); intros
           end;
    (split; [lra | split; [lra | reflexivity]]).
Qed.

End Rendering.

(** X16: the fisheye never shrinks a glyph and never magnifies it by more
    than 1.2; the nudge is at most 3 pixels long and points away from the
    cursor; a cell exactly under the cursor gets the full magnification
    1.2 and no nudge (the division by the zero distance is not taken). *)
Theorem getFisheyeTransform_bounds (cellX cellY cursorX cursorY : R) :
  let f := MDRTerminalGrid.getFisheyeTransform cellX cellY cursorX cursorY in
  let centred := MDRTerminalGrid.getFisheyeTransform cursorX cursorY cursorX cursorY in
  (1 <= MDRTerminalGrid.FisheyeTransform.scale f <= 1.2)%R
  /\ (MDRTerminalGrid.FisheyeTransform.nudgeX f * MDRTerminalGrid.FisheyeTransform.nudgeX f
      + MDRTerminalGrid.FisheyeTransform.nudgeY f * MDRTerminalGrid.FisheyeTransform.nudgeY f
      <= 3 * 3)%R
  /\ (0 <= MDRTerminalGrid.FisheyeTransform.nudgeX f * (cellX - cursorX))%R
  /\ (0 <= MDRTerminalGrid.FisheyeTransform.nudgeY f * (cellY - cursorY))%R
  /\ MDRTerminalGrid.FisheyeTransform.scale centred = 1.2%R
  /\ MDRTerminalGrid.FisheyeTransform.nudgeX centred = 0%R
  /\ MDRTerminalGrid.FisheyeTransform.nudgeY centred = 0%R.
Proof.
  cbv zeta.
  destruct (fisheye_ranges cellX cellY cursorX cursorY) as (H1 & H2 & H3 & H4).
  cbv zeta in *. split; [exact H1 |]. split; [lra |]. split; [exact H3 |]. split; [exact H4 |].
  unfold MDRTerminalGrid.getFisheyeTransform.
  replace ((cursorX - cursorX) * (cursorX - cursorX) + (cursorY - cursorY) * (cursorY - cursorY))%R
    with 0%R by ring.
  rewrite sqrt_0, (Rgtb_false 0 80) by lra. rewrite (Rgtb_false 0 0) by lra.
  cbn [MDRTerminalGrid.FisheyeTransform.scale MDRTerminalGrid.FisheyeTransform.nudgeX
       MDRTerminalGrid.FisheyeTransform.nudgeY].
  split; [lra | split; reflexivity].
Qed.

(** X17: whatever the tuning and the time, [getJitterOffset] moves a digit
    by at most 15 pixels horizontally and 12 pixels vertically and leaves
    it fully opaque. *)
Theorem getJitterOffset_bounds (s : MDRTerminalGrid.t) (jitterType : Z) (jitterPhase : R) :
  let offset := MDRTerminalGrid.getJitterOffset s jitterType jitterPhase in
  (Rabs (MDRTerminalGrid.JitterOffset.x offset) <= 15)%R
  /\ (Rabs (MDRTerminalGrid.JitterOffset.y offset) <= 12)%R
  /\ MDRTerminalGrid.JitterOffset.opacity offset = 1%R.
Proof.
  cbv zeta. destruct (jitter_ranges s jitterType jitterPhase) as (Hx & Hy & Ho).
  cbv zeta in *. split; [apply Rabs_le; lra |]. split; [apply Rabs_le; lra | exact Ho].
Qed.

(** X18: the glyph drawn for a cell is a box of width [fontSize] between
    16 and 19.2 and of height [1.25 * fontSize], fully opaque, whose
    centre is at most 18 pixels to the side of and 15 pixels above or
    below the cell's base position, wherever the cursor is. *)
Theorem cellStyle_stays_near_base (s : MDRTerminalGrid.t) (cell : MDRTerminalGrid.Cell.t) :
  let style := MDRTerminalGrid.cellStyle s cell in
  let centreX :=
    (MDRTerminalGrid.TextStyle.left style + MDRTerminalGrid.TextStyle.width style / 2)%R in
  let centreY :=
    (MDRTerminalGrid.TextStyle.top style + MDRTerminalGrid.TextStyle.height style / 2)%R in
  (16 <= MDRTerminalGrid.TextStyle.fontSize style <= 19.2)%R
  /\ MDRTerminalGrid.TextStyle.width style = MDRTerminalGrid.TextStyle.fontSize style
  /\ MDRTerminalGrid.TextStyle.height style
     = (1.25 * MDRTerminalGrid.TextStyle.fontSize style)%R
  /\ (Rabs (centreX - MDRTerminalGrid.Cell.baseX cell) <= 18)%R
  /\ (Rabs (centreY - MDRTerminalGrid.Cell.baseY cell) <= 15)%R
  /\ MDRTerminalGrid.TextStyle.opacity style = 1%R.
Proof.
  cbv zeta. unfold MDRTerminalGrid.cellStyle.
  cbn [MDRTerminalGrid.TextStyle.left MDRTerminalGrid.TextStyle.top
       MDRTerminalGrid.TextStyle.fontSize MDRTerminalGrid.TextStyle.width
       MDRTerminalGrid.TextStyle.height MDRTerminalGrid.TextStyle.opacity].
  destruct (fisheye_ranges (MDRTerminalGrid.Cell.baseX cell) (MDRTerminalGrid.Cell.baseY cell)
              (Point.x (MDRTerminalGrid.cursorPosition s))
              (Point.y (MDRTerminalGrid.cursorPosition s))) as (Hs & Hn & _).
  destruct (jitter_ranges s (MDRTerminalGrid.Cell.jitterType cell)
              (MDRTerminalGrid.Cell.jitterPhase cell)) as (Hx & Hy & Ho).
  cbv zeta in *. apply square_sum_bound in Hn as [Hnx Hny].
  set (f := MDRTerminalGrid.getFisheyeTransform _ _ _ _) in *.
  set (j := MDRTerminalGrid.getJitterOffset _ _ _) in *.
  split; [lra |]. split; [reflexivity |]. split; [lra |].
  split; [apply Rabs_le; lra |]. split; [apply Rabs_le; lra | exact Ho].
Qed.

(** ** The grid of cells *)

Section GridLayout.
Local Open Scope R_scope.
Import MDRTerminalGrid.

Lemma jsRem_range (a b : R) : 0 <= a -> 0 < b -> 0 <= jsRem a b < b.
Proof.
  intros Ha Hb. unfold jsRem.
  assert (0 <= a / b) as Hq by (apply Rmult_le_pos; [exact Ha | left; apply Rinv_0_lt_compat, Hb]).
  destruct (Rle_dec 0 (a / b)) as [_ | Hneg]; [| contradiction].
  pose proof (Zfloor_bound (a / b)) as [Hlo Hhi].
  assert (a = a / b * b) as Hab by (field; lra).
  set (q := a / b) in *. set (k := IZR (Zfloor q)) in *.
  rewrite Hab. split; nra.
Qed.

(** The base position of the cell in column [col] of a row of [cols]
    cells of size [size] across a span of [span] pixels. *)
Lemma base_inside (span size : R) (col : Z) :
  0 < size -> (0 <= col < Zfloor (span / size))%Z ->
  size / 2 <= IZR col * size + size / 2 <= span - size / 2.
Proof.
  intros Hsize [Hlo Hhi].
  pose proof (Zfloor_bound (span / size)) as [Hfloor _].
  assert (IZR col + 1 <= IZR (Zfloor (span / size))) as Hnext
    by (rewrite <- plus_IZR; apply IZR_le; lia).
  assert (0 <= IZR col) as Hcol by (apply IZR_le in Hlo; exact Hlo).
  assert (span = span / size * size) as Hspan by (field; lra).
  set (q := span / size) in *. split; [nra |]. rewrite Hspan. nra.
Qed.

Lemma upto_length (n : Z) : length (upto 0 (n - 1)) = Z.to_nat n.
Proof. unfold upto. rewrite length_map, length_seq. f_equal. lia. Qed.

End GridLayout.

(** X19: every cell of the grid has a digit between 0 and 9, a jitter
    class between 0 and 99 and a phase in [[0, 2 * PI)], also where the
    products of the seeds wrap around 32 bits. *)
Theorem makeCell_ranges (s : MDRTerminalGrid.t) (row col : Z) :
  let cell := MDRTerminalGrid.makeCell s row col in
  (0 <= MDRTerminalGrid.Cell.digit cell <= 9)%Z
  /\ (0 <= MDRTerminalGrid.Cell.jitterType cell <= 99)%Z
  /\ (0 <= MDRTerminalGrid.Cell.jitterPhase cell < 2 * PI)%R.
Proof.
  cbv zeta. unfold MDRTerminalGrid.makeCell.
  cbn [MDRTerminalGrid.Cell.digit MDRTerminalGrid.Cell.jitterType
       MDRTerminalGrid.Cell.jitterPhase].
  split; [| split].
  - pose proof (Z.rem_bound_pos (Z.abs (bitxor (col * 73856093) (row * 19349663))) 10
                  (Z.abs_nonneg _) ltac:(lia)). lia.
  - pose proof (Z.rem_bound_pos (Z.abs (bitxor (col * 12345) (row * 67890))) 100
                  (Z.abs_nonneg _) ltac:(lia)). lia.
  - pose proof PI_RGT_0 as Hpi.
    pose proof (jsRem_range (IZR (Z.abs (bitxor (col * 12345) (row * 67890))) * 0.01) (PI * 2))
      as Hrem.
    assert (0 <= IZR (Z.abs (bitxor (col * 12345) (row * 67890))))%R as Habs
      by (apply IZR_le, Z.abs_nonneg).
    destruct Hrem as [H1 H2]; [nra | lra |]. lra.
Qed.

(** X20: with positive cell sizes, the grid has [rows] rows of [cols]
    cells, [grid[row][col]] is the cell made for [(row, col)], and its base
    position is at least half a cell away from the left, right and top
    sides of the window and from the line 120 pixels above its bottom. *)
Theorem grid_cells_inside_window (s : MDRTerminalGrid.t) (row col : Z) :
  (0 < MDRTerminalGrid.CELL_SIZE s)%R ->
  (0 < MDRTerminalGrid.CELL_HEIGHT s)%R ->
  (0 <= row < MDRTerminalGrid.rows s)%Z ->
  (0 <= col < MDRTerminalGrid.cols s)%Z ->
  let grid := MDRTerminalGrid.generateJitteryGrid s in
  let cell := MDRTerminalGrid.makeCell s row col in
  length grid = Z.to_nat (MDRTerminalGrid.rows s)
  /\ (exists cells, nth_error grid (Z.to_nat row) = Some cells
                    /\ length cells = Z.to_nat (MDRTerminalGrid.cols s)
                    /\ nth_error cells (Z.to_nat col) = Some cell)
  /\ (MDRTerminalGrid.CELL_SIZE s / 2 <= MDRTerminalGrid.Cell.baseX cell
        <= MDRTerminalGrid.screenWidth s - MDRTerminalGrid.CELL_SIZE s / 2)%R
  /\ (MDRTerminalGrid.CELL_HEIGHT s / 2 <= MDRTerminalGrid.Cell.baseY cell
        <= MDRTerminalGrid.screenHeight s - 120 - MDRTerminalGrid.CELL_HEIGHT s / 2)%R.
Proof.
  intros Hsize Hheight Hrow Hcol. cbv zeta. split; [| split; [| split]].
  - unfold MDRTerminalGrid.generateJitteryGrid. rewrite length_map. apply upto_length.
  - unfold MDRTerminalGrid.generateJitteryGrid.
    rewrite nth_error_map, (upto_nth_error _ _ Hrow). cbn [option_map].
    eexists. split; [reflexivity |]. split.
    + rewrite length_map. apply upto_length.
    + rewrite nth_error_map, (upto_nth_error _ _ Hcol). reflexivity.
  - apply base_inside; assumption.
  - apply base_inside; assumption.
Qed.

Lemma grid_cells_inside_window_witness :
  length (MDRTerminalGrid.generateJitteryGrid Samples.gridOnPhone)
  = Z.to_nat (MDRTerminalGrid.rows Samples.gridOnPhone)
  /\ (exists cells,
         nth_error (MDRTerminalGrid.generateJitteryGrid Samples.gridOnPhone) (Z.to_nat 3)
         = Some cells
         /\ length cells = Z.to_nat (MDRTerminalGrid.cols Samples.gridOnPhone)
         /\ nth_error cells (Z.to_nat 4)
            = Some (MDRTerminalGrid.makeCell Samples.gridOnPhone 3 4))
  /\ (MDRTerminalGrid.CELL_SIZE Samples.gridOnPhone / 2
        <= MDRTerminalGrid.Cell.baseX (MDRTerminalGrid.makeCell Samples.gridOnPhone 3 4)
        <= MDRTerminalGrid.screenWidth Samples.gridOnPhone
           - MDRTerminalGrid.CELL_SIZE Samples.gridOnPhone / 2)%R
  /\ (MDRTerminalGrid.CELL_HEIGHT Samples.gridOnPhone / 2
        <= MDRTerminalGrid.Cell.baseY (MDRTerminalGrid.makeCell Samples.gridOnPhone 3 4)
        <= MDRTerminalGrid.screenHeight Samples.gridOnPhone - 120
           - MDRTerminalGrid.CELL_HEIGHT Samples.gridOnPhone / 2)%R.
Proof.
  apply (grid_cells_inside_window Samples.gridOnPhone 3 4).
  - change (0 < 42)%R. lra.
  - change (0 < 42)%R. lra.
  - change (0 <= 3 < Zfloor ((844 - 120) / 42))%Z.
    assert (4 <= Zfloor ((844 - 120) / 42))%Z by (apply Zfloor_lub; lra). lia.
  - change (0 <= 4 < Zfloor (390 / 42))%Z.
    assert (5 <= Zfloor (390 / 42))%Z by (apply Zfloor_lub; lra). lia.
Defined.

(** ** The mounted grid under any sequence of events *)

Section GridReachable.
Local Open Scope R_scope.
Import MDRTerminalGrid.

(** Reduces the projections of a state built by the setters. *)
Ltac grid_fields :=
  cbn [perform onPanResponderGrant animate runTimeouts with_lastPanTime with_velocityTracker
       with_store setWorldScale setIsLassoMode setLassoPoints setCursorVelocity
       setTimeout_resetScale setInterval_applyMomentum triggerModeSwitch
       updateCursorPosition updateCursorVelocity setCursorMode cursorPosition
       store config screenWidth screenHeight globalTime worldScale isLassoMode lassoPoints
       cursorVelocity lastPanTime velocityTracker momentumAnimationRef intervals timeouts
       nextHandle modeSwitchFeedback
       gameStore.updateCursorPosition gameStore.updateCursorVelocity gameStore.setCursorMode
       gameStore.with_cursor GameState.cursor GameState.world GameState.lasso
       GameState.capturedNumbers CursorState.position CursorState.mode CursorState.velocity
       Point.x Point.y].

(** What no event changes once the component is out of lasso mode. *)
Lemma perform_keeps_mode (s : t) (a : Action) :
  isLassoMode s = false ->
  isLassoMode (perform s a) = false
  /\ lassoPoints (perform s a) = lassoPoints s
  /\ screenWidth (perform s a) = screenWidth s
  /\ screenHeight (perform s a) = screenHeight s
  /\ config (perform s a) = config s
  /\ CursorState.mode (GameState.cursor (store (perform s a)))
     = CursorState.mode (GameState.cursor (store s)).
Proof.
  intros Hmode. destruct a as [now | now currentTime g | g | handle | frameTime | now |];
    cbn [perform].
  - grid_fields. repeat split; assumption.
  - unfold onPanResponderMove.
    destruct (trackVelocity_frame now (now - lastPanTime s) g (with_lastPanTime now s))
      as (Hst & Hw & Hh & Hl & Hp & Hc & _).
    cbv zeta in *. rewrite Hl. grid_fields. rewrite Hmode.
    set (s2 := trackVelocity _ _ _ _) in *.
    unfold moveExploration. destruct (300 <? _)%Z; grid_fields;
      rewrite Hst, Hw, Hh, Hl, Hp, Hc; grid_fields; repeat split; assumption.
  - unfold onPanResponderRelease. rewrite Hmode. grid_fields. repeat split; assumption.
  - unfold intervalTick. destruct (List.find _ _) as [i |]; [| repeat split; assumption].
    unfold applyMomentum. destruct (Rltb _ 0.02 && Rltb _ 0.02).
    + unfold clearMomentumInterval. destruct (momentumAnimationRef s); grid_fields;
        repeat split; assumption.
    + grid_fields. repeat split; assumption.
  - grid_fields. repeat split; assumption.
  - grid_fields. repeat split; assumption.
  - unfold edgeDragPrevention. destruct (Rneqb _ _ || Rneqb _ _); grid_fields;
      repeat split; assumption.
Qed.

Lemma performAll_keeps_mode (actions : list Action) (s : t) :
  isLassoMode s = false ->
  isLassoMode (performAll actions s) = false
  /\ lassoPoints (performAll actions s) = lassoPoints s
  /\ screenWidth (performAll actions s) = screenWidth s
  /\ screenHeight (performAll actions s) = screenHeight s
  /\ config (performAll actions s) = config s
  /\ CursorState.mode (GameState.cursor (store (performAll actions s)))
     = CursorState.mode (GameState.cursor (store s)).
Proof.
  revert s. induction actions as [| a actions IH]; intros s Hmode.
  - repeat split; assumption.
  - destruct (perform_keeps_mode s a Hmode) as (H1 & H2 & H3 & H4 & H5 & H6).
    destruct (IH (perform s a) H1) as (K1 & K2 & K3 & K4 & K5 & K6).
    unfold performAll in *. cbn [fold_left].
    rewrite K2, K3, K4, K5, K6. repeat split; assumption.
Qed.

(** The zoom-out of a fast drag stays between 0.92 and 1. *)
Lemma perform_keeps_scale (s : t) (a : Action) :
  0.92 <= worldScale s <= 1 -> 0.92 <= worldScale (perform s a) <= 1.
Proof.
  intros Hscale. destruct a as [now | now currentTime g | g | handle | frameTime | now |];
    cbn [perform].
  - exact Hscale.
  - unfold onPanResponderMove.
    assert (0.92 <= worldScale (trackVelocity now (now - lastPanTime s) g (with_lastPanTime now s))
            <= 1) as Htrack.
    { unfold trackVelocity. destruct (0 <? _)%Z; [| exact Hscale].
      destruct (Rgtb_spec (sqrt (Gesture.vx g * Gesture.vx g + Gesture.vy g * Gesture.vy g)) 800)
        as [[Hfast ->] | [Hslow ->]]; [| exact Hscale].
      grid_fields. unfold Rmax. destruct Rle_dec; lra. }
    set (s2 := trackVelocity _ _ _ _) in *.
    destruct (isLassoMode s2).
    + unfold steerLasso. destruct (Rgtb _ 8); grid_fields; exact Htrack.
    + unfold moveExploration. destruct (300 <? _)%Z; grid_fields; exact Htrack.
  - unfold onPanResponderRelease. destruct (isLassoMode s); grid_fields; exact Hscale.
  - unfold intervalTick. destruct (List.find _ _) as [i |]; [| exact Hscale].
    unfold applyMomentum. destruct (Rltb _ 0.02 && Rltb _ 0.02).
    + unfold clearMomentumInterval. destruct (momentumAnimationRef s); grid_fields; exact Hscale.
    + grid_fields. exact Hscale.
  - exact Hscale.
  - grid_fields. destruct (existsb _ _); lra.
  - unfold edgeDragPrevention. destruct (Rneqb _ _ || Rneqb _ _); grid_fields; exact Hscale.
Qed.

(** The cursor position after an event, out of lasso mode: it is clamped
    to [[20, W - 20] x [20, H - 130]] or it is where it was. *)
Lemma perform_keeps_cursor (s : t) (a : Action) :
  isLassoMode s = false ->
  40 <= screenWidth s -> 150 <= screenHeight s ->
  20 <= Point.x (cursorPosition s) <= screenWidth s - 20 ->
  20 <= Point.y (cursorPosition s) <= screenHeight s - 130 ->
  20 <= Point.x (cursorPosition (perform s a)) <= screenWidth s - 20
  /\ 20 <= Point.y (cursorPosition (perform s a)) <= screenHeight s - 130.
Proof.
  intros Hmode Hwide Htall Hx Hy.
  pose proof (fun v => clamp_between 20 (screenWidth s - 20) v ltac:(lra)) as Hcx.
  pose proof (fun v => clamp_between 20 (screenHeight s - 130) v ltac:(lra)) as Hcy.
  destruct a as [now | now currentTime g | g | handle | frameTime | now |]; cbn [perform].
  - split; assumption.
  - unfold onPanResponderMove.
    destruct (trackVelocity_frame now (now - lastPanTime s) g (with_lastPanTime now s))
      as (Hst & Hw & Hh & Hl & _).
    cbv zeta in *. rewrite Hl. grid_fields. rewrite Hmode.
    set (s2 := trackVelocity _ _ _ _) in *.
    unfold moveExploration. rewrite Hw, Hh.
    destruct (300 <? _)%Z; grid_fields; split; auto.
  - unfold onPanResponderRelease. rewrite Hmode. grid_fields. split; assumption.
  - unfold intervalTick. destruct (List.find _ _) as [i |]; [| split; assumption].
    unfold applyMomentum. destruct (Rltb _ 0.02 && Rltb _ 0.02).
    + unfold clearMomentumInterval. destruct (momentumAnimationRef s); grid_fields;
        split; assumption.
    + grid_fields. split; auto.
  - split; assumption.
  - split; assumption.
  - unfold edgeDragPrevention. destruct (Rneqb _ _ || Rneqb _ _); grid_fields;
      split; auto.
Qed.

(** An interval that [momentumAnimationRef] does not point to is cleared
    by no event. *)
Lemma perform_keeps_interval (s : t) (a : Action) (handle : nat) (captured : Point.t R) :
  isLassoMode s = false ->
  In (handle, captured) (intervals s) ->
  momentumAnimationRef s <> Some handle ->
  (handle < nextHandle s)%nat ->
  In (handle, captured) (intervals (perform s a))
  /\ momentumAnimationRef (perform s a) <> Some handle
  /\ (handle < nextHandle (perform s a))%nat.
Proof.
  intros Hmode Hin Href Hlt.
  destruct a as [now | now currentTime g | g | h | frameTime | now |]; cbn [perform].
  - grid_fields. auto.
  - unfold onPanResponderMove.
    destruct (trackVelocity_frame now (now - lastPanTime s) g (with_lastPanTime now s))
      as (Hst & Hw & Hh & Hl & _).
    cbv zeta in *. rewrite Hl. grid_fields. rewrite Hmode.
    assert (intervals (trackVelocity now (now - lastPanTime s) g (with_lastPanTime now s))
            = intervals s
            /\ momentumAnimationRef
                 (trackVelocity now (now - lastPanTime s) g (with_lastPanTime now s))
               = momentumAnimationRef s
            /\ nextHandle (trackVelocity now (now - lastPanTime s) g (with_lastPanTime now s))
               = nextHandle s) as (Hi & Hr & Hn).
    { unfold trackVelocity. destruct (0 <? _)%Z; [destruct (Rgtb _ 800) |];
        grid_fields; repeat split. }
    set (s2 := trackVelocity _ _ _ _) in *.
    unfold moveExploration. destruct (300 <? _)%Z; grid_fields; rewrite Hi, Hr, Hn; auto.
  - unfold onPanResponderRelease. rewrite Hmode. grid_fields.
    split; [apply in_or_app; left; exact Hin |]. split; [| lia].
    intros Heq. inversion Heq. lia.
  - unfold intervalTick. destruct (List.find _ _) as [i |]; [| auto].
    unfold applyMomentum. destruct (Rltb _ 0.02 && Rltb _ 0.02).
    + unfold clearMomentumInterval. destruct (momentumAnimationRef s) as [current |] eqn:Hcur;
        grid_fields.
      * split; [| split; [discriminate | exact Hlt]].
        apply filter_In. split; [exact Hin |]. cbn [fst].
        apply negb_true_iff, Nat.eqb_neq. congruence.
      * rewrite Hcur. auto.
    + grid_fields. auto.
  - grid_fields. auto.
  - grid_fields. auto.
  - unfold edgeDragPrevention. destruct (Rneqb _ _ || Rneqb _ _); grid_fields; auto.
Qed.

Lemma performAll_keeps_scale (actions : list Action) (s : t) :
  0.92 <= worldScale s <= 1 -> 0.92 <= worldScale (performAll actions s) <= 1.
Proof.
  revert s. induction actions as [| a actions IH]; intros s Hscale; [exact Hscale |].
  apply (IH (perform s a)), perform_keeps_scale, Hscale.
Qed.

Lemma performAll_keeps_cursor (actions : list Action) (s : t) :
  isLassoMode s = false ->
  40 <= screenWidth s -> 150 <= screenHeight s ->
  20 <= Point.x (cursorPosition s) <= screenWidth s - 20 ->
  20 <= Point.y (cursorPosition s) <= screenHeight s - 130 ->
  20 <= Point.x (cursorPosition (performAll actions s)) <= screenWidth s - 20
  /\ 20 <= Point.y (cursorPosition (performAll actions s)) <= screenHeight s - 130.
Proof.
  revert s. induction actions as [| a actions IH]; intros s Hmode Hwide Htall Hx Hy;
    [split; assumption |].
  destruct (perform_keeps_mode s a Hmode) as (H1 & _ & H3 & H4 & _).
  destruct (perform_keeps_cursor s a Hmode Hwide Htall Hx Hy) as [Hx' Hy'].
  unfold performAll. cbn [fold_left]. rewrite <- H3, <- H4 in *.
  apply IH; assumption.
Qed.

Lemma performAll_keeps_interval (actions : list Action) (s : t) (handle : nat)
    (captured : Point.t R) :
  isLassoMode s = false ->
  In (handle, captured) (intervals s) ->
  momentumAnimationRef s <> Some handle ->
  (handle < nextHandle s)%nat ->
  In (handle, captured) (intervals (performAll actions s))
  /\ momentumAnimationRef (performAll actions s) <> Some handle.
Proof.
  revert s. induction actions as [| a actions IH]; intros s Hmode Hin Href Hlt;
    [split; assumption |].
  destruct (perform_keeps_mode s a Hmode) as (H1 & _).
  destruct (perform_keeps_interval s a handle captured Hmode Hin Href Hlt) as (K1 & K2 & K3).
  unfold performAll. cbn [fold_left]. apply IH; assumption.
Qed.

(** What a release out of lasso mode does to the timers. *)
Lemma release_adds_interval (g : Gesture.t) (s : t) :
  isLassoMode s = false ->
  let s' := onPanResponderRelease g s in
  intervals s' = intervals s ++ [(nextHandle s, cursorPosition s)]
  /\ momentumAnimationRef s' = Some (nextHandle s)
  /\ nextHandle s' = S (nextHandle s)
  /\ cursorPosition s' = cursorPosition s
  /\ isLassoMode s' = false.
Proof.
  intros Hmode. cbv zeta. unfold onPanResponderRelease. rewrite Hmode. grid_fields.
  repeat split. exact Hmode.
Qed.

(** An event either leaves the cursor position as it was or stores one
    clamped to [[20, W - 20] x [20, H - 130]]; a move always stores one. *)
Lemma perform_writes_clamped (s : t) (a : Action) :
  isLassoMode s = false ->
  40 <= screenWidth s -> 150 <= screenHeight s ->
  (cursorPosition (perform s a) = cursorPosition s
   \/ (20 <= Point.x (cursorPosition (perform s a)) <= screenWidth s - 20
       /\ 20 <= Point.y (cursorPosition (perform s a)) <= screenHeight s - 130))
  /\ (forall now currentTime g, a = Move now currentTime g ->
      20 <= Point.x (cursorPosition (perform s a)) <= screenWidth s - 20
      /\ 20 <= Point.y (cursorPosition (perform s a)) <= screenHeight s - 130).
Proof.
  intros Hmode Hwide Htall.
  pose proof (fun v => clamp_between 20 (screenWidth s - 20) v ltac:(lra)) as Hcx.
  pose proof (fun v => clamp_between 20 (screenHeight s - 130) v ltac:(lra)) as Hcy.
  destruct a as [now | now currentTime g | g | handle | frameTime | now | rendered];
    cbn [perform]; (split; [| intros ? ? ? Heq; try discriminate Heq]).
  - left. reflexivity.
  - right. unfold onPanResponderMove.
    destruct (trackVelocity_frame now (now - lastPanTime s) g (with_lastPanTime now s))
      as (Hst & Hw & Hh & Hl & _).
    cbv zeta in *. rewrite Hl. grid_fields. rewrite Hmode.
    set (s2 := trackVelocity _ _ _ _) in *.
    unfold moveExploration. rewrite Hw, Hh.
    destruct (300 <? _)%Z; grid_fields; split; auto.
  - unfold onPanResponderMove.
    destruct (trackVelocity_frame now (now - lastPanTime s) g (with_lastPanTime now s))
      as (Hst & Hw & Hh & Hl & _).
    cbv zeta in *. rewrite Hl. grid_fields. rewrite Hmode.
    set (s2 := trackVelocity _ _ _ _) in *.
    unfold moveExploration. rewrite Hw, Hh.
    destruct (300 <? _)%Z; grid_fields; split; auto.
  - left. unfold onPanResponderRelease. rewrite Hmode. grid_fields. reflexivity.
  - unfold intervalTick. destruct (List.find _ _) as [i |]; [| left; reflexivity].
    unfold applyMomentum. destruct (Rltb _ 0.02 && Rltb _ 0.02).
    + left. unfold clearMomentumInterval. destruct (momentumAnimationRef s); reflexivity.
    + right. grid_fields. split; auto.
  - left. reflexivity.
  - left. reflexivity.
  - unfold edgeDragPrevention. destruct (Rneqb _ _ || Rneqb _ _); [right | left; reflexivity].
    grid_fields. split; auto.
Qed.

Lemma performAll_writes_clamped (actions : list Action) (s : t) :
  isLassoMode s = false ->
  40 <= screenWidth s -> 150 <= screenHeight s ->
  cursorPosition (performAll actions s) = cursorPosition s
  \/ (20 <= Point.x (cursorPosition (performAll actions s)) <= screenWidth s - 20
      /\ 20 <= Point.y (cursorPosition (performAll actions s)) <= screenHeight s - 130).
Proof.
  revert s. induction actions as [| a actions IH]; intros s Hmode Hwide Htall;
    [left; reflexivity |].
  destruct (perform_keeps_mode s a Hmode) as (H1 & _ & H3 & H4 & _).
  destruct (perform_writes_clamped s a Hmode Hwide Htall) as [Hstep _].
  unfold performAll. cbn [fold_left]. fold (performAll actions (perform s a)).
  destruct Hstep as [Hsame | [Hx Hy]].
  - rewrite <- Hsame, <- H3, <- H4. apply IH; [exact H1 | rewrite H3 | rewrite H4]; assumption.
  - right. rewrite <- H3, <- H4 in *.
    apply (performAll_keeps_cursor actions (perform s a)); assumption.
Qed.

(** Grants, moves, frames, timeouts and edge effects leave the momentum
    intervals alone. *)
Lemma perform_keeps_timers (s : t) (a : Action) :
  isLassoMode s = false ->
  (forall g, a <> Release g) -> (forall handle, a <> Tick handle) ->
  intervals (perform s a) = intervals s
  /\ momentumAnimationRef (perform s a) = momentumAnimationRef s
  /\ nextHandle (perform s a) = nextHandle s.
Proof.
  intros Hmode Hrelease Htick.
  destruct a as [now | now currentTime g | g | handle | frameTime | now | rendered];
    cbn [perform].
  - grid_fields. repeat split.
  - unfold onPanResponderMove.
    destruct (trackVelocity_frame now (now - lastPanTime s) g (with_lastPanTime now s))
      as (Hst & Hw & Hh & Hl & _).
    cbv zeta in *. rewrite Hl. grid_fields. rewrite Hmode.
    assert (intervals (trackVelocity now (now - lastPanTime s) g (with_lastPanTime now s))
            = intervals s
            /\ momentumAnimationRef
                 (trackVelocity now (now - lastPanTime s) g (with_lastPanTime now s))
               = momentumAnimationRef s
            /\ nextHandle (trackVelocity now (now - lastPanTime s) g (with_lastPanTime now s))
               = nextHandle s) as (Hi & Hr & Hn).
    { unfold trackVelocity. destruct (0 <? _)%Z; [destruct (Rgtb _ 800) |];
        grid_fields; repeat split. }
    set (s2 := trackVelocity _ _ _ _) in *.
    unfold moveExploration. destruct (300 <? _)%Z; grid_fields; rewrite Hi, Hr, Hn;
      repeat split.
  - destruct (Hrelease g eq_refl).
  - destruct (Htick handle eq_refl).
  - grid_fields. repeat split.
  - grid_fields. repeat split.
  - unfold edgeDragPrevention. destruct (Rneqb _ _ || Rneqb _ _); grid_fields; repeat split.
Qed.

(** A firing of a momentum interval while the horizontal speed is at
    least [b], for [b] at least 0.03, does not stop the momentum: the
    interval stays, and the speed is still at least [0.93 * b]. *)
Lemma intervalTick_keeps_running (handle : nat) (s : t) (b : R) :
  0.03 <= b -> b <= Rabs (Point.x (cursorVelocity s)) ->
  intervals (intervalTick handle s) = intervals s
  /\ momentumAnimationRef (intervalTick handle s) = momentumAnimationRef s
  /\ nextHandle (intervalTick handle s) = nextHandle s
  /\ isLassoMode (intervalTick handle s) = isLassoMode s
  /\ 0.93 * b <= Rabs (Point.x (cursorVelocity (intervalTick handle s))).
Proof.
  intros Hb Hv. unfold intervalTick.
  destruct (List.find _ _) as [i |]; [| repeat split; lra].
  assert (forall f, 0.93 <= f <= 1 ->
            0.93 * b <= Rabs (Point.x (cursorVelocity s) * f)) as Hfast.
  { intros f Hf. rewrite Rabs_mult, (Rabs_pos_eq f) by lra.
    pose proof (Rabs_pos (Point.x (cursorVelocity s))). nra. }
  unfold applyMomentum.
  destruct (Rgtb _ 300); [| destruct (Rgtb _ 150); [| destruct (Rgtb _ 75)]];
    match goal with
    | |- context [Rltb (Rabs (Point.x (cursorVelocity s) * ?f)) 0.02] =>
        pose proof (Hfast f ltac:(lra)) as Hf;
        rewrite (Rltb_false (Rabs (Point.x (cursorVelocity s) * f)) 0.02) by lra
    end;
    cbn [andb]; grid_fields; repeat split; exact Hf.
Qed.

Lemma pow_093_range (n : nat) : 0 < 0.93 ^ n <= 1.
Proof. induction n as [| n IH]; cbn [pow]; [lra | nra]. Qed.

Lemma ticks_keep_running (handle : nat) (n : nat) (s : t) (b : R) :
  0.03 <= b * 0.93 ^ n -> b <= Rabs (Point.x (cursorVelocity s)) ->
  intervals (performAll (repeat (Tick handle) n) s) = intervals s
  /\ momentumAnimationRef (performAll (repeat (Tick handle) n) s) = momentumAnimationRef s
  /\ nextHandle (performAll (repeat (Tick handle) n) s) = nextHandle s
  /\ isLassoMode (performAll (repeat (Tick handle) n) s) = isLassoMode s.
Proof.
  revert s b. induction n as [| n IH]; intros s b Hb Hv; [repeat split |].
  cbn [repeat]. unfold performAll. cbn [fold_left perform].
  fold (performAll (repeat (Tick handle) n) (intervalTick handle s)).
  cbn [pow] in Hb. pose proof (pow_093_range n) as Hpow.
  assert (0.03 <= b) as Hb0 by nra.
  destruct (intervalTick_keeps_running handle s b Hb0 Hv) as (H1 & H2 & H3 & H4 & H5).
  destruct (IH (intervalTick handle s) (0.93 * b)) as (K1 & K2 & K3 & K4); [nra | exact H5 |].
  rewrite K1, K2, K3, K4. repeat split; assumption.
Qed.

Lemma pow_093_16 : 0.28 <= 0.93 ^ 16.
Proof.
  change 16%nat with (2 * (2 * (2 * 2)))%nat.
  rewrite !pow_mult.
  assert (0.86 <= 0.93 ^ 2) as H1 by (cbn [pow]; lra).
  generalize dependent (0.93 ^ 2). intros a H1.
  assert (0.73 <= a ^ 2) as H2 by (cbn [pow]; nra).
  clear H1. generalize dependent (a ^ 2). intros b H2.
  assert (0.53 <= b ^ 2) as H3 by (cbn [pow]; nra).
  clear H2. generalize dependent (b ^ 2). intros c H3.
  cbn [pow]; nra.
Qed.

Lemma performAll_app (l1 l2 : list Action) (s : t) :
  performAll (l1 ++ l2) s = performAll l2 (performAll l1 s).
Proof. apply fold_left_app. Qed.

(** A touch-down and a drag start and stop no timer. *)
Lemma drag_keeps_timers (t0 t1 currentTime : Z) (g : Gesture.t) (s : t) :
  isLassoMode s = false ->
  let s' := performAll [Grant t0; Move t1 currentTime g] s in
  isLassoMode s' = false /\ config s' = config s
  /\ intervals s' = intervals s /\ nextHandle s' = nextHandle s.
Proof.
  intros Hmode. cbv zeta. unfold performAll. cbn [fold_left].
  destruct (perform_keeps_mode s (Grant t0) Hmode) as (Hmode1 & _ & _ & _ & Hconfig1 & _).
  destruct (perform_keeps_timers s (Grant t0) Hmode) as (Hi1 & _ & Hn1);
    [discriminate | discriminate |].
  rewrite <- Hconfig1, <- Hi1, <- Hn1.
  generalize dependent (perform s (Grant t0)). intros s1 Hmode1 _ _ _.
  destruct (perform_keeps_mode s1 (Move t1 currentTime g) Hmode1)
    as (Hmode2 & _ & _ & _ & Hconfig2 & _).
  destruct (perform_keeps_timers s1 (Move t1 currentTime g) Hmode1) as (Hi2 & _ & Hn2);
    [discriminate | discriminate |].
  repeat split; assumption.
Qed.

(** The release at 600 px/s, default tuning: the interval it starts is
    handed the current position, and the velocity it leaves is at least
    90 px/s. *)
Lemma fling_starts_interval (s : t) :
  isLassoMode s = false ->
  config s = TuningConfig.defaultConfig ->
  let s' := perform s (Release Samples.flingRight) in
  intervals s' = intervals s ++ [(nextHandle s, cursorPosition s)]
  /\ nextHandle s' = S (nextHandle s)
  /\ isLassoMode s' = false
  /\ 90 <= Rabs (Point.x (cursorVelocity s')).
Proof.
  intros Hmode Hconfig. cbv zeta. cbn [perform].
  destruct (release_adds_interval Samples.flingRight s Hmode) as (Hi & _ & Hn & _ & Hmode').
  destruct (release_sets_velocity Samples.flingRight s Hmode) as [Hv _].
  cbv zeta in Hi, Hn, Hmode', Hv. rewrite Hconfig in Hv.
  split; [exact Hi |]. split; [exact Hn |]. split; [exact Hmode' |].
  rewrite Hv. cbn [Point.x Samples.flingRight Gesture.vx Gesture.vy
                   TuningConfig.defaultConfig TuningConfig.cursor TuningConfig.Cursor.momentum].
  destruct (boostOfSpec_cases (sqrt (600 * 600 + 0 * 0)))
    as [[_ ->] | [[_ ->] | [[_ ->] | [_ ->]]]];
    rewrite Rabs_pos_eq; lra.
Qed.

(** Sixteen firings (96 ms) after a release that left at least 90 px/s,
    the interval is still running. *)
Lemma sixteen_ticks_keep_running (handle : nat) (s : t) :
  90 <= Rabs (Point.x (cursorVelocity s)) ->
  let s' := performAll (repeat (Tick handle) 16) s in
  intervals s' = intervals s /\ nextHandle s' = nextHandle s
  /\ isLassoMode s' = isLassoMode s.
Proof.
  intros Hfast. cbv zeta.
  assert (0.03 <= 90 * 0.93 ^ 16) as Hpow.
  { pose proof pow_093_16 as Hp. revert Hp. generalize (0.93 ^ 16). intros p Hp. lra. }
  destruct (ticks_keep_running handle 16 s 90 Hpow Hfast) as (Hi & _ & Hn & Hmode).
  split; [exact Hi |]. split; [exact Hn | exact Hmode].
Qed.

(** The sample fling on any state that has no timer yet: when the next
    touch-down arrives, the interval started by the release (handle 1,
    holding the position the drag left) is still running. *)
Lemma fling_interval_running (m : t) :
  isLassoMode m = false ->
  config m = TuningConfig.defaultConfig ->
  intervals m = [] ->
  nextHandle m = 1%nat ->
  let s := performAll Samples.flingThenTouch m in
  isLassoMode s = false
  /\ In (1%nat, cursorPosition (performAll [Grant 10; Move 26 26 Samples.flingRight] m))
        (intervals s)
  /\ (1 < nextHandle s)%nat.
Proof.
  intros Hmode Hconfig Hi Hn. cbv zeta. unfold Samples.flingThenTouch.
  change [Grant 10; Move 26 26 Samples.flingRight; Release Samples.flingRight]
    with ([Grant 10; Move 26 26 Samples.flingRight] ++ [Release Samples.flingRight]).
  rewrite !performAll_app.
  destruct (drag_keeps_timers 10 26 26 Samples.flingRight m Hmode)
    as (Hmode2 & Hconfig2 & Hi2 & Hn2).
  cbv zeta in Hmode2, Hconfig2, Hi2, Hn2.
  rewrite Hconfig in Hconfig2. rewrite Hi in Hi2. rewrite Hn in Hn2.
  generalize dependent (performAll [Grant 10; Move 26 26 Samples.flingRight] m).
  intros s2 Hmode2 Hconfig2 Hi2 Hn2.
  destruct (fling_starts_interval s2 Hmode2 Hconfig2) as (Hi3 & Hn3 & Hmode3 & Hfast).
  cbv zeta in Hi3, Hn3, Hmode3, Hfast. rewrite Hi2, Hn2 in Hi3. rewrite Hn2 in Hn3.
  change (performAll [Release Samples.flingRight] s2)
    with (perform s2 (Release Samples.flingRight)).
  generalize dependent (perform s2 (Release Samples.flingRight)).
  intros s3 Hi3 Hn3 Hmode3 Hfast.
  destruct (sixteen_ticks_keep_running 1 s3 Hfast) as (Hi4 & Hn4 & Hmode4).
  cbv zeta in Hi4, Hn4, Hmode4. rewrite Hi3 in Hi4. rewrite Hn3 in Hn4. rewrite Hmode3 in Hmode4.
  clear Hfast.
  generalize dependent (performAll (repeat (Tick 1) 16) s3). intros s4 Hi4 Hn4 Hmode4.
  change (performAll [Grant 140] s4) with (perform s4 (Grant 140)).
  destruct (perform_keeps_mode s4 (Grant 140) Hmode4) as (Hmode5 & _).
  destruct (perform_keeps_timers s4 (Grant 140) Hmode4) as (Hi5 & _ & Hn5);
    [discriminate | discriminate |].
  split; [exact Hmode5 |]. split.
  - rewrite Hi5, Hi4. left. reflexivity.
  - rewrite Hn5, Hn4. apply Nat.lt_succ_diag_r.
Qed.

Lemma flung_interval_running :
  isLassoMode Samples.flungOnPhone = false
  /\ In (1%nat,
         cursorPosition
           (performAll [Grant 10; Move 26 26 Samples.flingRight] Samples.mountedOnPhone))
        (intervals Samples.flungOnPhone)
  /\ (1 < nextHandle Samples.flungOnPhone)%nat.
Proof.
  destruct (mountCommit_state (gameStore.initialGameState 0 1 0.4)
              TuningConfig.defaultConfig 390 844 0)
    as (_ & Hmode & _ & _ & _ & Hconfig & Hi & _ & Hn).
  exact (fling_interval_running Samples.mountedOnPhone Hmode Hconfig Hi Hn).
Qed.

End GridReachable.

(** X21: the mounted grid never enters lasso mode.  After any sequence of
    grants, moves, releases, interval ticks, frames, timeouts and edge
    effects, [isLassoMode] is false and the lasso trail is empty, the
    cursor mode of the store is the one it had at mount, and the window
    size and the tuning are unchanged. *)
Theorem grid_never_enters_lasso_mode (st : GameState.t R) (config : TuningConfig.t)
    (screenWidth screenHeight : R) (now : Z) (actions : list MDRTerminalGrid.Action) :
  let s :=
    MDRTerminalGrid.performAll actions
      (MDRTerminalGrid.initializeCursor
         (MDRTerminalGrid.mount st config screenWidth screenHeight now)) in
  MDRTerminalGrid.isLassoMode s = false
  /\ MDRTerminalGrid.lassoPoints s = []
  /\ CursorState.mode (GameState.cursor (MDRTerminalGrid.store s))
     = CursorState.mode (GameState.cursor st)
  /\ MDRTerminalGrid.screenWidth s = screenWidth
  /\ MDRTerminalGrid.screenHeight s = screenHeight
  /\ MDRTerminalGrid.config s = config.
Proof.
  cbv zeta.
  destruct (performAll_keeps_mode actions
              (MDRTerminalGrid.initializeCursor
                 (MDRTerminalGrid.mount st config screenWidth screenHeight now)) eq_refl)
    as (H1 & H2 & H3 & H4 & H5 & H6).
  rewrite H2, H3, H4, H5, H6. repeat split. exact H1.
Qed.

(** X22: the zoom of the mounted grid stays between 0.92 and 1 under any
    sequence of events, however fast the drags are. *)
Theorem worldScale_stays_in_range (st : GameState.t R) (config : TuningConfig.t)
    (screenWidth screenHeight : R) (now : Z) (actions : list MDRTerminalGrid.Action) :
  let s :=
    MDRTerminalGrid.performAll actions
      (MDRTerminalGrid.initializeCursor
         (MDRTerminalGrid.mount st config screenWidth screenHeight now)) in
  (0.92 <= MDRTerminalGrid.worldScale s <= 1)%R.
Proof.
  cbv zeta. apply performAll_keeps_scale.
  cbn [MDRTerminalGrid.worldScale MDRTerminalGrid.initializeCursor MDRTerminalGrid.mount
       MDRTerminalGrid.updateCursorPosition MDRTerminalGrid.with_store]. lra.
Qed.

(** C2: on the mounted application a touch-down at [t0] followed by a
    touch-up (50 ms later or at any other time, the release handler reads
    no clock) never brings the cursor mode to pinpoint: whatever events
    come between the two and after the release (momentum ticks, frames,
    timeouts, edge effects, further touches), the mode read from the store
    is exploration.  The only responder that receives touches sets no hold
    timer and calls [setCursorMode] in its lasso branch alone. *)
Theorem tap_stays_in_exploration (st : GameState.t R) (config : TuningConfig.t)
    (screenWidth screenHeight : R) (now t0 : Z) (g : MDRTerminalGrid.Gesture.t)
    (between after : list MDRTerminalGrid.Action) :
  let mounted := MDRTerminalGrid.mountCommit st config screenWidth screenHeight now in
  let tapped :=
    MDRTerminalGrid.performAll
      (MDRTerminalGrid.Grant t0 :: between ++ MDRTerminalGrid.Release g :: after) mounted in
  CursorState.mode (GameState.cursor (MDRTerminalGrid.store mounted)) = exploration
  /\ CursorState.mode (GameState.cursor (MDRTerminalGrid.store tapped)) = exploration.
Proof.
  cbv zeta.
  destruct (mountCommit_state st config screenWidth screenHeight now) as (Hstore & Hmode & _).
  cbv zeta in Hstore, Hmode.
  assert (CursorState.mode
            (GameState.cursor
               (MDRTerminalGrid.store
                  (MDRTerminalGrid.mountCommit st config screenWidth screenHeight now)))
          = exploration) as Hstart by (rewrite Hstore; reflexivity).
  split; [exact Hstart |].
  destruct (performAll_keeps_mode
              (MDRTerminalGrid.Grant t0 :: between ++ MDRTerminalGrid.Release g :: after)
              _ Hmode) as (_ & _ & _ & _ & _ & Hkept).
  rewrite Hkept. exact Hstart.
Qed.

(** X23: on a window at least 40 wide and 150 high, the mount leaves the
    stored cursor position at (0, 0), outside the clamp range (the
    centring is overwritten by [resetGame]); after any sequence of events
    the position is still (0, 0) or inside
    [[20, W - 20] x [20, H - 130]]; and once a move has been handled it is
    inside that range after whatever events follow, whatever stale
    position the edge-drag effect or a momentum interval holds. *)
Theorem grid_keeps_cursor_in_play_area (st : GameState.t R) (config : TuningConfig.t)
    (screenWidth screenHeight : R) (now t currentTime : Z) (g : MDRTerminalGrid.Gesture.t)
    (before after : list MDRTerminalGrid.Action) :
  (40 <= screenWidth)%R -> (150 <= screenHeight)%R ->
  let mounted := MDRTerminalGrid.mountCommit st config screenWidth screenHeight now in
  let inRange p :=
    (20 <= Point.x p <= screenWidth - 20 /\ 20 <= Point.y p <= screenHeight - 130)%R in
  MDRTerminalGrid.cursorPosition mounted = Point.mk 0%R 0%R
  /\ (MDRTerminalGrid.cursorPosition (MDRTerminalGrid.performAll before mounted)
      = Point.mk 0%R 0%R
      \/ inRange (MDRTerminalGrid.cursorPosition (MDRTerminalGrid.performAll before mounted)))
  /\ inRange (MDRTerminalGrid.cursorPosition
                (MDRTerminalGrid.performAll
                   (before ++ MDRTerminalGrid.Move t currentTime g :: after) mounted)).
Proof.
  intros Hwide Htall. cbv zeta.
  destruct (mountCommit_state st config screenWidth screenHeight now)
    as (Hstore & Hmode & _ & Hw & Hh & _).
  cbv zeta in Hstore, Hmode, Hw, Hh.
  generalize dependent (MDRTerminalGrid.mountCommit st config screenWidth screenHeight now).
  intros m Hstore Hmode Hw Hh.
  assert (MDRTerminalGrid.cursorPosition m = Point.mk 0%R 0%R) as Hp
    by (unfold MDRTerminalGrid.cursorPosition; rewrite Hstore; reflexivity).
  split; [exact Hp |]. split.
  - destruct (performAll_writes_clamped before m Hmode) as [Hsame | Hin];
      rewrite ?Hw, ?Hh; try assumption.
    + left. rewrite Hsame. exact Hp.
    + right. rewrite Hw, Hh in Hin. exact Hin.
  - unfold MDRTerminalGrid.performAll. rewrite fold_left_app. cbn [fold_left].
    fold (MDRTerminalGrid.performAll before m).
    destruct (performAll_keeps_mode before m Hmode) as (Hmode' & _ & Hw' & Hh' & _).
    generalize dependent (MDRTerminalGrid.performAll before m). intros s Hmode' Hw' Hh'.
    rewrite Hw in Hw'. rewrite Hh in Hh'.
    destruct (perform_writes_clamped s (MDRTerminalGrid.Move t currentTime g) Hmode')
      as [_ Hmove]; rewrite ?Hw', ?Hh'; try assumption.
    destruct (Hmove t currentTime g eq_refl) as [Hx Hy]. clear Hmove.
    destruct (perform_keeps_mode s (MDRTerminalGrid.Move t currentTime g) Hmode')
      as (Hmode'' & _ & Hw'' & Hh'' & _).
    generalize dependent (MDRTerminalGrid.perform s (MDRTerminalGrid.Move t currentTime g)).
    intros s1 Hx Hy Hmode'' Hw'' Hh''.
    rewrite Hw' in Hx, Hw''. rewrite Hh' in Hy, Hh''.
    fold (MDRTerminalGrid.performAll after s1).
    destruct (performAll_keeps_cursor after s1 Hmode'') as [Kx Ky];
      rewrite ?Hw'', ?Hh''; try assumption.
    rewrite Hw'' in Kx. rewrite Hh'' in Ky. split; assumption.
Qed.

Lemma grid_keeps_cursor_in_play_area_witness :
  (20 <= Point.x (MDRTerminalGrid.cursorPosition
                    (MDRTerminalGrid.performAll
                       ([MDRTerminalGrid.Grant 10]
                        ++ MDRTerminalGrid.Move 26 26 Samples.flingRight
                           :: [MDRTerminalGrid.Release Samples.flingRight;
                               MDRTerminalGrid.Tick 1;
                               MDRTerminalGrid.EdgeEffect (Point.mk 0 0)])
                       Samples.mountedOnPhone)) <= 390 - 20)%R
  /\ (20 <= Point.y (MDRTerminalGrid.cursorPosition
                       (MDRTerminalGrid.performAll
                          ([MDRTerminalGrid.Grant 10]
                           ++ MDRTerminalGrid.Move 26 26 Samples.flingRight
                              :: [MDRTerminalGrid.Release Samples.flingRight;
                                  MDRTerminalGrid.Tick 1;
                                  MDRTerminalGrid.EdgeEffect (Point.mk 0 0)])
                          Samples.mountedOnPhone)) <= 844 - 130)%R.
Proof.
  pose proof (grid_keeps_cursor_in_play_area (gameStore.initialGameState 0%R 1%R 0.4%R)
                TuningConfig.defaultConfig 390 844 0 26 26 Samples.flingRight
                [MDRTerminalGrid.Grant 10]
                [MDRTerminalGrid.Release Samples.flingRight; MDRTerminalGrid.Tick 1;
                 MDRTerminalGrid.EdgeEffect (Point.mk 0%R 0%R)]) as H.
  cbv zeta in H. destruct H as (_ & _ & Hin); [lra | lra |]. exact Hin.
Defined.

(** X24: a release starts a momentum interval without clearing one that
    is running.  Out of lasso mode, an interval that is running when a
    release is handled is, after that release, no longer the one
    [momentumAnimationRef] points to, and no later sequence of events
    clears it: it is still among the running intervals at the end. *)
Theorem orphaned_interval_is_never_cleared (s : MDRTerminalGrid.t) (handle : nat)
    (captured : Point.t R) (g : MDRTerminalGrid.Gesture.t)
    (actions : list MDRTerminalGrid.Action) :
  MDRTerminalGrid.isLassoMode s = false ->
  In (handle, captured) (MDRTerminalGrid.intervals s) ->
  (handle < MDRTerminalGrid.nextHandle s)%nat ->
  let s' := MDRTerminalGrid.performAll (MDRTerminalGrid.Release g :: actions) s in
  In (handle, captured) (MDRTerminalGrid.intervals s')
  /\ MDRTerminalGrid.momentumAnimationRef s' <> Some handle.
Proof.
  intros Hmode Hin Hlt. cbv zeta.
  unfold MDRTerminalGrid.performAll. cbn [fold_left MDRTerminalGrid.perform].
  destruct (release_adds_interval g s Hmode) as (Hi & Hr & Hn & _ & Hm).
  cbv zeta in Hi, Hr, Hn, Hm.
  generalize dependent (MDRTerminalGrid.onPanResponderRelease g s). intros s1 Hi Hr Hn Hm.
  apply (performAll_keeps_interval actions s1); [exact Hm | | |].
  - rewrite Hi. apply in_or_app. left. exact Hin.
  - rewrite Hr. intros Heq. inversion Heq as [Heq']. rewrite Heq' in Hlt.
    exact (Nat.lt_irrefl _ Hlt).
  - rewrite Hn. apply Nat.lt_lt_succ_r, Hlt.
Qed.

(** The sample fling answered by a second fling: the interval of the
    first release (handle 1) is still running after the second release,
    two firings of the second interval and a touch-down. *)
Lemma orphaned_interval_is_never_cleared_witness :
  In (1%nat,
      MDRTerminalGrid.cursorPosition
        (MDRTerminalGrid.performAll
           [MDRTerminalGrid.Grant 10; MDRTerminalGrid.Move 26 26 Samples.flingRight]
           Samples.mountedOnPhone))
     (MDRTerminalGrid.intervals
        (MDRTerminalGrid.performAll
           [MDRTerminalGrid.Release Samples.flingRight; MDRTerminalGrid.Tick 2;
            MDRTerminalGrid.Tick 2; MDRTerminalGrid.Grant 300]
           Samples.flungOnPhone))
  /\ MDRTerminalGrid.momentumAnimationRef
       (MDRTerminalGrid.performAll
          [MDRTerminalGrid.Release Samples.flingRight; MDRTerminalGrid.Tick 2;
           MDRTerminalGrid.Tick 2; MDRTerminalGrid.Grant 300]
          Samples.flungOnPhone)
     <> Some 1%nat.
Proof.
  destruct flung_interval_running as (Hmode & Hin & Hlt).
  exact (orphaned_interval_is_never_cleared Samples.flungOnPhone 1 _ Samples.flingRight
           [MDRTerminalGrid.Tick 2; MDRTerminalGrid.Tick 2; MDRTerminalGrid.Grant 300]
           Hmode Hin Hlt).
Defined.

(** ** The session clock *)

Section Clock.
Local Open Scope Z_scope.

Lemma length_append (a b : string) :
  String.length (a +:+ b) = (String.length a + String.length b)%nat.
Proof.
  induction a as [| c a IH]; [reflexivity |].
  change (S (String.length (a +:+ b)) = S (String.length a + String.length b)).
  rewrite IH. reflexivity.
Qed.

Lemma two_digits (n : Z) :
  0 <= n < 100 -> String.length (SessionClock.padStart 2 "0"%char (pretty n)) = 2%nat.
Proof.
  intros Hn.
  assert (forallb (fun k => Nat.eqb (String.length (SessionClock.padStart 2 "0"%char (pretty k))) 2)
                  (upto 0 99) = true) as Hall by (vm_compute; reflexivity).
  rewrite forallb_forall in Hall. apply Nat.eqb_eq, Hall, In_upto. lia.
Qed.

End Clock.

(** X26: for a non-negative elapsed time in milliseconds, the clock's
    minutes and seconds are between 0 and 59, hours, minutes and seconds
    account for the elapsed time up to the last started second, and below
    100 hours the displayed string has the 8 characters of [HH:MM:SS]. *)
Theorem session_clock (elapsed : Z) :
  (0 <= elapsed)%Z ->
  let h := SessionClock.hours elapsed in
  let m := SessionClock.minutes elapsed in
  let sec := SessionClock.seconds elapsed in
  (0 <= h)%Z /\ (0 <= m < 60)%Z /\ (0 <= sec < 60)%Z
  /\ (h * 3600000 + m * 60000 + sec * 1000 <= elapsed
      < h * 3600000 + m * 60000 + sec * 1000 + 1000)%Z
  /\ ((elapsed < 360000000)%Z -> String.length (SessionClock.sessionTime elapsed) = 8%nat).
Proof.
  intros Hpos. cbv zeta.
  unfold SessionClock.sessionTime, SessionClock.hours, SessionClock.minutes,
    SessionClock.seconds.
  rewrite !Z.rem_mod_nonneg by lia.
  pose proof (Z.div_mod elapsed 3600000 ltac:(lia)) as Hh.
  pose proof (Z.mod_pos_bound elapsed 3600000 ltac:(lia)) as Hhm.
  pose proof (Z.div_mod (elapsed mod 3600000) 60000 ltac:(lia)) as Hm.
  pose proof (Z.mod_pos_bound (elapsed mod 3600000) 60000 ltac:(lia)) as Hmm.
  pose proof (Z.div_mod (elapsed mod 60000) 1000 ltac:(lia)) as Hs.
  pose proof (Z.mod_pos_bound (elapsed mod 60000) 1000 ltac:(lia)) as Hsm.
  pose proof (Z.mod_pos_bound elapsed 60000 ltac:(lia)) as Hs60.
  assert ((elapsed mod 3600000) mod 60000 = elapsed mod 60000)%Z as Hnest.
  { symmetry. rewrite (Z.div_mod elapsed 3600000) at 1 by lia.
    replace (3600000 * (elapsed / 3600000) + elapsed mod 3600000)%Z
      with (elapsed mod 3600000 + (60 * (elapsed / 3600000)) * 60000)%Z by ring.
    apply Z.mod_add. lia. }
  assert (0 <= elapsed / 3600000)%Z as Hh0 by (apply Z.div_pos; lia).
  assert (0 <= elapsed mod 3600000 / 60000 < 60)%Z as Hm60
    by (split; [apply Z.div_pos; lia | apply Z.div_lt_upper_bound; lia]).
  assert (0 <= elapsed mod 60000 / 1000 < 60)%Z as Hs60'
    by (split; [apply Z.div_pos; lia | apply Z.div_lt_upper_bound; lia]).
  split; [exact Hh0 |]. split; [exact Hm60 |]. split; [exact Hs60' |].
  split; [lia |].
  intros Hshort.
  assert (elapsed / 3600000 < 100)%Z as Hh100 by (apply Z.div_lt_upper_bound; lia).
  rewrite !length_append, !two_digits by lia. reflexivity.
Qed.

Lemma session_clock_witness :
  (0 <= SessionClock.minutes 3725000 < 60)%Z
  /\ String.length (SessionClock.sessionTime 3725000) = 8%nat.
Proof.
  pose proof (session_clock 3725000) as H. cbv zeta in H.
  destruct H as (_ & Hm & _ & _ & Hlen); [lia |].
  split; [exact Hm | apply Hlen; lia].
Defined.

(** ** Feedback: haptic cooldown and visual effects *)

Section Feedback.
Import FeedbackSystem.

Lemma ForallOrdPairs_snoc {A : Type} (R : A -> A -> Prop) (l : list A) (x : A) :
  ForallOrdPairs R l -> Forall (fun a => R a x) l -> ForallOrdPairs R (l ++ [x]).
Proof.
  intros Hl Hx. induction Hl as [| a l Ha Hl IH]; cbn [app].
  - constructor; [constructor | constructor].
  - inversion Hx as [| ? ? Hax Hlx]; subst. constructor; [| apply IH, Hlx].
    apply Forall_app. split; [exact Ha | constructor; [exact Hax | constructor]].
Qed.

(** Every logged haptic is at most as late as [lastHapticTime], and two
    logged haptics are at least 100 ms apart. *)
Lemma call_keeps_cooldown (this : t) (c : Call) :
  Forall (fun entry => (fst entry <= lastHapticTime this)%Z) (triggered this) ->
  ForallOrdPairs (fun a b => (fst a + 100 <= fst b)%Z) (triggered this) ->
  Forall (fun entry => (fst entry <= lastHapticTime (call this c))%Z) (triggered (call this c))
  /\ ForallOrdPairs (fun a b => (fst a + 100 <= fst b)%Z) (triggered (call this c)).
Proof.
  intros Hlast Hgap. destruct c as [now pattern configHapticEnabled | enabled]; cbn [call].
  - unfold triggerHapticFeedback. destruct (negb (hapticEnabled this)); [split; assumption |].
    destruct (now - lastHapticTime this <? 100)%Z eqn:Hcool; [split; assumption |].
    apply Z.ltb_ge in Hcool. cbn [lastHapticTime triggered].
    assert (Forall (fun entry => (fst entry <= now)%Z) (triggered this)) as Hnow.
    { eapply List.Forall_impl; [| exact Hlast]. cbn beta. intros entry H. lia. }
    destruct configHapticEnabled; [| split; assumption].
    split.
    + apply Forall_app. split; [exact Hnow | constructor; [cbn; lia | constructor]].
    + apply ForallOrdPairs_snoc; [exact Hgap |].
      eapply List.Forall_impl; [| exact Hlast]. cbn. intros entry H. lia.
  - split; assumption.
Qed.

Lemma fold_delete_lookup {V : Type} (keys : list (string * Z)) (m : gmap (string * Z) V)
    (k : string * Z) :
  fold_left (fun effects effectId => delete effectId effects) keys m !! k
  = if decide (k ∈ keys) then None else m !! k.
Proof.
  revert m. induction keys as [| key keys IH]; intros m; [reflexivity |].
  cbn [fold_left]. rewrite IH. destruct (decide (k ∈ keys)) as [Hin | Hout].
  - rewrite decide_True by (right; exact Hin). reflexivity.
  - destruct (decide (k = key)) as [-> | Hne].
    + rewrite decide_True by left. apply lookup_delete_eq.
    + rewrite decide_False by (intros H; apply list_elem_of_In in H as [H | H];
        [congruence | apply Hout, list_elem_of_In, H]).
      apply lookup_delete_ne. congruence.
Qed.

End Feedback.

(** X27: whatever calls are made on a new feedback system, and at
    whatever times, two haptics that reach [HapticFeedback.trigger] are at
    least 100 ms apart, and none is later than [lastHapticTime]. *)
Theorem haptics_respect_cooldown (calls : list FeedbackSystem.Call) :
  let this := fold_left FeedbackSystem.call calls FeedbackSystem.new in
  ForallOrdPairs (fun a b => (fst a + 100 <= fst b)%Z) (FeedbackSystem.triggered this)
  /\ Forall (fun entry => (fst entry <= FeedbackSystem.lastHapticTime this)%Z)
            (FeedbackSystem.triggered this).
Proof.
  cbv zeta.
  assert (forall this,
            Forall (fun entry => (fst entry <= FeedbackSystem.lastHapticTime this)%Z)
                   (FeedbackSystem.triggered this) ->
            ForallOrdPairs (fun a b => (fst a + 100 <= fst b)%Z) (FeedbackSystem.triggered this) ->
            ForallOrdPairs (fun a b => (fst a + 100 <= fst b)%Z)
              (FeedbackSystem.triggered (fold_left FeedbackSystem.call calls this))
            /\ Forall (fun entry =>
                         (fst entry
                          <= FeedbackSystem.lastHapticTime
                               (fold_left FeedbackSystem.call calls this))%Z)
                      (FeedbackSystem.triggered (fold_left FeedbackSystem.call calls this)))
    as Hgen.
  { induction calls as [| c calls IH]; intros this Hlast Hgap; cbn [fold_left].
    - split; assumption.
    - destruct (call_keeps_cooldown this c Hlast Hgap) as [Hlast' Hgap'].
      apply IH; assumption. }
  apply Hgen; constructor.
Qed.

(** X28: [removeVisualEffect] builds the id from the time of the removal,
    so it removes an effect of the given type only when that effect was
    added in the very same millisecond; called at any other time it
    leaves the effect (and every other effect) in place. *)
Theorem removeVisualEffect_misses (this : FeedbackSystem.t) (type : string)
    (duration intensity : Q) (idTime startTime now : Z) :
  now <> idTime ->
  let added := FeedbackSystem.addVisualEffect idTime startTime type duration intensity this in
  FeedbackSystem.visualEffects (FeedbackSystem.removeVisualEffect now type added)
    !! (type, idTime)
  = Some (FeedbackSystem.Effect.mk startTime duration intensity)
  /\ FeedbackSystem.visualEffects (FeedbackSystem.removeVisualEffect idTime type added)
       !! (type, idTime) = None
  /\ forall k, k <> (type, now) ->
       FeedbackSystem.visualEffects (FeedbackSystem.removeVisualEffect now type added) !! k
       = FeedbackSystem.visualEffects added !! k.
Proof.
  intros Hlater. cbv zeta.
  cbn [FeedbackSystem.removeVisualEffect FeedbackSystem.addVisualEffect
       FeedbackSystem.visualEffects].
  split; [| split].
  - rewrite lookup_delete_ne by congruence. apply lookup_insert_eq.
  - apply lookup_delete_eq.
  - intros k Hk. apply lookup_delete_ne. congruence.
Qed.

Lemma removeVisualEffect_misses_witness :
  FeedbackSystem.visualEffects
    (FeedbackSystem.removeVisualEffect 1700000000350 "success"
       (FeedbackSystem.addVisualEffect 1700000000000 1700000000000 "success" 300 1
          FeedbackSystem.new))
    !! ("success", 1700000000000%Z)
  = Some (FeedbackSystem.Effect.mk 1700000000000 300 1).
Proof.
  pose proof (removeVisualEffect_misses FeedbackSystem.new "success" 300 1
                1700000000000 1700000000000 1700000000350) as H.
  cbv zeta in H. destruct H as [Hkept _]; [lia | exact Hkept].
Defined.

(** X29: [updateVisualEffects] deletes exactly the effects whose elapsed
    time exceeds their duration; an effect whose elapsed time equals its
    duration, or is negative, is kept unchanged. *)
Theorem updateVisualEffects_drops_expired (this : FeedbackSystem.t) (now : Z)
    (k : string * Z) :
  FeedbackSystem.visualEffects (FeedbackSystem.updateVisualEffects now this) !! k
  = match FeedbackSystem.visualEffects this !! k with
    | Some effect =>
        if Qle_bool (inject_Z (now - FeedbackSystem.Effect.startTime effect))
                    (FeedbackSystem.Effect.duration effect)
        then Some effect else None
    | None => None
    end.
Proof.
  cbn [FeedbackSystem.updateVisualEffects FeedbackSystem.visualEffects].
  rewrite fold_delete_lookup. unfold FeedbackSystem.expiredEffects.
  destruct (FeedbackSystem.visualEffects this !! k) as [effect |] eqn:Hk.
  - destruct (Qle_bool _ _) eqn:Hlive.
    + rewrite decide_False; [reflexivity |].
      rewrite list_elem_of_In, in_map_iff. intros [[k' e] [Heq Hin]]. cbn in Heq. subst k'.
      apply filter_In in Hin as [Hin Hexp]. apply list_elem_of_In, elem_of_map_to_list in Hin.
      cbn [snd] in Hexp. rewrite Hk in Hin. inversion Hin; subst e.
      rewrite Hlive in Hexp. discriminate.
    + rewrite decide_True; [reflexivity |].
      rewrite list_elem_of_In, in_map_iff. exists (k, effect). split; [reflexivity |].
      apply filter_In. split.
      * apply list_elem_of_In, elem_of_map_to_list, Hk.
      * cbn [snd]. rewrite Hlive. reflexivity.
  - destruct (decide _); reflexivity.
Qed.

(** Three success haptics at 1000, 1050 and 1100 ms: the second falls in
    the cooldown of the first and is dropped. *)
Example haptic_in_cooldown_dropped :
  FeedbackSystem.triggered
    (fold_left FeedbackSystem.call
       [FeedbackSystem.TriggerHaptic 1000 FeedbackSystem.success true;
        FeedbackSystem.TriggerHaptic 1050 FeedbackSystem.success true;
        FeedbackSystem.TriggerHaptic 1100 FeedbackSystem.light true]
       FeedbackSystem.new)
  = [(1000%Z, FeedbackSystem.notificationSuccess); (1100%Z, FeedbackSystem.impactLight)].
Proof. reflexivity. Qed.

(** ** Performance monitor: the latency window *)

Section LatencyWindow.

Lemma tl_skipn_snoc {A : Type} (k : nat) (l : list A) (x : A) :
  (k < length l)%nat -> tl (skipn k l ++ [x]) = skipn (S k) l ++ [x].
Proof.
  revert l. induction k as [| k IH]; intros l Hk.
  - destruct l as [| a l]; [cbn in Hk; lia | reflexivity].
  - destruct l as [| a l]; [cbn in Hk; lia |]. cbn [skipn]. apply IH. cbn in Hk. lia.
Qed.

Lemma push_shift_window {A : Type} (l : list A) (x : A) :
  (let pushed := skipn (length l - 30) l ++ [x] in
   if (30 <? length pushed)%nat then tl pushed else pushed)
  = skipn (length (l ++ [x]) - 30) (l ++ [x]).
Proof.
  cbv zeta. rewrite !length_app, length_skipn. cbn [length].
  destruct (Nat.le_gt_cases (length l) 29) as [Hshort | Hlong].
  - replace (length l - 30)%nat with 0%nat by lia.
    replace (length l + 1 - 30)%nat with 0%nat by lia.
    cbn [skipn]. destruct (Nat.ltb_spec 30 (length l - 0 + 1)); [lia | reflexivity].
  - destruct (Nat.ltb_spec 30 (length l - (length l - 30) + 1)); [| lia].
    rewrite skipn_app.
    replace (length l + 1 - 30 - length l)%nat with 0%nat by lia. cbn [skipn].
    replace (length l + 1 - 30)%nat with (S (length l - 30)) by lia.
    apply tl_skipn_snoc. lia.
Qed.

End LatencyWindow.

(** X30: after any number of [recordInputLatency] calls on a new monitor,
    the kept samples are the differences [performanceNow - inputTimestamp]
    of the last 30 calls, oldest first; and whatever the order of
    [incrementAnimationCount] and [decrementAnimationCount] calls, the
    animation counter never goes below zero. *)
Theorem latency_window_keeps_last_30 (samples : list (Q * Q)) (changes : list bool) :
  let latencies := map (fun sample => (fst sample - snd sample)%Q) samples in
  let recorded :=
    fold_left (fun this sample =>
                 PerformanceMonitor.recordInputLatency (fst sample) (snd sample) this)
              samples PerformanceMonitor.new in
  let counted :=
    fold_left (fun this up =>
                 if up : bool then PerformanceMonitor.incrementAnimationCount this
                 else PerformanceMonitor.decrementAnimationCount this)
              changes PerformanceMonitor.new in
  PerformanceMonitor.inputTimestamps recorded = skipn (length latencies - 30) latencies
  /\ (length (PerformanceMonitor.inputTimestamps recorded) <= 30)%nat
  /\ (0 <= PerformanceMonitor.animationCount counted)%Z.
Proof.
  cbv zeta.
  assert (PerformanceMonitor.inputTimestamps
            (fold_left (fun this sample =>
                          PerformanceMonitor.recordInputLatency (fst sample) (snd sample) this)
                       samples PerformanceMonitor.new)
          = skipn (length (map (fun sample => (fst sample - snd sample)%Q) samples) - 30)
                  (map (fun sample => (fst sample - snd sample)%Q) samples)) as Hwindow.
  { induction samples as [| sample samples IH] using rev_ind; [reflexivity |].
    rewrite fold_left_app, map_app. cbn [fold_left map].
    cbn [PerformanceMonitor.recordInputLatency PerformanceMonitor.inputTimestamps].
    rewrite IH. apply push_shift_window. }
  split; [exact Hwindow |]. split.
  - rewrite Hwindow, length_skipn. lia.
  - assert (forall this, (0 <= PerformanceMonitor.animationCount this)%Z ->
              (0 <= PerformanceMonitor.animationCount
                      (fold_left (fun this up =>
                                    if up : bool then PerformanceMonitor.incrementAnimationCount this
                                    else PerformanceMonitor.decrementAnimationCount this)
                                 changes this))%Z) as Hcount.
    { induction changes as [| up changes IH]; intros this Hthis; [exact Hthis |].
      cbn [fold_left]. apply IH. destruct up; cbn; lia. }
    apply Hcount. cbn. lia.
Qed.
